(** * liboqs-python: the ctypes wrapper [oqs/wrapper.py]

    A shallow embedding of the wrapper module and the properties of its
    capability registry, its two handle classes ([OQS_KEM], [OQS_SIG]),
    its exception classes and its library locator.

    The native library is not part of the wrapper: every foreign function
    is a field of a record over an abstract native state [N], and every
    theorem holds for all such records.  A call log (the [trace] of the
    [world]) records each foreign call with its arguments, so that
    statements such as "the free routine is invoked once" can be written
    down. *)

From Stdlib Require Import ZArith List String Ascii Bool Lia.
From Stdlib.Strings Require Import Byte.
From stdpp Require Import base tactics list strings.
Import ListNotations.

Local Open Scope string_scope.
Local Open Scope list_scope.

(** ** Python values used by the wrapper *)

(** Python [bytes], and the contents of a ctypes [c_char] array. *)
Definition bytes := list byte.

(** A ctypes pointer, as the address it holds; [NULL] is address 0. *)
Definition pointer := Z.
Definition NULL : pointer := 0%Z.

(** expected return value from native OQS functions *)
Definition _OQS_SUCCESS : Z := 0%Z.

(** The value of [bytes(buf) if _rv == _OQS_SUCCESS else 0]: either a
    [bytes] object or the [int] 0. *)
Inductive bytes_or_int :=
| PyBytes (b : bytes)
| PyInt (z : Z).

(** ** Exceptions *)

(** The exception classes the module defines or can meet. *)
Inductive exc_class :=
| BaseException
| SystemExit
| Exception
| OSError
| RuntimeError
| AssertionError
| AttributeError
| ValueError
| UnicodeError
| UnicodeDecodeError
| MechanismNotSupportedError
| MechanismNotEnabledError.

(** The base class written in each [class] statement. *)
Definition base (c : exc_class) : option exc_class :=
  match c with
  | BaseException => None
  | SystemExit => Some BaseException
  | Exception => Some BaseException
  | OSError => Some Exception
  | RuntimeError => Some Exception
  | AssertionError => Some Exception
  | AttributeError => Some Exception
  | ValueError => Some Exception
  | UnicodeError => Some ValueError
  | UnicodeDecodeError => Some UnicodeError
  | MechanismNotSupportedError => Some Exception
  | MechanismNotEnabledError => Some MechanismNotSupportedError
  end.

Definition exc_class_eqb (c d : exc_class) : bool :=
  match c, d with
  | BaseException, BaseException | SystemExit, SystemExit
  | Exception, Exception | OSError, OSError | RuntimeError, RuntimeError
  | AssertionError, AssertionError | AttributeError, AttributeError
  | ValueError, ValueError | UnicodeError, UnicodeError
  | UnicodeDecodeError, UnicodeDecodeError
  | MechanismNotSupportedError, MechanismNotSupportedError
  | MechanismNotEnabledError, MechanismNotEnabledError => true
  | _, _ => false
  end.

(** [c] and its bases, nearest first; the hierarchy is five deep. *)
Fixpoint mro_upto (fuel : nat) (c : exc_class) : list exc_class :=
  c :: match fuel, base c with
       | S fuel', Some b => mro_upto fuel' b
       | _, _ => []
       end.

Definition mro (c : exc_class) : list exc_class := mro_upto 5 c.

Definition issubclass (c d : exc_class) : bool :=
  existsb (exc_class_eqb d) (mro c).

(** An exception instance: its class, the positional arguments kept by
    [BaseException], and the two attributes that the module's own
    [__init__] methods assign. *)
Record exception := mk_exception {
  exc_type : exc_class;
  exc_args : list string;
  exc_alg_name : option string;
  exc_message : option string
}.

(** An exception raised by the interpreter or by ctypes. *)
Definition builtin_error (c : exc_class) (msg : string) : exception :=
  {| exc_type := c; exc_args := [msg];
     exc_alg_name := None; exc_message := None |}.

(** [MechanismNotSupportedError.__init__] *)
Definition new_MechanismNotSupportedError (alg_name : string) : exception :=
  {| exc_type := MechanismNotSupportedError;
     exc_args := [alg_name];
     exc_alg_name := Some alg_name;
     exc_message := Some (alg_name +:+ " is not supported by OQS") |}.

(** [MechanismNotEnabledError.__init__] *)
Definition new_MechanismNotEnabledError (alg_name : string) : exception :=
  {| exc_type := MechanismNotEnabledError;
     exc_args := [alg_name];
     exc_alg_name := Some alg_name;
     exc_message :=
       Some (alg_name +:+ " is not supported but not enabled by OQS") |}.

(** [except c:] handles [e] when [isinstance(e, c)]. *)
Definition handles (c : exc_class) (e : exception) : bool :=
  issubclass (exc_type e) c.

(** [needle in haystack] on [str]. *)
Fixpoint str_contains (needle haystack : string) : bool :=
  String.prefix needle haystack ||
  match haystack with
  | EmptyString => false
  | String _ rest => str_contains needle rest
  end.

(** [x in l] on a list of [str]: a scan with [==]. *)
Definition list_contains (x : string) (l : list string) : bool :=
  existsb (String.eqb x) l.

(** ** Results and the world *)

Inductive result (A : Type) :=
| Ok (a : A)
| Raise (e : exception).
Arguments Ok {A} a.
Arguments Raise {A} e.

(** One foreign call, with the arguments it was given. *)
Inductive call :=
| Call_KEM_alg_count
| Call_KEM_alg_identifier (i : Z)
| Call_KEM_new (name : bytes)
| Call_KEM_free (kem : pointer)
| Call_KEM_keypair (kem : pointer) (public_key secret_key : bytes)
| Call_KEM_encaps (kem : pointer) (ciphertext shared_secret public_key : bytes)
| Call_KEM_decaps (kem : pointer) (shared_secret ciphertext : bytes)
                  (secret_key : bytes)
| Call_SIG_alg_count
| Call_SIG_alg_identifier (i : Z)
| Call_SIG_new (name : bytes)
| Call_SIG_free (sig : pointer)
| Call_SIG_keypair (sig : pointer) (public_key secret_key : bytes)
| Call_SIG_sign (sig : pointer) (signature : bytes) (sig_len : Z)
                (message : bytes) (message_len : Z) (secret_key : bytes)
| Call_SIG_verify (sig : pointer) (message : bytes) (message_len : Z)
                  (signature : bytes) (sig_len : Z) (public_key : bytes).

(** The state of the native library together with the log of the calls
    made into it so far, oldest first. *)
Record world (N : Type) := mk_world {
  native : N;
  trace : list call
}.
Arguments mk_world {N} native trace.
Arguments native {N} w.
Arguments trace {N} w.

(** Python code that may raise and that may call into the library. *)
Definition M (N A : Type) : Type := world N -> result A * world N.

Definition ret {N A} (a : A) : M N A := fun w => (Ok a, w).

Definition raise {N A} (e : exception) : M N A := fun w => (Raise e, w).

Definition bind {N A B} (m : M N A) (k : A -> M N B) : M N B :=
  fun w => match m w with
           | (Ok a, w') => k a w'
           | (Raise e, w') => (Raise e, w')
           end.

Notation "'let!' x ':=' m 'in' k" := (bind m (fun x => k))
  (at level 10, x name, m at level 200, k at level 200).

Definition lift_result {N A} (r : result A) : M N A := fun w => (r, w).

(** [try: body / except c: handler] *)
Definition try_except {N A} (body : M N A) (c : exc_class)
    (handler : M N A) : M N A :=
  fun w => match body w with
           | (Ok a, w') => (Ok a, w')
           | (Raise e, w') =>
               if handles c e then handler w' else (Raise e, w')
           end.

(** [with mgr as value: block], for a manager whose [__exit__] returns
    [None]: [__exit__] runs when the block ends, normally or by an
    exception, and an exception of the block is raised again after it.
    [__exit__] is given the manager as it was entered. *)
Definition with_statement {N O A} (__enter__ : O -> M N O)
    (__exit__ : O -> M N unit) (mgr : O) (block : O -> M N A) : M N A :=
  let! value := __enter__ mgr in
  fun w => match block value w with
           | (Ok a, w1) => (let! _ := __exit__ mgr in ret a) w1
           | (Raise e, w1) => (let! _ := __exit__ mgr in raise e) w1
           end.

(** Whether a logged call is a native free of the context [p]. *)
Definition is_free_of (p : pointer) (c : call) : bool :=
  match c with
  | Call_KEM_free q | Call_SIG_free q => (q =? p)%Z
  | _ => false
  end.

(** The number of native free calls on [p] in a log. *)
Definition free_calls (p : pointer) (log : list call) : nat :=
  length (List.filter (is_free_of p) log).

(** [[f(x) for x in xs]] *)
Fixpoint list_comp {N A B} (f : A -> M N B) (xs : list A) : M N (list B) :=
  match xs with
  | [] => ret []
  | x :: xs' =>
      let! y := f x in
      let! ys := list_comp f xs' in
      ret (y :: ys)
  end.

(** [[x for x in xs if p(x)]] *)
Fixpoint list_comp_if {N A} (p : A -> M N bool) (xs : list A)
    : M N (list A) :=
  match xs with
  | [] => ret []
  | x :: xs' =>
      let! b := p x in
      let! ys := list_comp_if p xs' in
      ret (if b then x :: ys else ys)
  end.

(** [range(n)] for a Python [int] [n]: empty when [n <= 0]. *)
Definition range (n : Z) : list Z :=
  map Z.of_nat (seq 0 (Z.to_nat n)).

(** Log a foreign call and run it on the native state. *)
Definition foreign {N A} (c : call) (f : N -> A * N) : M N A :=
  fun w => let '(a, n') := f (native w) in
           (Ok a, {| native := n'; trace := trace w ++ [c] |}).

(** ** ctypes *)

(** [ct.create_string_buffer(n)]: [n] zero bytes. *)
Definition create_string_buffer_size (size : nat) : bytes :=
  repeat x00 size.

(** [ct.create_string_buffer(init)]: the bytes and a terminating NUL. *)
Definition create_string_buffer_init (init : bytes) : bytes :=
  init ++ [x00].

(** [ct.create_string_buffer(init, size)]: a zeroed array of [size] bytes
    whose [value] is then set to [init]; the assignment raises
    [ValueError] when [init] does not fit. *)
Definition create_string_buffer (init : bytes) (size : nat) : result bytes :=
  if (size <? length init)%nat
  then Raise (builtin_error ValueError "byte string too long")
  else Ok (init ++ repeat x00 (size - length init)).

(** The contents of a ctypes array after the callee wrote [data] into it
    from its start: the array keeps its size. *)
Definition written (buf data : bytes) : bytes :=
  take (length buf) (data ++ drop (length data) buf).

(** [ct.c_int(v).value]: ctypes stores the low 32 bits, signed. *)
Definition c_int (v : Z) : Z :=
  ((v + 2147483648) mod 4294967296 - 2147483648)%Z.

(** [buf[:n]] with Python's treatment of a negative or too large [n]. *)
Definition slice_to (buf : bytes) (n : Z) : bytes :=
  if (n <? 0)%Z
  then take (Z.to_nat (Z.of_nat (length buf) + n)) buf
  else take (Z.to_nat n) buf.

(** [p.contents]: reading through a NULL pointer raises [ValueError]. *)
Definition contents {N S} (read : pointer -> N -> S) (p : pointer) : M N S :=
  fun w => if (p =? NULL)%Z
           then (Raise (builtin_error ValueError "NULL pointer access"), w)
           else (Ok (read p (native w)), w).

(** [str.encode()] and [bytes.decode()] (UTF-8).  [decode] raises
    [UnicodeDecodeError] on bytes that are not valid UTF-8. *)
Record codec := {
  encode : string -> bytes;
  decode : bytes -> result string
}.

(** [field.decode()] on a [c_char_p] field: a NULL field reads as [None],
    which has no [decode]. *)
Definition decode_c_char_p {N} (cd : codec) (field : option bytes)
    : M N string :=
  match field with
  | None => raise (builtin_error AttributeError
                     "'NoneType' object has no attribute 'decode'")
  | Some b => lift_result (decode cd b)
  end.

(** A value of the [details] dictionary. *)
Inductive detail :=
| DStr (s : string)
| DInt (z : Z)
| DBool (b : bool).

(** ** KEM *)

Module KEM.

(** The native KEM structure returned by OQS: [OQS_KEM._fields_]. *)
Record OQS_KEM_struct := {
  method_name : option bytes;
  alg_version : option bytes;
  claimed_nist_level : Z;
  ind_cca : Z;
  length_public_key : nat;
  length_secret_key : nat;
  length_ciphertext : nat;
  length_shared_secret : nat;
  keypair_cb : pointer;
  encaps_cb : pointer;
  decaps_cb : pointer
}.

(** The KEM entry points of [liboqs] over a native state [N].  A routine
    that fills caller-supplied buffers receives their contents and returns
    what it wrote into each; [read_OQS_KEM] is the memory read behind
    [kem.contents]. *)
Record library (N : Type) := {
  OQS_KEM_alg_count : N -> Z * N;
  OQS_KEM_alg_identifier : Z -> N -> option bytes * N;
  OQS_KEM_new : bytes -> N -> pointer * N;
  OQS_KEM_free : pointer -> N -> unit * N;
  OQS_KEM_keypair : pointer -> bytes -> bytes -> N -> (Z * bytes * bytes) * N;
  OQS_KEM_encaps :
    pointer -> bytes -> bytes -> bytes -> N -> (Z * bytes * bytes) * N;
  OQS_KEM_decaps : pointer -> bytes -> bytes -> bytes -> N -> (Z * bytes) * N;
  read_OQS_KEM : pointer -> N -> OQS_KEM_struct
}.
Arguments OQS_KEM_alg_count {N} l.
Arguments OQS_KEM_alg_identifier {N} l.
Arguments OQS_KEM_new {N} l.
Arguments OQS_KEM_free {N} l.
Arguments OQS_KEM_keypair {N} l.
Arguments OQS_KEM_encaps {N} l.
Arguments OQS_KEM_decaps {N} l.
Arguments read_OQS_KEM {N} l.

(** The module globals built by the capability registry. *)
Record registry := {
  _supported_KEMs : list string;
  _enabled_KEMs : list string
}.

(** The instance attributes of an [OQS_KEM] object; [secret_key] is
    [None] while the attribute has not been assigned. *)
Record OQS_KEM := {
  alg_name : string;
  _kem : pointer;
  details : list (string * detail);
  secret_key : option bytes
}.

Definition set_secret_key (self : OQS_KEM) (sk : bytes) : OQS_KEM :=
  {| alg_name := alg_name self; _kem := _kem self;
     details := details self; secret_key := Some sk |}.

(** Reading [self.secret_key]. *)
Definition get_secret_key {N} (self : OQS_KEM) : M N bytes :=
  match secret_key self with
  | Some sk => ret sk
  | None => raise (builtin_error AttributeError
                     "'OQS_KEM' object has no attribute 'secret_key'")
  end.

(** The methods a caller can invoke on an [OQS_KEM] object. *)
Inductive method :=
| Generate_keypair
| Export_secret_key
| Encap_secret (public_key : bytes)
| Decap_secret (ciphertext : bytes)
| Free.

(** The dictionary assigned to [self.details], given the decoded name
    and version. *)
Definition details_dict (c : OQS_KEM_struct) (name version : string)
    : list (string * detail) :=
  [ ("name", DStr name);
    ("version", DStr version);
    ("claimed_nist_level", DInt (claimed_nist_level c));
    ("is_ind_cca", DBool (negb (ind_cca c =? 0)%Z));
    ("length_public_key", DInt (Z.of_nat (length_public_key c)));
    ("length_secret_key", DInt (Z.of_nat (length_secret_key c)));
    ("length_ciphertext", DInt (Z.of_nat (length_ciphertext c)));
    ("length_shared_secret", DInt (Z.of_nat (length_shared_secret c))) ].

Section wrapper.
Context {N : Type} (liboqs : library N) (cd : codec).

(** *** The capability registry *)

Definition is_KEM_enabled (alg_name : string) : M N bool :=
  let! returned :=
    try_except
      (let name := create_string_buffer_init (encode cd alg_name) in
       let! kem := foreign (Call_KEM_new name) (OQS_KEM_new liboqs name) in
       (* a Structure instance is always true *)
       let! _ := contents (read_OQS_KEM liboqs) kem in
       let! _ := foreign (Call_KEM_free kem) (OQS_KEM_free liboqs kem) in
       ret (Some true))
      ValueError
      (ret None) in
  match returned with
  | Some b => ret b
  | None => ret false
  end.

Definition _KEM_alg_ids : M N (list (option bytes)) :=
  let! count := foreign Call_KEM_alg_count (OQS_KEM_alg_count liboqs) in
  list_comp
    (fun i => foreign (Call_KEM_alg_identifier i)
                      (OQS_KEM_alg_identifier liboqs i))
    (range count).

(** The three assignments after [is_KEM_enabled]. *)
Definition module_init : M N registry :=
  let! ids := _KEM_alg_ids in
  let! supported := list_comp (decode_c_char_p cd) ids in
  let! enabled := list_comp_if is_KEM_enabled supported in
  ret {| _supported_KEMs := supported; _enabled_KEMs := enabled |}.

(** *** The handle class *)

Section handle.
Variable reg : registry.

Definition __init__ (alg_name : string) (secret_key : option bytes)
    : M N OQS_KEM :=
  let! _ :=
    if negb (list_contains alg_name (_enabled_KEMs reg)) then
      (* perhaps it's a supported but not enabled alg *)
      if list_contains alg_name (_supported_KEMs reg)
      then raise (new_MechanismNotEnabledError alg_name)
      else raise (new_MechanismNotSupportedError alg_name)
    else ret tt in
  let name := create_string_buffer_init (encode cd alg_name) in
  let! kem := foreign (Call_KEM_new name) (OQS_KEM_new liboqs name) in
  let! c := contents (read_OQS_KEM liboqs) kem in
  let! name := decode_c_char_p cd (method_name c) in
  let! version := decode_c_char_p cd (alg_version c) in
  let details := details_dict c name version in
  (* [if secret_key:] is false for [None] and for [b''] *)
  match secret_key with
  | Some (b :: bs) =>
      let! sk := lift_result
                   (create_string_buffer (b :: bs) (length_secret_key c)) in
      ret {| alg_name := alg_name; _kem := kem; details := details;
             secret_key := Some sk |}
  | _ =>
      ret {| alg_name := alg_name; _kem := kem; details := details;
             secret_key := None |}
  end.

End handle.

Definition __enter__ (self : OQS_KEM) : M N OQS_KEM := ret self.

(** The two buffer allocations that open [generate_keypair]; the second
    one is assigned to [self.secret_key]. *)
Definition generate_keypair_buffers (self : OQS_KEM) : M N (bytes * OQS_KEM) :=
  let! c := contents (read_OQS_KEM liboqs) (_kem self) in
  let public_key := create_string_buffer_size (length_public_key c) in
  let! c := contents (read_OQS_KEM liboqs) (_kem self) in
  let self := set_secret_key self
                (create_string_buffer_size (length_secret_key c)) in
  ret (public_key, self).

(** The foreign call of [generate_keypair] and its [return]. *)
Definition generate_keypair_call (public_key : bytes) (self : OQS_KEM)
    : M N (bytes_or_int * OQS_KEM) :=
  let! secret_key := get_secret_key self in
  let! out := foreign (Call_KEM_keypair (_kem self) public_key secret_key)
                (OQS_KEM_keypair liboqs (_kem self) public_key secret_key) in
  let '(_rv, pk, sk) := out in
  let public_key := written public_key pk in
  let self := set_secret_key self (written secret_key sk) in
  ret (if (_rv =? _OQS_SUCCESS)%Z then PyBytes public_key else PyInt 0,
       self).

(** [generate_keypair] returns its value and the object as it left it. *)
Definition generate_keypair (self : OQS_KEM) : M N (bytes_or_int * OQS_KEM) :=
  let! bufs := generate_keypair_buffers self in
  generate_keypair_call (fst bufs) (snd bufs).

Definition export_secret_key (self : OQS_KEM) : M N bytes :=
  get_secret_key self.

Definition encap_secret (self : OQS_KEM) (public_key : bytes)
    : M N (bytes * bytes_or_int) :=
  let! c := contents (read_OQS_KEM liboqs) (_kem self) in
  let! my_public_key :=
    lift_result (create_string_buffer public_key (length_public_key c)) in
  let! c := contents (read_OQS_KEM liboqs) (_kem self) in
  let ciphertext := create_string_buffer_size (length_ciphertext c) in
  let! c := contents (read_OQS_KEM liboqs) (_kem self) in
  let shared_secret := create_string_buffer_size (length_shared_secret c) in
  let! out :=
    foreign
      (Call_KEM_encaps (_kem self) ciphertext shared_secret my_public_key)
      (OQS_KEM_encaps liboqs (_kem self) ciphertext shared_secret
         my_public_key) in
  let '(_rv, ct, ss) := out in
  let ciphertext := written ciphertext ct in
  let shared_secret := written shared_secret ss in
  (* the conditional expression binds tighter than the comma *)
  ret (ciphertext,
       if (_rv =? _OQS_SUCCESS)%Z then PyBytes shared_secret else PyInt 0).

Definition decap_secret (self : OQS_KEM) (ciphertext : bytes)
    : M N bytes_or_int :=
  let! c := contents (read_OQS_KEM liboqs) (_kem self) in
  let! my_ciphertext :=
    lift_result (create_string_buffer ciphertext (length_ciphertext c)) in
  let! c := contents (read_OQS_KEM liboqs) (_kem self) in
  let shared_secret := create_string_buffer_size (length_shared_secret c) in
  let! secret_key := get_secret_key self in
  let! out :=
    foreign
      (Call_KEM_decaps (_kem self) shared_secret my_ciphertext secret_key)
      (OQS_KEM_decaps liboqs (_kem self) shared_secret my_ciphertext
         secret_key) in
  let '(_rv, ss) := out in
  let shared_secret := written shared_secret ss in
  ret (if (_rv =? _OQS_SUCCESS)%Z then PyBytes shared_secret else PyInt 0).

(** Releases the native resources. *)
Definition free (self : OQS_KEM) : M N unit :=
  foreign (Call_KEM_free (_kem self)) (OQS_KEM_free liboqs (_kem self)).

Definition __exit__ (self : OQS_KEM) : M N unit := free self.

Definition __repr__ (self : OQS_KEM) : M N string :=
  let! c := contents (read_OQS_KEM liboqs) (_kem self) in
  let! name := decode_c_char_p cd (method_name c) in
  ret ("Key encapsulation mechanism: " +:+ name).

(** Returns the list of enabled KEM mechanisms. *)
Definition get_enabled_KEM_mechanisms (reg : registry) : list string :=
  _enabled_KEMs reg.

(** A caller's use of one object: a method call yields the object as the
    call left it, the returned value being dropped; a sequence of calls
    stops at the first exception. *)
Definition invoke (m : method) (self : OQS_KEM) : M N OQS_KEM :=
  match m with
  | Generate_keypair =>
      let! r := generate_keypair self in ret (snd r)
  | Export_secret_key =>
      let! _ := export_secret_key self in ret self
  | Encap_secret public_key =>
      let! _ := encap_secret self public_key in ret self
  | Decap_secret ciphertext =>
      let! _ := decap_secret self ciphertext in ret self
  | Free =>
      let! _ := free self in ret self
  end.

Fixpoint invoke_all (ms : list method) (self : OQS_KEM) : M N OQS_KEM :=
  match ms with
  | [] => ret self
  | m :: ms' => let! self := invoke m self in invoke_all ms' self
  end.

End wrapper.
End KEM.

(** ** Signatures *)

Module SIG.

(** The native signature structure returned by OQS: [OQS_SIG._fields_]. *)
Record OQS_SIG_struct := {
  method_name : option bytes;
  alg_version : option bytes;
  claimed_nist_level : Z;
  euf_cma : Z;
  length_public_key : nat;
  length_secret_key : nat;
  length_signature : nat;
  keypair_cb : pointer;
  sign_cb : pointer;
  verify_cb : pointer
}.

(** The signature entry points of [liboqs] over a native state [N]. *)
Record library (N : Type) := {
  OQS_SIG_alg_count : N -> Z * N;
  OQS_SIG_alg_identifier : Z -> N -> option bytes * N;
  OQS_SIG_new : bytes -> N -> pointer * N;
  OQS_SIG_free : pointer -> N -> unit * N;
  OQS_SIG_keypair : pointer -> bytes -> bytes -> N -> (Z * bytes * bytes) * N;
  OQS_SIG_sign :
    pointer -> bytes -> Z -> bytes -> Z -> bytes -> N -> (Z * bytes * Z) * N;
  OQS_SIG_verify : pointer -> bytes -> Z -> bytes -> Z -> bytes -> N -> Z * N;
  read_OQS_SIG : pointer -> N -> OQS_SIG_struct
}.
Arguments OQS_SIG_alg_count {N} l.
Arguments OQS_SIG_alg_identifier {N} l.
Arguments OQS_SIG_new {N} l.
Arguments OQS_SIG_free {N} l.
Arguments OQS_SIG_keypair {N} l.
Arguments OQS_SIG_sign {N} l.
Arguments OQS_SIG_verify {N} l.
Arguments read_OQS_SIG {N} l.

Record registry := {
  _supported_sigs : list string;
  _enabled_sigs : list string
}.

(** The instance attributes of an [OQS_SIG] object. *)
Record OQS_SIG := {
  _sig : pointer;
  details : list (string * detail);
  secret_key : option bytes
}.

Definition set_secret_key (self : OQS_SIG) (sk : bytes) : OQS_SIG :=
  {| _sig := _sig self; details := details self; secret_key := Some sk |}.

Definition get_secret_key {N} (self : OQS_SIG) : M N bytes :=
  match secret_key self with
  | Some sk => ret sk
  | None => raise (builtin_error AttributeError
                     "'OQS_SIG' object has no attribute 'secret_key'")
  end.

(** The methods a caller can invoke on an [OQS_SIG] object. *)
Inductive method :=
| Generate_keypair
| Export_secret_key
| Sign (message : bytes)
| Verify (message signature public_key : bytes)
| Free.

Definition details_dict (c : OQS_SIG_struct) (name version : string)
    : list (string * detail) :=
  [ ("name", DStr name);
    ("version", DStr version);
    ("claimed_nist_level", DInt (claimed_nist_level c));
    ("is_euf_cma", DBool (negb (euf_cma c =? 0)%Z));
    ("length_public_key", DInt (Z.of_nat (length_public_key c)));
    ("length_secret_key", DInt (Z.of_nat (length_secret_key c)));
    ("length_signature", DInt (Z.of_nat (length_signature c))) ].

Section wrapper.
Context {N : Type} (liboqs : library N) (cd : codec).

Definition is_sig_enabled (alg_name : string) : M N bool :=
  let! returned :=
    try_except
      (let name := create_string_buffer_init (encode cd alg_name) in
       let! sig := foreign (Call_SIG_new name) (OQS_SIG_new liboqs name) in
       let! _ := contents (read_OQS_SIG liboqs) sig in
       let! _ := foreign (Call_SIG_free sig) (OQS_SIG_free liboqs sig) in
       ret (Some true))
      ValueError
      (ret None) in
  match returned with
  | Some b => ret b
  | None => ret false
  end.

Definition _sig_alg_ids : M N (list (option bytes)) :=
  let! count := foreign Call_SIG_alg_count (OQS_SIG_alg_count liboqs) in
  list_comp
    (fun i => foreign (Call_SIG_alg_identifier i)
                      (OQS_SIG_alg_identifier liboqs i))
    (range count).

Definition module_init : M N registry :=
  let! ids := _sig_alg_ids in
  let! supported := list_comp (decode_c_char_p cd) ids in
  let! enabled := list_comp_if is_sig_enabled supported in
  ret {| _supported_sigs := supported; _enabled_sigs := enabled |}.

Section handle.
Variable reg : registry.

Definition __init__ (alg_name : string) (secret_key : option bytes)
    : M N OQS_SIG :=
  let! _ :=
    if negb (list_contains alg_name (_enabled_sigs reg)) then
      (* perhaps it's a supported but not enabled alg *)
      if list_contains alg_name (_supported_sigs reg)
      then raise (new_MechanismNotEnabledError alg_name)
      else raise (new_MechanismNotSupportedError alg_name)
    else ret tt in
  let name := create_string_buffer_init (encode cd alg_name) in
  let! sig := foreign (Call_SIG_new name) (OQS_SIG_new liboqs name) in
  let! c := contents (read_OQS_SIG liboqs) sig in
  let! name := decode_c_char_p cd (method_name c) in
  let! version := decode_c_char_p cd (alg_version c) in
  let details := details_dict c name version in
  (* [if secret_key:] is false for [None] and for [b''] *)
  match secret_key with
  | Some (b :: bs) =>
      let! sk := lift_result
                   (create_string_buffer (b :: bs) (length_secret_key c)) in
      ret {| _sig := sig; details := details; secret_key := Some sk |}
  | _ =>
      ret {| _sig := sig; details := details; secret_key := None |}
  end.

End handle.

Definition __enter__ (self : OQS_SIG) : M N OQS_SIG := ret self.

Definition generate_keypair_buffers (self : OQS_SIG) : M N (bytes * OQS_SIG) :=
  let! c := contents (read_OQS_SIG liboqs) (_sig self) in
  let public_key := create_string_buffer_size (length_public_key c) in
  let! c := contents (read_OQS_SIG liboqs) (_sig self) in
  let self := set_secret_key self
                (create_string_buffer_size (length_secret_key c)) in
  ret (public_key, self).

Definition generate_keypair_call (public_key : bytes) (self : OQS_SIG)
    : M N (bytes_or_int * OQS_SIG) :=
  let! secret_key := get_secret_key self in
  let! out := foreign (Call_SIG_keypair (_sig self) public_key secret_key)
                (OQS_SIG_keypair liboqs (_sig self) public_key secret_key) in
  let '(_rv, pk, sk) := out in
  let public_key := written public_key pk in
  let self := set_secret_key self (written secret_key sk) in
  ret (if (_rv =? _OQS_SUCCESS)%Z then PyBytes public_key else PyInt 0,
       self).

Definition generate_keypair (self : OQS_SIG) : M N (bytes_or_int * OQS_SIG) :=
  let! bufs := generate_keypair_buffers self in
  generate_keypair_call (fst bufs) (snd bufs).

Definition export_secret_key (self : OQS_SIG) : M N bytes :=
  get_secret_key self.

Definition sign (self : OQS_SIG) (message : bytes) : M N bytes_or_int :=
  (* provide length to avoid extra null char *)
  let! my_message :=
    lift_result (create_string_buffer message (length message)) in
  let message_len := c_int (Z.of_nat (length my_message)) in
  let! c := contents (read_OQS_SIG liboqs) (_sig self) in
  let signature := create_string_buffer_size (length_signature c) in
  let sig_len := c_int 0 in
  let! secret_key := get_secret_key self in
  let! out :=
    foreign
      (Call_SIG_sign (_sig self) signature sig_len my_message message_len
         secret_key)
      (OQS_SIG_sign liboqs (_sig self) signature sig_len my_message
         message_len secret_key) in
  let '(_rv, sg, n) := out in
  let signature := written signature sg in
  let sig_len := c_int n in
  ret (if (_rv =? _OQS_SUCCESS)%Z
       then PyBytes (slice_to signature sig_len) else PyInt 0).

Definition verify (self : OQS_SIG) (message signature public_key : bytes)
    : M N bool :=
  (* provide length to avoid extra null char *)
  let! my_message :=
    lift_result (create_string_buffer message (length message)) in
  let message_len := c_int (Z.of_nat (length my_message)) in
  let! my_signature :=
    lift_result (create_string_buffer signature (length signature)) in
  let sig_len := c_int (Z.of_nat (length my_signature)) in
  let! c := contents (read_OQS_SIG liboqs) (_sig self) in
  let! my_public_key :=
    lift_result (create_string_buffer public_key (length_public_key c)) in
  let! _rv :=
    foreign
      (Call_SIG_verify (_sig self) my_message message_len my_signature
         sig_len my_public_key)
      (OQS_SIG_verify liboqs (_sig self) my_message message_len my_signature
         sig_len my_public_key) in
  ret (if (_rv =? _OQS_SUCCESS)%Z then true else false).

(** Releases the native resources. *)
Definition free (self : OQS_SIG) : M N unit :=
  foreign (Call_SIG_free (_sig self)) (OQS_SIG_free liboqs (_sig self)).

Definition __exit__ (self : OQS_SIG) : M N unit := free self.

Definition __repr__ (self : OQS_SIG) : M N string :=
  let! c := contents (read_OQS_SIG liboqs) (_sig self) in
  let! name := decode_c_char_p cd (method_name c) in
  ret ("Signature mechanism: " +:+ name).

(** Returns the list of enabled signature mechanisms. *)
Definition get_enabled_sig_mechanisms (reg : registry) : list string :=
  _enabled_sigs reg.

(** A caller's use of one object, as for [OQS_KEM]. *)
Definition invoke (m : method) (self : OQS_SIG) : M N OQS_SIG :=
  match m with
  | Generate_keypair =>
      let! r := generate_keypair self in ret (snd r)
  | Export_secret_key =>
      let! _ := export_secret_key self in ret self
  | Sign message =>
      let! _ := sign self message in ret self
  | Verify message signature public_key =>
      let! _ := verify self message signature public_key in ret self
  | Free =>
      let! _ := free self in ret self
  end.

Fixpoint invoke_all (ms : list method) (self : OQS_SIG) : M N OQS_SIG :=
  match ms with
  | [] => ret self
  | m :: ms' => let! self := invoke m self in invoke_all ms' self
  end.

End wrapper.
End SIG.

(** ** The library locator *)

Module Locator.

Definition LIBOQS_INSTALL_PATH : string := "LIBOQS_INSTALL_PATH".

(** What the locator reads from the process and the operating system,
    for a type [L] of loaded libraries. *)
Record system (L : Type) := {
  platform_system : string;
  environ : string -> option string;
  find_library : string -> option string;
  curdir : string;
  path_join : string -> string -> string;
  path_exists : string -> bool;
  windll_LoadLibrary : string -> result L;
  cdll_LoadLibrary : string -> result L
}.
Arguments platform_system {L} s.
Arguments environ {L} s.
Arguments find_library {L} s.
Arguments curdir {L} s.
Arguments path_join {L} s.
Arguments path_exists {L} s.
Arguments windll_LoadLibrary {L} s.
Arguments cdll_LoadLibrary {L} s.

(** How the import of the module ends. *)
Inductive startup (L : Type) :=
| Imported (liboqs : L)
| Exited (message : string)
| Uncaught (e : exception).
Arguments Imported {L} liboqs.
Arguments Exited {L} message.
Arguments Uncaught {L} e.

Section locator.
Context {L : Type} (os : system L).

Definition LIBOQS_SHARED_OBJ : string :=
  if String.eqb (platform_system os) "Windows" then "oqs" else "liboqs.so".

(** [paths] as it stands when the [for] loop starts; [find_library] may
    have returned [None]. *)
Definition paths : list (option string) :=
  let paths := [] in
  (* try custom env var first *)
  let paths :=
    match environ os LIBOQS_INSTALL_PATH with
    | Some v => paths ++ [Some v]
    | None => paths
    end in
  (* search typical locations too *)
  paths ++ [find_library os "oqs";
            Some (path_join os (curdir os) LIBOQS_SHARED_OBJ)].

Definition LoadLibrary : string -> result L :=
  if String.eqb (platform_system os) "Windows"
  then windll_LoadLibrary os else cdll_LoadLibrary os.

(** [path and os.path.exists(path)] *)
Definition usable (path : option string) : bool :=
  match path with
  | None => false
  | Some EmptyString => false
  | Some p => path_exists os p
  end.

(** The [for] loop and the [raise] after it. *)
Fixpoint try_paths (ps : list (option string)) : result L :=
  match ps with
  | [] => Raise (builtin_error RuntimeError "No liboqs.so found!")
  | path :: rest =>
      if usable path
      then match path with
           | Some p => LoadLibrary p
           | None => try_paths rest
           end
      else try_paths rest
  end.

(** Attempts to load native OQS library. *)
Definition _load_shared_obj : result L := try_paths paths.

(** The [try] statement at module level.  A loaded library object is
    always true, so the [assert] passes. *)
Definition module_load : startup L :=
  match _load_shared_obj with
  | Ok liboqs => Imported liboqs
  | Raise err =>
      if handles OSError err
      then Exited "Could not load liboqs shared library"
      else if handles RuntimeError err
      then Exited "No liboqs shared libraries found"
      else Uncaught err
  end.

End locator.
End Locator.

(** ** A small library instance

    A stand-in for [liboqs] on which the wrapper can be run: three KEM
    and two signature identifiers, of which ["BIKE1-L1"] and ["qTESLA-I"]
    are known to the build but not instantiable.  The native state is the
    status that the keypair, encapsulation, decapsulation, signing and
    verification routines return. *)

Module Toy.

Definition ascii_codec : codec :=
  {| encode := list_byte_of_string;
     decode := fun b => Ok (string_of_list_byte b) |}.

(** The C string held by a buffer: the bytes before the first NUL. *)
Fixpoint c_str (buf : bytes) : bytes :=
  match buf with
  | [] => []
  | b :: rest => if Byte.eqb b x00 then [] else b :: c_str rest
  end.

Definition kem_table : list (string * bool) :=
  [("DEFAULT", true); ("Kyber512", true); ("BIKE1-L1", false)].

Definition sig_table : list (string * bool) :=
  [("Dilithium2", true); ("qTESLA-I", false)].

(** The context of the [i]-th enabled entry lives at address [16 * (i+1)];
    a disabled or unknown name yields NULL. *)
Fixpoint lookup_new (table : list (string * bool)) (name : string)
    (addr : Z) : pointer :=
  match table with
  | [] => NULL
  | (n, enabled) :: rest =>
      if String.eqb n name
      then (if enabled then addr else NULL)
      else lookup_new rest name (addr + 16)%Z
  end.

Definition identifier (table : list (string * bool)) (i : Z)
    : option bytes :=
  if (i <? 0)%Z then None
  else option_map (fun e => list_byte_of_string (fst e))
         (nth_error table (Z.to_nat i)).

Definition kem_struct : KEM.OQS_KEM_struct :=
  {| KEM.method_name := Some (list_byte_of_string "Kyber512");
     KEM.alg_version := Some (list_byte_of_string "r1");
     KEM.claimed_nist_level := 1%Z;
     KEM.ind_cca := 1%Z;
     KEM.length_public_key := 4;
     KEM.length_secret_key := 6;
     KEM.length_ciphertext := 5;
     KEM.length_shared_secret := 3;
     KEM.keypair_cb := 4096%Z;
     KEM.encaps_cb := 4112%Z;
     KEM.decaps_cb := 4128%Z |}.

Definition sig_struct : SIG.OQS_SIG_struct :=
  {| SIG.method_name := Some (list_byte_of_string "Dilithium2");
     SIG.alg_version := Some (list_byte_of_string "r1");
     SIG.claimed_nist_level := 2%Z;
     SIG.euf_cma := 1%Z;
     SIG.length_public_key := 4;
     SIG.length_secret_key := 6;
     SIG.length_signature := 8;
     SIG.keypair_cb := 8192%Z;
     SIG.sign_cb := 8208%Z;
     SIG.verify_cb := 8224%Z |}.

Definition kem : KEM.library Z :=
  {| KEM.OQS_KEM_alg_count := fun st => (Z.of_nat (length kem_table), st);
     KEM.OQS_KEM_alg_identifier := fun i st => (identifier kem_table i, st);
     KEM.OQS_KEM_new := fun name st =>
       (lookup_new kem_table (string_of_list_byte (c_str name)) 16%Z, st);
     KEM.OQS_KEM_free := fun _ st => (tt, st);
     KEM.OQS_KEM_keypair := fun _ _ _ st =>
       ((st, [x01; x02; x03; x04], [x0a; x0b; x0c; x0d; x0e; x0f]), st);
     KEM.OQS_KEM_encaps := fun _ _ _ _ st =>
       ((st, [xc1; xc2; xc3; xc4; xc5], [x51; x52; x53]), st);
     KEM.OQS_KEM_decaps := fun _ _ _ _ st => ((st, [x51; x52; x53]), st);
     KEM.read_OQS_KEM := fun _ _ => kem_struct |}.

Definition sig : SIG.library Z :=
  {| SIG.OQS_SIG_alg_count := fun st => (Z.of_nat (length sig_table), st);
     SIG.OQS_SIG_alg_identifier := fun i st => (identifier sig_table i, st);
     SIG.OQS_SIG_new := fun name st =>
       (lookup_new sig_table (string_of_list_byte (c_str name)) 16%Z, st);
     SIG.OQS_SIG_free := fun _ st => (tt, st);
     SIG.OQS_SIG_keypair := fun _ _ _ st =>
       ((st, [x01; x02; x03; x04], [x0a; x0b; x0c; x0d; x0e; x0f]), st);
     SIG.OQS_SIG_sign := fun _ _ _ _ _ _ st =>
       ((st, [xe1; xe2; xe3; xe4; xe5; xe6; xe7], 7%Z), st);
     SIG.OQS_SIG_verify := fun _ _ _ _ _ _ st => (st, st);
     SIG.read_OQS_SIG := fun _ _ => sig_struct |}.

(** The KEM library again, reporting [count] identifiers whatever the
    table holds: beyond the table the identifier is NULL. *)
Definition kem_reporting (count : Z) : KEM.library Z :=
  {| KEM.OQS_KEM_alg_count := fun st => (count, st);
     KEM.OQS_KEM_alg_identifier := KEM.OQS_KEM_alg_identifier kem;
     KEM.OQS_KEM_new := KEM.OQS_KEM_new kem;
     KEM.OQS_KEM_free := KEM.OQS_KEM_free kem;
     KEM.OQS_KEM_keypair := KEM.OQS_KEM_keypair kem;
     KEM.OQS_KEM_encaps := KEM.OQS_KEM_encaps kem;
     KEM.OQS_KEM_decaps := KEM.OQS_KEM_decaps kem;
     KEM.read_OQS_KEM := KEM.read_OQS_KEM kem |}.

Definition sig_reporting (count : Z) : SIG.library Z :=
  {| SIG.OQS_SIG_alg_count := fun st => (count, st);
     SIG.OQS_SIG_alg_identifier := SIG.OQS_SIG_alg_identifier sig;
     SIG.OQS_SIG_new := SIG.OQS_SIG_new sig;
     SIG.OQS_SIG_free := SIG.OQS_SIG_free sig;
     SIG.OQS_SIG_keypair := SIG.OQS_SIG_keypair sig;
     SIG.OQS_SIG_sign := SIG.OQS_SIG_sign sig;
     SIG.OQS_SIG_verify := SIG.OQS_SIG_verify sig;
     SIG.read_OQS_SIG := SIG.read_OQS_SIG sig |}.

(** The world before the module is imported, for a given status. *)
Definition boot (status : Z) : world Z :=
  {| native := status; trace := [] |}.

(** The registries that [module_init] computes on this library. *)
Definition kem_registry : KEM.registry :=
  {| KEM._supported_KEMs := ["DEFAULT"; "Kyber512"; "BIKE1-L1"];
     KEM._enabled_KEMs := ["DEFAULT"; "Kyber512"] |}.

Definition sig_registry : SIG.registry :=
  {| SIG._supported_sigs := ["Dilithium2"; "qTESLA-I"];
     SIG._enabled_sigs := ["Dilithium2"] |}.

(** The objects that construction yields for ["Kyber512"] and
    ["Dilithium2"] without a secret key. *)
Definition kyber : KEM.OQS_KEM :=
  {| KEM.alg_name := "Kyber512";
     KEM._kem := 32%Z;
     KEM.details :=
       [ ("name", DStr "Kyber512"); ("version", DStr "r1");
         ("claimed_nist_level", DInt 1%Z); ("is_ind_cca", DBool true);
         ("length_public_key", DInt 4%Z); ("length_secret_key", DInt 6%Z);
         ("length_ciphertext", DInt 5%Z); ("length_shared_secret", DInt 3%Z) ];
     KEM.secret_key := None |}.

Definition dilithium : SIG.OQS_SIG :=
  {| SIG._sig := 16%Z;
     SIG.details :=
       [ ("name", DStr "Dilithium2"); ("version", DStr "r1");
         ("claimed_nist_level", DInt 2%Z); ("is_euf_cma", DBool true);
         ("length_public_key", DInt 4%Z); ("length_secret_key", DInt 6%Z);
         ("length_signature", DInt 8%Z) ];
     SIG.secret_key := None |}.

(** A system with the library installed under the configured path only. *)
Definition installed : Locator.system Z :=
  {| Locator.platform_system := "Linux";
     Locator.environ := fun k =>
       if String.eqb k "LIBOQS_INSTALL_PATH"
       then Some "/opt/oqs/liboqs.so" else None;
     Locator.find_library := fun _ => None;
     Locator.curdir := ".";
     Locator.path_join := fun a b => a +:+ "/" +:+ b;
     Locator.path_exists := fun p => String.eqb p "/opt/oqs/liboqs.so";
     Locator.windll_LoadLibrary := fun _ =>
       Raise (builtin_error AttributeError "windll");
     Locator.cdll_LoadLibrary := fun _ => Ok 7%Z |}.

(** The same system with a library file that the loader rejects. *)
Definition corrupt : Locator.system Z :=
  {| Locator.platform_system := "Linux";
     Locator.environ := Locator.environ installed;
     Locator.find_library := fun _ => None;
     Locator.curdir := ".";
     Locator.path_join := fun a b => a +:+ "/" +:+ b;
     Locator.path_exists := fun p => String.eqb p "/opt/oqs/liboqs.so";
     Locator.windll_LoadLibrary := fun _ =>
       Raise (builtin_error AttributeError "windll");
     Locator.cdll_LoadLibrary := fun _ =>
       Raise (builtin_error OSError "invalid ELF header") |}.

(** A system whose configured path is stale, with the library in a
    standard place. *)
Definition stale : Locator.system Z :=
  {| Locator.platform_system := "Linux";
     Locator.environ := fun k =>
       if String.eqb k "LIBOQS_INSTALL_PATH"
       then Some "/old/liboqs.so" else None;
     Locator.find_library := fun _ => Some "/usr/lib/liboqs.so";
     Locator.curdir := ".";
     Locator.path_join := fun a b => a +:+ "/" +:+ b;
     Locator.path_exists := fun p => String.eqb p "/usr/lib/liboqs.so";
     Locator.windll_LoadLibrary := fun _ =>
       Raise (builtin_error AttributeError "windll");
     Locator.cdll_LoadLibrary := fun _ => Ok 9%Z |}.

(** A system without the library. *)
Definition bare : Locator.system Z :=
  {| Locator.platform_system := "Linux";
     Locator.environ := fun _ => None;
     Locator.find_library := fun _ => None;
     Locator.curdir := ".";
     Locator.path_join := fun a b => a +:+ "/" +:+ b;
     Locator.path_exists := fun _ => false;
     Locator.windll_LoadLibrary := fun _ =>
       Raise (builtin_error AttributeError "windll");
     Locator.cdll_LoadLibrary := fun _ => Ok 7%Z |}.

End Toy.

(** * Properties *)

(** ** Running the toy library *)

Example toy_kem_module_init :
  KEM.module_init Toy.kem Toy.ascii_codec (Toy.boot 0%Z)
  = (Ok Toy.kem_registry,
     {| native := 0%Z;
        trace := [ Call_KEM_alg_count;
                   Call_KEM_alg_identifier 0%Z; Call_KEM_alg_identifier 1%Z;
                   Call_KEM_alg_identifier 2%Z;
                   Call_KEM_new (list_byte_of_string "DEFAULT" ++ [x00]);
                   Call_KEM_free 16%Z;
                   Call_KEM_new (list_byte_of_string "Kyber512" ++ [x00]);
                   Call_KEM_free 32%Z;
                   Call_KEM_new (list_byte_of_string "BIKE1-L1" ++ [x00]) ] |}).
Proof. vm_compute. reflexivity. Qed.

Example toy_sig_module_init :
  fst (SIG.module_init Toy.sig Toy.ascii_codec (Toy.boot 0%Z))
  = Ok Toy.sig_registry.
Proof. vm_compute. reflexivity. Qed.

Example toy_kem_init :
  fst (KEM.__init__ Toy.kem Toy.ascii_codec Toy.kem_registry "Kyber512" None
         (Toy.boot 0%Z))
  = Ok Toy.kyber.
Proof. vm_compute. reflexivity. Qed.

Example toy_sig_init :
  fst (SIG.__init__ Toy.sig Toy.ascii_codec Toy.sig_registry "Dilithium2" None
         (Toy.boot 0%Z))
  = Ok Toy.dilithium.
Proof. vm_compute. reflexivity. Qed.

(** ** Exceptions *)

Lemma prefix_append (s t : string) : String.prefix s (s +:+ t) = true.
Proof.
  induction s as [|a s IH]; simpl.
  - now destruct t.
  - destruct (ascii_dec a a) as [_|Hne]; [exact IH | now destruct Hne].
Qed.

Lemma str_contains_append (s t : string) : str_contains s (s +:+ t) = true.
Proof.
  destruct s as [|a s]; simpl.
  - now destruct t.
  - destruct (ascii_dec a a) as [_|Hne]; [|now destruct Hne].
    now rewrite prefix_append.
Qed.

Lemma issubclass_refl (c : exc_class) : issubclass c c = true.
Proof. now destruct c. Qed.

Lemma issubclass_trans (c d e : exc_class) :
  issubclass c d = true -> issubclass d e = true -> issubclass c e = true.
Proof. destruct c, d; try discriminate; destruct e; trivial. Qed.

(** C9: [MechanismNotEnabledError] is declared with base
    [MechanismNotSupportedError], so it is a subclass of it and every
    [except] clause that handles a not-supported error handles a
    not-enabled error too; both constructors store the algorithm name in
    [alg_name] and a message that contains it in [message]. *)
Theorem C9_not_enabled_is_a_not_supported :
  base MechanismNotEnabledError = Some MechanismNotSupportedError /\
  issubclass MechanismNotEnabledError MechanismNotSupportedError = true /\
  (forall (c : exc_class) (n m : string),
     handles c (new_MechanismNotSupportedError n) = true ->
     handles c (new_MechanismNotEnabledError m) = true) /\
  (forall n : string,
     exc_alg_name (new_MechanismNotSupportedError n) = Some n /\
     exc_alg_name (new_MechanismNotEnabledError n) = Some n /\
     exc_message (new_MechanismNotSupportedError n)
       = Some (n +:+ " is not supported by OQS") /\
     exc_message (new_MechanismNotEnabledError n)
       = Some (n +:+ " is not supported but not enabled by OQS") /\
     str_contains n (n +:+ " is not supported by OQS") = true /\
     str_contains n (n +:+ " is not supported but not enabled by OQS")
       = true).
Proof.
  split; [reflexivity|]. split; [reflexivity|]. split.
  - intros c n m H. unfold handles in *. simpl in *.
    eapply issubclass_trans; [|exact H]. reflexivity.
  - intros n. repeat split; apply str_contains_append.
Qed.

Lemma C9_witness :
  handles Exception (new_MechanismNotEnabledError "BIKE1-L1") = true.
Proof.
  apply (proj1 (proj2 (proj2 C9_not_enabled_is_a_not_supported))
           Exception "BIKE1-L1" "BIKE1-L1").
  reflexivity.
Defined.

(** ** Running monadic code *)

Section monad_facts.
Context {N : Type}.

Lemma bind_Ok {A B} (m : M N A) (k : A -> M N B) w a w1 :
  m w = (Ok a, w1) -> bind m k w = k a w1.
Proof. intros H. unfold bind. now rewrite H. Qed.

Lemma bind_Raise {A B} (m : M N A) (k : A -> M N B) w e w1 :
  m w = (Raise e, w1) -> bind m k w = (Raise e, w1).
Proof. intros H. unfold bind. now rewrite H. Qed.

Lemma bind_Ok_inv {A B} (m : M N A) (k : A -> M N B) w b w' :
  bind m k w = (Ok b, w') ->
  exists a w1, m w = (Ok a, w1) /\ k a w1 = (Ok b, w').
Proof.
  unfold bind. destruct (m w) as [[a|e] w1]; [eauto | discriminate].
Qed.

Lemma contents_live {S} (read : pointer -> N -> S) p w :
  p <> NULL -> contents read p w = (Ok (read p (native w)), w).
Proof.
  intros Hp. unfold contents.
  destruct (Z.eqb_spec p NULL); [contradiction | reflexivity].
Qed.

Lemma contents_NULL {S} (read : pointer -> N -> S) w :
  contents read NULL w
  = (Raise (builtin_error ValueError "NULL pointer access"), w).
Proof. reflexivity. Qed.

Lemma list_comp_length {A B} (f : A -> M N B) xs w ys w' :
  list_comp f xs w = (Ok ys, w') -> length ys = length xs.
Proof.
  revert w ys w'. induction xs as [|x xs IH]; simpl; intros w ys w' H.
  - inversion H. reflexivity.
  - apply bind_Ok_inv in H as (y & w1 & _ & H).
    apply bind_Ok_inv in H as (ys' & w2 & Hys & H).
    inversion H; subst. simpl. f_equal. eauto.
Qed.

(** A comprehension with a condition keeps a subsequence of its input. *)
Lemma list_comp_if_sublist {A} (p : A -> M N bool) xs w ys w' :
  list_comp_if p xs w = (Ok ys, w') -> sublist ys xs.
Proof.
  revert w ys w'. induction xs as [|x xs IH]; simpl; intros w ys w' H.
  - inversion H. constructor.
  - apply bind_Ok_inv in H as (b & w1 & _ & H).
    apply bind_Ok_inv in H as (ys' & w2 & Hys & H).
    inversion H; subst. apply IH in Hys.
    destruct b; now constructor.
Qed.

(** The same comprehension as the tests run in order and the selection
    of the elements whose test was true. *)
Lemma list_comp_if_flags {A} (p : A -> M N bool) xs w ys w' :
  list_comp_if p xs w = (Ok ys, w') ->
  exists flags,
    list_comp p xs w = (Ok flags, w') /\
    ys = map fst (List.filter snd (combine xs flags)).
Proof.
  revert w ys w'. induction xs as [|x xs IH]; simpl; intros w ys w' H.
  - inversion H. exists []. split; reflexivity.
  - apply bind_Ok_inv in H as (b & w1 & Hb & H).
    apply bind_Ok_inv in H as (ys' & w2 & Hys & H).
    inversion H; subst. destruct (IH _ _ _ Hys) as (flags & Hf & ->).
    exists (b :: flags). split.
    + rewrite (bind_Ok _ _ _ _ _ Hb), (bind_Ok _ _ _ _ _ Hf). reflexivity.
    + simpl. now destruct b.
Qed.

(** When every test answers as a function [q] of the element alone, the
    comprehension is [filter q]. *)
Lemma list_comp_if_filter {A} (p : A -> M N bool) (q : A -> bool) xs w :
  (forall x w0, exists w1, p x w0 = (Ok (q x), w1)) ->
  exists w', list_comp_if p xs w = (Ok (List.filter q xs), w').
Proof.
  intros Hp. revert w. induction xs as [|x xs IH]; simpl; intros w.
  - eexists. reflexivity.
  - destruct (Hp x w) as [w1 H1]. destruct (IH w1) as [w2 H2].
    exists w2. rewrite (bind_Ok _ _ _ _ _ H1), (bind_Ok _ _ _ _ _ H2).
    unfold ret. now destruct (q x).
Qed.

Lemma list_comp_map {A B} (f : A -> M N B) (g : A -> B) xs w :
  (forall x w0, exists w1, f x w0 = (Ok (g x), w1)) ->
  exists w', list_comp f xs w = (Ok (map g xs), w').
Proof.
  intros Hf. revert w. induction xs as [|x xs IH]; simpl; intros w.
  - eexists. reflexivity.
  - destruct (Hf x w) as [w1 H1]. destruct (IH w1) as [w2 H2].
    exists w2. rewrite (bind_Ok _ _ _ _ _ H1), (bind_Ok _ _ _ _ _ H2).
    reflexivity.
Qed.

Lemma list_comp_decode (cd : codec) ids (w : world N) sup w' :
  list_comp (decode_c_char_p cd) ids w = (Ok sup, w') ->
  w' = w /\
  Forall2 (fun id s => exists b, id = Some b /\ decode cd b = Ok s) ids sup.
Proof.
  revert w sup w'. induction ids as [|id ids IH]; simpl; intros w sup w' H.
  - inversion H. split; [reflexivity | constructor].
  - apply bind_Ok_inv in H as (s & w1 & Hs & H).
    apply bind_Ok_inv in H as (ss & w2 & Hss & H).
    inversion H; subst.
    destruct id as [b|]; simpl in Hs; [|discriminate].
    unfold lift_result in Hs. inversion Hs; subst.
    destruct (IH _ _ _ Hss) as [-> HF]. split; [reflexivity|].
    constructor; eauto.
Qed.

End monad_facts.

(** ** The capability registry *)

Lemma sublist_In {A} (l1 l2 : list A) (x : A) :
  sublist l1 l2 -> In x l1 -> In x l2.
Proof.
  induction 1 as [|y l1 l2 _ IH|y l1 l2 _ IH]; simpl; intros Hx.
  - exact Hx.
  - destruct Hx as [->|Hx]; [now left | right; now apply IH].
  - right. now apply IH.
Qed.

Lemma Forall2_map_l {A B C} (P : B -> C -> Prop) (f : A -> B) xs zs :
  Forall2 P (map f xs) zs -> Forall2 (fun x z => P (f x) z) xs zs.
Proof.
  revert zs. induction xs as [|x xs IH]; simpl; intros zs H;
    inversion H; subst; constructor; auto.
Qed.

Lemma length_range (n : Z) : length (range n) = Z.to_nat n.
Proof. unfold range. now rewrite length_map, length_seq. Qed.

Lemma list_contains_In (x : string) (l : list string) :
  list_contains x l = true <-> In x l.
Proof.
  unfold list_contains. rewrite existsb_exists. split.
  - intros (y & Hy & Heq). apply String.eqb_eq in Heq. now subst.
  - intros Hx. exists x. split; [exact Hx | apply String.eqb_refl].
Qed.

Section kem_registry.
Context {N : Type} (liboqs : KEM.library N) (cd : codec).

(** The probe never raises: a NULL context makes [kem.contents] raise
    the [ValueError] that the [except] clause swallows. *)
Lemma is_KEM_enabled_run (alg_name : string) (w : world N) :
  let name := create_string_buffer_init (encode cd alg_name) in
  let kem := fst (KEM.OQS_KEM_new liboqs name (native w)) in
  let n1 := snd (KEM.OQS_KEM_new liboqs name (native w)) in
  KEM.is_KEM_enabled liboqs cd alg_name w
  = if (kem =? NULL)%Z
    then (Ok false,
          {| native := n1; trace := trace w ++ [Call_KEM_new name] |})
    else (Ok true,
          {| native := snd (KEM.OQS_KEM_free liboqs kem n1);
             trace := (trace w ++ [Call_KEM_new name])
                      ++ [Call_KEM_free kem] |}).
Proof.
  unfold KEM.is_KEM_enabled, try_except, bind, foreign, contents. simpl.
  destruct (KEM.OQS_KEM_new liboqs _ (native w)) as [kem n1]. simpl.
  destruct (kem =? NULL)%Z; simpl; [reflexivity|].
  destruct (KEM.OQS_KEM_free liboqs kem n1). reflexivity.
Qed.

Lemma KEM_alg_ids_length (w : world N) ids w1 :
  KEM._KEM_alg_ids liboqs w = (Ok ids, w1) ->
  length ids = Z.to_nat (fst (KEM.OQS_KEM_alg_count liboqs (native w))).
Proof.
  unfold KEM._KEM_alg_ids. intros H.
  apply bind_Ok_inv in H as (count & w0 & Hc & H).
  apply list_comp_length in H. rewrite H, length_range.
  unfold foreign in Hc.
  destruct (KEM.OQS_KEM_alg_count liboqs (native w)). now inversion Hc.
Qed.

Lemma KEM_alg_ids_table (identifier : Z -> option bytes) (w : world N)
    ids w1 :
  (forall i n, fst (KEM.OQS_KEM_alg_identifier liboqs i n) = identifier i) ->
  KEM._KEM_alg_ids liboqs w = (Ok ids, w1) ->
  ids = map identifier
          (range (fst (KEM.OQS_KEM_alg_count liboqs (native w)))).
Proof.
  intros Hid. unfold KEM._KEM_alg_ids. intros H.
  apply bind_Ok_inv in H as (count & w0 & Hc & H).
  assert (count = fst (KEM.OQS_KEM_alg_count liboqs (native w))) as <-.
  { unfold foreign in Hc.
    destruct (KEM.OQS_KEM_alg_count liboqs (native w)). now inversion Hc. }
  destruct (list_comp_map
              (fun i => foreign (Call_KEM_alg_identifier i)
                          (KEM.OQS_KEM_alg_identifier liboqs i))
              identifier (range count) w0) as [w2 H2].
  - intros i w3. unfold foreign. specialize (Hid i (native w3)).
    destruct (KEM.OQS_KEM_alg_identifier liboqs i (native w3)).
    simpl in Hid. subst. eauto.
  - rewrite H2 in H. now inversion H.
Qed.

Lemma KEM_enabled_filter (new : bytes -> pointer) supported (w : world N)
    enabled w' :
  (forall name n, fst (KEM.OQS_KEM_new liboqs name n) = new name) ->
  list_comp_if (KEM.is_KEM_enabled liboqs cd) supported w = (Ok enabled, w') ->
  enabled
  = List.filter
      (fun s =>
         negb (new (create_string_buffer_init (encode cd s)) =? NULL)%Z)
      supported.
Proof.
  intros Hnew H.
  destruct (list_comp_if_filter (KEM.is_KEM_enabled liboqs cd)
              (fun s =>
                 negb (new (create_string_buffer_init (encode cd s))
                       =? NULL)%Z)
              supported w) as [w2 H2].
  - intros s w0. rewrite is_KEM_enabled_run. simpl. rewrite Hnew.
    destruct (_ =? NULL)%Z; simpl; eauto.
  - rewrite H2 in H. now inversion H.
Qed.

End kem_registry.

Section sig_registry.
Context {N : Type} (liboqs : SIG.library N) (cd : codec).

Lemma is_sig_enabled_run (alg_name : string) (w : world N) :
  let name := create_string_buffer_init (encode cd alg_name) in
  let sig := fst (SIG.OQS_SIG_new liboqs name (native w)) in
  let n1 := snd (SIG.OQS_SIG_new liboqs name (native w)) in
  SIG.is_sig_enabled liboqs cd alg_name w
  = if (sig =? NULL)%Z
    then (Ok false,
          {| native := n1; trace := trace w ++ [Call_SIG_new name] |})
    else (Ok true,
          {| native := snd (SIG.OQS_SIG_free liboqs sig n1);
             trace := (trace w ++ [Call_SIG_new name])
                      ++ [Call_SIG_free sig] |}).
Proof.
  unfold SIG.is_sig_enabled, try_except, bind, foreign, contents. simpl.
  destruct (SIG.OQS_SIG_new liboqs _ (native w)) as [sig n1]. simpl.
  destruct (sig =? NULL)%Z; simpl; [reflexivity|].
  destruct (SIG.OQS_SIG_free liboqs sig n1). reflexivity.
Qed.

Lemma sig_alg_ids_length (w : world N) ids w1 :
  SIG._sig_alg_ids liboqs w = (Ok ids, w1) ->
  length ids = Z.to_nat (fst (SIG.OQS_SIG_alg_count liboqs (native w))).
Proof.
  unfold SIG._sig_alg_ids. intros H.
  apply bind_Ok_inv in H as (count & w0 & Hc & H).
  apply list_comp_length in H. rewrite H, length_range.
  unfold foreign in Hc.
  destruct (SIG.OQS_SIG_alg_count liboqs (native w)). now inversion Hc.
Qed.

Lemma sig_alg_ids_table (identifier : Z -> option bytes) (w : world N)
    ids w1 :
  (forall i n, fst (SIG.OQS_SIG_alg_identifier liboqs i n) = identifier i) ->
  SIG._sig_alg_ids liboqs w = (Ok ids, w1) ->
  ids = map identifier
          (range (fst (SIG.OQS_SIG_alg_count liboqs (native w)))).
Proof.
  intros Hid. unfold SIG._sig_alg_ids. intros H.
  apply bind_Ok_inv in H as (count & w0 & Hc & H).
  assert (count = fst (SIG.OQS_SIG_alg_count liboqs (native w))) as <-.
  { unfold foreign in Hc.
    destruct (SIG.OQS_SIG_alg_count liboqs (native w)). now inversion Hc. }
  destruct (list_comp_map
              (fun i => foreign (Call_SIG_alg_identifier i)
                          (SIG.OQS_SIG_alg_identifier liboqs i))
              identifier (range count) w0) as [w2 H2].
  - intros i w3. unfold foreign. specialize (Hid i (native w3)).
    destruct (SIG.OQS_SIG_alg_identifier liboqs i (native w3)).
    simpl in Hid. subst. eauto.
  - rewrite H2 in H. now inversion H.
Qed.

Lemma sig_enabled_filter (new : bytes -> pointer) supported (w : world N)
    enabled w' :
  (forall name n, fst (SIG.OQS_SIG_new liboqs name n) = new name) ->
  list_comp_if (SIG.is_sig_enabled liboqs cd) supported w = (Ok enabled, w') ->
  enabled
  = List.filter
      (fun s =>
         negb (new (create_string_buffer_init (encode cd s)) =? NULL)%Z)
      supported.
Proof.
  intros Hnew H.
  destruct (list_comp_if_filter (SIG.is_sig_enabled liboqs cd)
              (fun s =>
                 negb (new (create_string_buffer_init (encode cd s))
                       =? NULL)%Z)
              supported w) as [w2 H2].
  - intros s w0. rewrite is_sig_enabled_run. simpl. rewrite Hnew.
    destruct (_ =? NULL)%Z; simpl; eauto.
  - rewrite H2 in H. now inversion H.
Qed.

End sig_registry.

Lemma KEM_module_init_inv {N} (liboqs : KEM.library N) cd (w : world N)
    reg w' :
  KEM.module_init liboqs cd w = (Ok reg, w') ->
  exists ids w1,
    KEM._KEM_alg_ids liboqs w = (Ok ids, w1) /\
    list_comp (decode_c_char_p cd) ids w1
    = (Ok (KEM._supported_KEMs reg), w1) /\
    list_comp_if (KEM.is_KEM_enabled liboqs cd) (KEM._supported_KEMs reg) w1
    = (Ok (KEM._enabled_KEMs reg), w').
Proof.
  unfold KEM.module_init. intros H.
  apply bind_Ok_inv in H as (ids & w1 & Hids & H).
  apply bind_Ok_inv in H as (sup & w2 & Hsup & H).
  apply bind_Ok_inv in H as (en & w3 & Hen & H).
  inversion H; subst; simpl.
  destruct (list_comp_decode _ _ _ _ _ Hsup) as [-> _]. eauto.
Qed.

Lemma sig_module_init_inv {N} (liboqs : SIG.library N) cd (w : world N)
    reg w' :
  SIG.module_init liboqs cd w = (Ok reg, w') ->
  exists ids w1,
    SIG._sig_alg_ids liboqs w = (Ok ids, w1) /\
    list_comp (decode_c_char_p cd) ids w1
    = (Ok (SIG._supported_sigs reg), w1) /\
    list_comp_if (SIG.is_sig_enabled liboqs cd) (SIG._supported_sigs reg) w1
    = (Ok (SIG._enabled_sigs reg), w').
Proof.
  unfold SIG.module_init. intros H.
  apply bind_Ok_inv in H as (ids & w1 & Hids & H).
  apply bind_Ok_inv in H as (sup & w2 & Hsup & H).
  apply bind_Ok_inv in H as (en & w3 & Hen & H).
  inversion H; subst; simpl.
  destruct (list_comp_decode _ _ _ _ _ Hsup) as [-> _]. eauto.
Qed.

Lemma KEM_enabled_supported {N} (liboqs : KEM.library N) cd (w : world N)
    reg w' (n : string) :
  KEM.module_init liboqs cd w = (Ok reg, w') ->
  list_contains n (KEM._enabled_KEMs reg) = true ->
  list_contains n (KEM._supported_KEMs reg) = true.
Proof.
  intros H. apply KEM_module_init_inv in H as (ids & w1 & _ & _ & H).
  apply list_comp_if_sublist in H. rewrite !list_contains_In.
  now apply sublist_In.
Qed.

Lemma sig_enabled_supported {N} (liboqs : SIG.library N) cd (w : world N)
    reg w' (n : string) :
  SIG.module_init liboqs cd w = (Ok reg, w') ->
  list_contains n (SIG._enabled_sigs reg) = true ->
  list_contains n (SIG._supported_sigs reg) = true.
Proof.
  intros H. apply sig_module_init_inv in H as (ids & w1 & _ & _ & H).
  apply list_comp_if_sublist in H. rewrite !list_contains_In.
  now apply sublist_In.
Qed.

(** C6: in both families the enabled list is a subset and a subsequence
    of the supported list.  The supported list has one entry per index
    below the count that the library reports, the decoded identifier of
    that index, in index order; the enabled list keeps, in order, the
    supported names whose probe answered true, that is (for a library
    whose constructor answers by name) those for which the constructor
    returns a non-NULL context. *)
Theorem C6_enabled_is_subsequence_of_supported :
  forall N (kem : KEM.library N) (sig : SIG.library N) (cd : codec),
  (forall (w : world N) reg w',
     KEM.module_init kem cd w = (Ok reg, w') ->
     let supported := KEM._supported_KEMs reg in
     let enabled := KEM._enabled_KEMs reg in
     let count := fst (KEM.OQS_KEM_alg_count kem (native w)) in
     (forall n, In n enabled -> In n supported) /\
     sublist enabled supported /\
     length supported = Z.to_nat count /\
     (forall identifier,
        (forall i n, fst (KEM.OQS_KEM_alg_identifier kem i n) = identifier i) ->
        Forall2 (fun i s => exists b, identifier i = Some b /\
                                      decode cd b = Ok s)
                (range count) supported) /\
     (exists w1 flags,
        list_comp (KEM.is_KEM_enabled kem cd) supported w1 = (Ok flags, w') /\
        enabled = map fst (List.filter snd (combine supported flags))) /\
     (forall new,
        (forall name n, fst (KEM.OQS_KEM_new kem name n) = new name) ->
        enabled
        = List.filter
            (fun s =>
               negb (new (create_string_buffer_init (encode cd s)) =? NULL)%Z)
            supported)) /\
  (forall (w : world N) reg w',
     SIG.module_init sig cd w = (Ok reg, w') ->
     let supported := SIG._supported_sigs reg in
     let enabled := SIG._enabled_sigs reg in
     let count := fst (SIG.OQS_SIG_alg_count sig (native w)) in
     (forall n, In n enabled -> In n supported) /\
     sublist enabled supported /\
     length supported = Z.to_nat count /\
     (forall identifier,
        (forall i n, fst (SIG.OQS_SIG_alg_identifier sig i n) = identifier i) ->
        Forall2 (fun i s => exists b, identifier i = Some b /\
                                      decode cd b = Ok s)
                (range count) supported) /\
     (exists w1 flags,
        list_comp (SIG.is_sig_enabled sig cd) supported w1 = (Ok flags, w') /\
        enabled = map fst (List.filter snd (combine supported flags))) /\
     (forall new,
        (forall name n, fst (SIG.OQS_SIG_new sig name n) = new name) ->
        enabled
        = List.filter
            (fun s =>
               negb (new (create_string_buffer_init (encode cd s)) =? NULL)%Z)
            supported)).
Proof.
  intros N kem sig cd. split.
  - intros w reg w' H. simpl.
    destruct (KEM_module_init_inv _ _ _ _ _ H)
      as (ids & w1 & Hids & Hsup & Hen).
    pose proof (list_comp_if_sublist _ _ _ _ _ Hen) as Hsub.
    destruct (list_comp_decode _ _ _ _ _ Hsup) as [_ HF].
    repeat split.
    + intros n. now apply sublist_In.
    + exact Hsub.
    + rewrite <- (KEM_alg_ids_length _ _ _ _ Hids).
      symmetry. eapply Forall2_length. exact HF.
    + intros identifier Hid.
      rewrite (KEM_alg_ids_table _ identifier _ _ _ Hid Hids) in HF.
      now apply Forall2_map_l in HF.
    + destruct (list_comp_if_flags _ _ _ _ _ Hen) as (flags & Hf & Heq).
      eauto.
    + intros new Hnew. eapply KEM_enabled_filter; eauto.
  - intros w reg w' H. simpl.
    destruct (sig_module_init_inv _ _ _ _ _ H)
      as (ids & w1 & Hids & Hsup & Hen).
    pose proof (list_comp_if_sublist _ _ _ _ _ Hen) as Hsub.
    destruct (list_comp_decode _ _ _ _ _ Hsup) as [_ HF].
    repeat split.
    + intros n. now apply sublist_In.
    + exact Hsub.
    + rewrite <- (sig_alg_ids_length _ _ _ _ Hids).
      symmetry. eapply Forall2_length. exact HF.
    + intros identifier Hid.
      rewrite (sig_alg_ids_table _ identifier _ _ _ Hid Hids) in HF.
      now apply Forall2_map_l in HF.
    + destruct (list_comp_if_flags _ _ _ _ _ Hen) as (flags & Hf & Heq).
      eauto.
    + intros new Hnew. eapply sig_enabled_filter; eauto.
Qed.

Lemma C6_witness :
  sublist (KEM._enabled_KEMs Toy.kem_registry)
          (KEM._supported_KEMs Toy.kem_registry) /\
  KEM._enabled_KEMs Toy.kem_registry
  = List.filter
      (fun s =>
         negb (Toy.lookup_new Toy.kem_table
                 (string_of_list_byte
                    (Toy.c_str (create_string_buffer_init
                                  (encode Toy.ascii_codec s)))) 16
               =? NULL)%Z)
      (KEM._supported_KEMs Toy.kem_registry) /\
  sublist (SIG._enabled_sigs Toy.sig_registry)
          (SIG._supported_sigs Toy.sig_registry).
Proof.
  destruct (C6_enabled_is_subsequence_of_supported Z Toy.kem Toy.sig
              Toy.ascii_codec) as [HK HS].
  assert (KEM.module_init Toy.kem Toy.ascii_codec (Toy.boot 0%Z)
          = (Ok Toy.kem_registry,
             snd (KEM.module_init Toy.kem Toy.ascii_codec (Toy.boot 0%Z))))
    as H1 by (vm_compute; reflexivity).
  assert (SIG.module_init Toy.sig Toy.ascii_codec (Toy.boot 0%Z)
          = (Ok Toy.sig_registry,
             snd (SIG.module_init Toy.sig Toy.ascii_codec (Toy.boot 0%Z))))
    as H2 by (vm_compute; reflexivity).
  destruct (HK _ _ _ H1) as (_ & Hsub & _ & _ & _ & Hfilter).
  destruct (HS _ _ _ H2) as (_ & Hsub' & _).
  split; [exact Hsub|]. split; [|exact Hsub'].
  exact (Hfilter
           (fun name =>
              Toy.lookup_new Toy.kem_table
                (string_of_list_byte (Toy.c_str name)) 16%Z)
           (fun _ _ => eq_refl)).
Defined.

(** ** ctypes buffers *)

Lemma create_string_buffer_fits (init : bytes) (size : nat) :
  length init <= size ->
  create_string_buffer init size
  = Ok (init ++ repeat x00 (size - length init)).
Proof.
  intros H. unfold create_string_buffer.
  destruct (Nat.ltb_spec size (length init)); [lia | reflexivity].
Qed.

Lemma create_string_buffer_too_long (init : bytes) (size : nat) :
  size < length init ->
  create_string_buffer init size
  = Raise (builtin_error ValueError "byte string too long").
Proof.
  intros H. unfold create_string_buffer.
  destruct (Nat.ltb_spec size (length init)); [reflexivity | lia].
Qed.

Lemma create_string_buffer_exact (init : bytes) :
  create_string_buffer init (length init) = Ok init.
Proof.
  rewrite create_string_buffer_fits by lia.
  now rewrite Nat.sub_diag, app_nil_r.
Qed.

Lemma length_padded (init : bytes) (size : nat) :
  length init <= size ->
  length (init ++ repeat x00 (size - length init)) = size.
Proof. intros H. rewrite length_app, repeat_length. lia. Qed.

Lemma length_create_string_buffer_size (size : nat) :
  length (create_string_buffer_size size) = size.
Proof. apply repeat_length. Qed.

Lemma length_written (buf data : bytes) :
  length (written buf data) = length buf.
Proof.
  unfold written. rewrite length_take, length_app, length_drop. lia.
Qed.

Lemma written_full (buf data : bytes) :
  length data = length buf -> written buf data = data.
Proof.
  intros H. unfold written. rewrite <- H.
  rewrite drop_ge by lia. rewrite app_nil_r. apply firstn_all.
Qed.

(** ** Construction *)

Section kem_construction.
Context {N : Type} (liboqs : KEM.library N) (cd : codec) (reg : KEM.registry).

Lemma KEM_init_not_enabled (n : string) sk (w : world N) :
  list_contains n (KEM._enabled_KEMs reg) = false ->
  list_contains n (KEM._supported_KEMs reg) = true ->
  KEM.__init__ liboqs cd reg n sk w
  = (Raise (new_MechanismNotEnabledError n), w).
Proof.
  intros He Hs. unfold KEM.__init__. now rewrite He, Hs.
Qed.

Lemma KEM_init_not_supported (n : string) sk (w : world N) :
  list_contains n (KEM._enabled_KEMs reg) = false ->
  list_contains n (KEM._supported_KEMs reg) = false ->
  KEM.__init__ liboqs cd reg n sk w
  = (Raise (new_MechanismNotSupportedError n), w).
Proof.
  intros He Hs. unfold KEM.__init__. now rewrite He, Hs.
Qed.

(** Past the capability check: the constructor is called once, and the
    outcome is decided by the context it returns and by the length of the
    supplied key. *)
Lemma KEM_init_enabled (n : string) sk (w : world N) name version :
  let arg := create_string_buffer_init (encode cd n) in
  let kem := fst (KEM.OQS_KEM_new liboqs arg (native w)) in
  let w1 := {| native := snd (KEM.OQS_KEM_new liboqs arg (native w));
               trace := trace w ++ [Call_KEM_new arg] |} in
  let c := KEM.read_OQS_KEM liboqs kem (native w1) in
  list_contains n (KEM._enabled_KEMs reg) = true ->
  kem <> NULL ->
  decode_c_char_p cd (KEM.method_name c) w1 = (Ok name, w1) ->
  decode_c_char_p cd (KEM.alg_version c) w1 = (Ok version, w1) ->
  (forall k, sk = Some k -> length k <= KEM.length_secret_key c ->
     exists self,
       KEM.__init__ liboqs cd reg n sk w = (Ok self, w1) /\
       KEM.alg_name self = n /\ KEM._kem self = kem /\
       KEM.details self = KEM.details_dict c name version /\
       KEM.secret_key self
       = match k with
         | [] => None
         | _ => Some (k ++ repeat x00 (KEM.length_secret_key c - length k))
         end) /\
  (sk = None ->
     exists self,
       KEM.__init__ liboqs cd reg n sk w = (Ok self, w1) /\
       KEM.alg_name self = n /\ KEM._kem self = kem /\
       KEM.details self = KEM.details_dict c name version /\
       KEM.secret_key self = None) /\
  (forall k, sk = Some k -> KEM.length_secret_key c < length k ->
     KEM.__init__ liboqs cd reg n sk w
     = (Raise (builtin_error ValueError "byte string too long"), w1)).
Proof.
  intros arg kem w1 c He Hkem Hname Hver.
  assert (forall k,
            KEM.__init__ liboqs cd reg n k w
            = (let! name := decode_c_char_p cd (KEM.method_name c) in
               let! version := decode_c_char_p cd (KEM.alg_version c) in
               match k with
               | Some (b :: bs) =>
                   let! s := lift_result
                               (create_string_buffer (b :: bs)
                                  (KEM.length_secret_key c)) in
                   ret {| KEM.alg_name := n; KEM._kem := kem;
                          KEM.details := KEM.details_dict c name version;
                          KEM.secret_key := Some s |}
               | _ => ret {| KEM.alg_name := n; KEM._kem := kem;
                             KEM.details := KEM.details_dict c name version;
                             KEM.secret_key := None |}
               end) w1) as Hrun.
  { intros k. unfold KEM.__init__. rewrite He. simpl.
    unfold bind at 1. simpl. unfold bind at 1. unfold foreign.
    fold arg. destruct (KEM.OQS_KEM_new liboqs arg (native w)) as [p n1] eqn:E.
    simpl in kem, w1. fold w1.
    unfold bind at 1. rewrite (contents_live _ _ _ Hkem). reflexivity. }
  repeat split.
  - intros k -> Hk. rewrite Hrun.
    rewrite (bind_Ok _ _ _ _ _ Hname), (bind_Ok _ _ _ _ _ Hver).
    destruct k as [|b bs].
    + eexists. split; [reflexivity|]. repeat split.
    + unfold bind, lift_result.
      rewrite (create_string_buffer_fits _ _ Hk).
      eexists. split; [reflexivity|]. repeat split.
  - intros ->. rewrite Hrun.
    rewrite (bind_Ok _ _ _ _ _ Hname), (bind_Ok _ _ _ _ _ Hver).
    eexists. split; [reflexivity|]. repeat split.
  - intros k -> Hk. rewrite Hrun.
    rewrite (bind_Ok _ _ _ _ _ Hname), (bind_Ok _ _ _ _ _ Hver).
    destruct k as [|b bs]; [simpl in Hk; lia|].
    unfold bind, lift_result.
    now rewrite (create_string_buffer_too_long _ _ Hk).
Qed.

End kem_construction.

Section sig_construction.
Context {N : Type} (liboqs : SIG.library N) (cd : codec) (reg : SIG.registry).

Lemma SIG_init_not_enabled (n : string) sk (w : world N) :
  list_contains n (SIG._enabled_sigs reg) = false ->
  list_contains n (SIG._supported_sigs reg) = true ->
  SIG.__init__ liboqs cd reg n sk w
  = (Raise (new_MechanismNotEnabledError n), w).
Proof.
  intros He Hs. unfold SIG.__init__. now rewrite He, Hs.
Qed.

Lemma SIG_init_not_supported (n : string) sk (w : world N) :
  list_contains n (SIG._enabled_sigs reg) = false ->
  list_contains n (SIG._supported_sigs reg) = false ->
  SIG.__init__ liboqs cd reg n sk w
  = (Raise (new_MechanismNotSupportedError n), w).
Proof.
  intros He Hs. unfold SIG.__init__. now rewrite He, Hs.
Qed.

(** Past the capability check: the constructor is called once, and the
    outcome is decided by the context it returns and by the length of the
    supplied key. *)
Lemma SIG_init_enabled (n : string) sk (w : world N) name version :
  let arg := create_string_buffer_init (encode cd n) in
  let sig := fst (SIG.OQS_SIG_new liboqs arg (native w)) in
  let w1 := {| native := snd (SIG.OQS_SIG_new liboqs arg (native w));
               trace := trace w ++ [Call_SIG_new arg] |} in
  let c := SIG.read_OQS_SIG liboqs sig (native w1) in
  list_contains n (SIG._enabled_sigs reg) = true ->
  sig <> NULL ->
  decode_c_char_p cd (SIG.method_name c) w1 = (Ok name, w1) ->
  decode_c_char_p cd (SIG.alg_version c) w1 = (Ok version, w1) ->
  (forall k, sk = Some k -> length k <= SIG.length_secret_key c ->
     exists self,
       SIG.__init__ liboqs cd reg n sk w = (Ok self, w1) /\
       SIG._sig self = sig /\
       SIG.details self = SIG.details_dict c name version /\
       SIG.secret_key self
       = match k with
         | [] => None
         | _ => Some (k ++ repeat x00 (SIG.length_secret_key c - length k))
         end) /\
  (sk = None ->
     exists self,
       SIG.__init__ liboqs cd reg n sk w = (Ok self, w1) /\
       SIG._sig self = sig /\
       SIG.details self = SIG.details_dict c name version /\
       SIG.secret_key self = None) /\
  (forall k, sk = Some k -> SIG.length_secret_key c < length k ->
     SIG.__init__ liboqs cd reg n sk w
     = (Raise (builtin_error ValueError "byte string too long"), w1)).
Proof.
  intros arg sig w1 c He Hsig Hname Hver.
  assert (forall k,
            SIG.__init__ liboqs cd reg n k w
            = (let! name := decode_c_char_p cd (SIG.method_name c) in
               let! version := decode_c_char_p cd (SIG.alg_version c) in
               match k with
               | Some (b :: bs) =>
                   let! s := lift_result
                               (create_string_buffer (b :: bs)
                                  (SIG.length_secret_key c)) in
                   ret {| SIG._sig := sig;
                          SIG.details := SIG.details_dict c name version;
                          SIG.secret_key := Some s |}
               | _ => ret {| SIG._sig := sig;
                             SIG.details := SIG.details_dict c name version;
                             SIG.secret_key := None |}
               end) w1) as Hrun.
  { intros k. unfold SIG.__init__. rewrite He. simpl.
    unfold bind at 1. simpl. unfold bind at 1. unfold foreign.
    fold arg. destruct (SIG.OQS_SIG_new liboqs arg (native w)) as [p n1] eqn:E.
    simpl in sig, w1. fold w1.
    unfold bind at 1. rewrite (contents_live _ _ _ Hsig). reflexivity. }
  repeat split.
  - intros k -> Hk. rewrite Hrun.
    rewrite (bind_Ok _ _ _ _ _ Hname), (bind_Ok _ _ _ _ _ Hver).
    destruct k as [|b bs].
    + eexists. split; [reflexivity|]. repeat split.
    + unfold bind, lift_result.
      rewrite (create_string_buffer_fits _ _ Hk).
      eexists. split; [reflexivity|]. repeat split.
  - intros ->. rewrite Hrun.
    rewrite (bind_Ok _ _ _ _ _ Hname), (bind_Ok _ _ _ _ _ Hver).
    eexists. split; [reflexivity|]. repeat split.
  - intros k -> Hk. rewrite Hrun.
    rewrite (bind_Ok _ _ _ _ _ Hname), (bind_Ok _ _ _ _ _ Hver).
    destruct k as [|b bs]; [simpl in Hk; lia|].
    unfold bind, lift_result.
    now rewrite (create_string_buffer_too_long _ _ Hk).
Qed.

End sig_construction.
Lemma list_contains_not_In (x : string) (l : list string) :
  ~ In x l -> list_contains x l = false.
Proof.
  intros H. destruct (list_contains x l) eqn:E; [|reflexivity].
  apply list_contains_In in E. contradiction.
Qed.

Lemma decode_c_char_p_Some {N} (cd : codec) field b s (w : world N) :
  field = Some b -> decode cd b = Ok s ->
  decode_c_char_p cd field w = (Ok s, w).
Proof. intros -> H. simpl. unfold lift_result. now rewrite H. Qed.

(** C1, as the code has it: a name that is not enabled is refused before
    any foreign call, with [MechanismNotEnabledError] when it is supported
    and with [MechanismNotSupportedError] when it is not, each carrying
    the name.  An enabled name passes the check; construction then
    succeeds when the constructor returns a context with a name and a
    version and the supplied secret key, if any, is at most
    [length_secret_key] bytes long, and raises [ValueError] when the key
    is longer. *)
Theorem C1_construction_checks_the_capability_lists :
  forall N (kem : KEM.library N) (sig : SIG.library N) (cd : codec),
  (forall (w0 : world N) reg w1,
     KEM.module_init kem cd w0 = (Ok reg, w1) ->
     forall (n : string) (sk : option bytes) (w : world N),
     let arg := create_string_buffer_init (encode cd n) in
     let new := KEM.OQS_KEM_new kem arg (native w) in
     let c := KEM.read_OQS_KEM kem (fst new) (snd new) in
     (In n (KEM._enabled_KEMs reg) ->
      fst new <> NULL ->
      (exists b s, KEM.method_name c = Some b /\ decode cd b = Ok s) ->
      (exists b s, KEM.alg_version c = Some b /\ decode cd b = Ok s) ->
      (forall k, sk = Some k -> length k <= KEM.length_secret_key c) ->
      exists self w',
        KEM.__init__ kem cd reg n sk w = (Ok self, w') /\
        KEM.alg_name self = n /\ KEM._kem self = fst new /\
        trace w' = trace w ++ [Call_KEM_new arg]) /\
     (In n (KEM._enabled_KEMs reg) ->
      fst new <> NULL ->
      (exists b s, KEM.method_name c = Some b /\ decode cd b = Ok s) ->
      (exists b s, KEM.alg_version c = Some b /\ decode cd b = Ok s) ->
      forall k, sk = Some k -> KEM.length_secret_key c < length k ->
      fst (KEM.__init__ kem cd reg n sk w)
      = Raise (builtin_error ValueError "byte string too long")) /\
     (~ In n (KEM._enabled_KEMs reg) -> In n (KEM._supported_KEMs reg) ->
      KEM.__init__ kem cd reg n sk w
      = (Raise (new_MechanismNotEnabledError n), w) /\
      exc_type (new_MechanismNotEnabledError n)
      <> MechanismNotSupportedError /\
      exc_alg_name (new_MechanismNotEnabledError n) = Some n) /\
     (~ In n (KEM._supported_KEMs reg) ->
      KEM.__init__ kem cd reg n sk w
      = (Raise (new_MechanismNotSupportedError n), w) /\
      exc_type (new_MechanismNotSupportedError n)
      = MechanismNotSupportedError /\
      exc_alg_name (new_MechanismNotSupportedError n) = Some n)) /\
  (forall (w0 : world N) reg w1,
     SIG.module_init sig cd w0 = (Ok reg, w1) ->
     forall (n : string) (sk : option bytes) (w : world N),
     let arg := create_string_buffer_init (encode cd n) in
     let new := SIG.OQS_SIG_new sig arg (native w) in
     let c := SIG.read_OQS_SIG sig (fst new) (snd new) in
     (In n (SIG._enabled_sigs reg) ->
      fst new <> NULL ->
      (exists b s, SIG.method_name c = Some b /\ decode cd b = Ok s) ->
      (exists b s, SIG.alg_version c = Some b /\ decode cd b = Ok s) ->
      (forall k, sk = Some k -> length k <= SIG.length_secret_key c) ->
      exists self w',
        SIG.__init__ sig cd reg n sk w = (Ok self, w') /\
        SIG._sig self = fst new /\
        trace w' = trace w ++ [Call_SIG_new arg]) /\
     (In n (SIG._enabled_sigs reg) ->
      fst new <> NULL ->
      (exists b s, SIG.method_name c = Some b /\ decode cd b = Ok s) ->
      (exists b s, SIG.alg_version c = Some b /\ decode cd b = Ok s) ->
      forall k, sk = Some k -> SIG.length_secret_key c < length k ->
      fst (SIG.__init__ sig cd reg n sk w)
      = Raise (builtin_error ValueError "byte string too long")) /\
     (~ In n (SIG._enabled_sigs reg) -> In n (SIG._supported_sigs reg) ->
      SIG.__init__ sig cd reg n sk w
      = (Raise (new_MechanismNotEnabledError n), w) /\
      exc_type (new_MechanismNotEnabledError n)
      <> MechanismNotSupportedError /\
      exc_alg_name (new_MechanismNotEnabledError n) = Some n) /\
     (~ In n (SIG._supported_sigs reg) ->
      SIG.__init__ sig cd reg n sk w
      = (Raise (new_MechanismNotSupportedError n), w) /\
      exc_type (new_MechanismNotSupportedError n)
      = MechanismNotSupportedError /\
      exc_alg_name (new_MechanismNotSupportedError n) = Some n)).
Proof.
  intros N kem sig cd. split.
  - intros w0 reg w1 Hreg n sk w arg new c. repeat split.
    + intros He Hp (bn & name & Hbn & Hname) (bv & ver & Hbv & Hver) Hk.
      apply list_contains_In in He.
      destruct (KEM_init_enabled kem cd reg n sk w name ver He Hp
                  (decode_c_char_p_Some _ _ _ _ _ Hbn Hname)
                  (decode_c_char_p_Some _ _ _ _ _ Hbv Hver))
        as (Hsome & Hnone & _).
      destruct sk as [k|].
      * destruct (Hsome k eq_refl (Hk k eq_refl)) as (self & H & Ha & Hs & _).
        exists self. eexists. split; [exact H|]. repeat split; assumption.
      * destruct (Hnone eq_refl) as (self & H & Ha & Hs & _).
        exists self. eexists. split; [exact H|]. repeat split; assumption.
    + intros He Hp (bn & name & Hbn & Hname) (bv & ver & Hbv & Hver) k -> Hk.
      apply list_contains_In in He.
      destruct (KEM_init_enabled kem cd reg n (Some k) w name ver He Hp
                  (decode_c_char_p_Some _ _ _ _ _ Hbn Hname)
                  (decode_c_char_p_Some _ _ _ _ _ Hbv Hver))
        as (_ & _ & Hlong).
      now rewrite (Hlong k eq_refl Hk).
    + apply KEM_init_not_enabled.
      * now apply list_contains_not_In.
      * now apply list_contains_In.
    + discriminate.
    + apply KEM_init_not_supported.
      * destruct (list_contains n (KEM._enabled_KEMs reg)) eqn:E;
          [|reflexivity].
        apply (KEM_enabled_supported _ _ _ _ _ _ Hreg) in E.
        apply list_contains_In in E. contradiction.
      * now apply list_contains_not_In.
  - intros w0 reg w1 Hreg n sk w arg new c. repeat split.
    + intros He Hp (bn & name & Hbn & Hname) (bv & ver & Hbv & Hver) Hk.
      apply list_contains_In in He.
      destruct (SIG_init_enabled sig cd reg n sk w name ver He Hp
                  (decode_c_char_p_Some _ _ _ _ _ Hbn Hname)
                  (decode_c_char_p_Some _ _ _ _ _ Hbv Hver))
        as (Hsome & Hnone & _).
      destruct sk as [k|].
      * destruct (Hsome k eq_refl (Hk k eq_refl)) as (self & H & Hs & _).
        exists self. eexists. split; [exact H|]. repeat split; assumption.
      * destruct (Hnone eq_refl) as (self & H & Hs & _).
        exists self. eexists. split; [exact H|]. repeat split; assumption.
    + intros He Hp (bn & name & Hbn & Hname) (bv & ver & Hbv & Hver) k -> Hk.
      apply list_contains_In in He.
      destruct (SIG_init_enabled sig cd reg n (Some k) w name ver He Hp
                  (decode_c_char_p_Some _ _ _ _ _ Hbn Hname)
                  (decode_c_char_p_Some _ _ _ _ _ Hbv Hver))
        as (_ & _ & Hlong).
      now rewrite (Hlong k eq_refl Hk).
    + apply SIG_init_not_enabled.
      * now apply list_contains_not_In.
      * now apply list_contains_In.
    + discriminate.
    + apply SIG_init_not_supported.
      * destruct (list_contains n (SIG._enabled_sigs reg)) eqn:E;
          [|reflexivity].
        apply (sig_enabled_supported _ _ _ _ _ _ Hreg) in E.
        apply list_contains_In in E. contradiction.
      * now apply list_contains_not_In.
Qed.

Lemma C1_witness :
  (exists self w',
     KEM.__init__ Toy.kem Toy.ascii_codec Toy.kem_registry "Kyber512"
       (Some [x0a; x0b; x0c]) (Toy.boot 0%Z) = (Ok self, w') /\
     KEM.alg_name self = "Kyber512" /\ KEM._kem self = 32%Z /\
     trace w' = [Call_KEM_new (list_byte_of_string "Kyber512" ++ [x00])]) /\
  fst (KEM.__init__ Toy.kem Toy.ascii_codec Toy.kem_registry "Kyber512"
         (Some [x01; x02; x03; x04; x05; x06; x07]) (Toy.boot 0%Z))
  = Raise (builtin_error ValueError "byte string too long") /\
  KEM.__init__ Toy.kem Toy.ascii_codec Toy.kem_registry "BIKE1-L1" None
    (Toy.boot 0%Z)
  = (Raise (new_MechanismNotEnabledError "BIKE1-L1"), Toy.boot 0) /\
  KEM.__init__ Toy.kem Toy.ascii_codec Toy.kem_registry "ROT13" None
    (Toy.boot 0%Z)
  = (Raise (new_MechanismNotSupportedError "ROT13"), Toy.boot 0) /\
  SIG.__init__ Toy.sig Toy.ascii_codec Toy.sig_registry "qTESLA-I" None
    (Toy.boot 0%Z)
  = (Raise (new_MechanismNotEnabledError "qTESLA-I"), Toy.boot 0).
Proof.
  destruct (C1_construction_checks_the_capability_lists Z Toy.kem Toy.sig
              Toy.ascii_codec) as [HK HS].
  assert (KEM.module_init Toy.kem Toy.ascii_codec (Toy.boot 0%Z)
          = (Ok Toy.kem_registry,
             snd (KEM.module_init Toy.kem Toy.ascii_codec (Toy.boot 0%Z))))
    as H1 by (vm_compute; reflexivity).
  assert (SIG.module_init Toy.sig Toy.ascii_codec (Toy.boot 0%Z)
          = (Ok Toy.sig_registry,
             snd (SIG.module_init Toy.sig Toy.ascii_codec (Toy.boot 0%Z))))
    as H2 by (vm_compute; reflexivity).
  split; [|split; [|split; [|split]]].
  - destruct (HK _ _ _ H1 "Kyber512" (Some [x0a; x0b; x0c]) (Toy.boot 0%Z))
      as (Hok & _).
    apply Hok.
    + simpl. auto.
    + vm_compute. discriminate.
    + exists (list_byte_of_string "Kyber512"), "Kyber512".
      split; reflexivity.
    + exists (list_byte_of_string "r1"), "r1". split; reflexivity.
    + intros k Hk. inversion Hk. vm_compute. lia.
  - destruct (HK _ _ _ H1 "Kyber512"
                (Some [x01; x02; x03; x04; x05; x06; x07]) (Toy.boot 0%Z))
      as (_ & Hlong & _).
    apply (Hlong ltac:(simpl; auto) ltac:(vm_compute; discriminate)
             ltac:(exists (list_byte_of_string "Kyber512"), "Kyber512";
                   split; reflexivity)
             ltac:(exists (list_byte_of_string "r1"), "r1";
                   split; reflexivity)
             _ eq_refl).
    vm_compute. lia.
  - destruct (HK _ _ _ H1 "BIKE1-L1" None (Toy.boot 0%Z))
      as (_ & _ & Hne & _).
    apply Hne.
    + simpl. intros [H|[H|H]]; try discriminate; exact H.
    + simpl. auto.
  - destruct (HK _ _ _ H1 "ROT13" None (Toy.boot 0%Z)) as (_ & _ & _ & Hns).
    apply Hns.
    simpl. intros [H|[H|[H|H]]]; try discriminate; exact H.
  - destruct (HS _ _ _ H2 "qTESLA-I" None (Toy.boot 0%Z))
      as (_ & _ & Hne & _).
    apply Hne.
    + simpl. intros [H|H]; try discriminate; exact H.
    + simpl. auto.
Defined.

(** C1 as stated fails: ["Kyber512"] is enabled, yet construction with a
    seven-byte secret key, one byte more than [length_secret_key], does
    not succeed; it raises [ValueError]. *)
Lemma C1_counterexample :
  KEM.module_init Toy.kem Toy.ascii_codec (Toy.boot 0%Z)
  = (Ok Toy.kem_registry,
     snd (KEM.module_init Toy.kem Toy.ascii_codec (Toy.boot 0%Z))) /\
  In "Kyber512" (KEM._enabled_KEMs Toy.kem_registry) /\
  fst (KEM.__init__ Toy.kem Toy.ascii_codec Toy.kem_registry "Kyber512"
         (Some [x01; x02; x03; x04; x05; x06; x07]) (Toy.boot 0%Z))
  = Raise (builtin_error ValueError "byte string too long") /\
  ~ (In "Kyber512" (KEM._enabled_KEMs Toy.kem_registry) ->
     exists self w',
       KEM.__init__ Toy.kem Toy.ascii_codec Toy.kem_registry "Kyber512"
         (Some [x01; x02; x03; x04; x05; x06; x07]) (Toy.boot 0%Z)
       = (Ok self, w')).
Proof.
  split; [vm_compute; reflexivity|].
  split; [simpl; auto|].
  split; [vm_compute; reflexivity|].
  intros H. destruct H as (self & w' & H); [simpl; auto|].
  vm_compute in H. discriminate.
Qed.

(** ** The operations of a KEM handle *)

Section kem_operations.
Context {N : Type} (liboqs : KEM.library N).
Variables (self : KEM.OQS_KEM) (w : world N).
Hypothesis live : KEM._kem self <> NULL.

Let kem := KEM._kem self.
Let c := KEM.read_OQS_KEM liboqs kem (native w).

Lemma KEM_generate_keypair_buffers_run :
  KEM.generate_keypair_buffers liboqs self w
  = (Ok (create_string_buffer_size (KEM.length_public_key c),
         KEM.set_secret_key self
           (create_string_buffer_size (KEM.length_secret_key c))),
     w).
Proof.
  unfold KEM.generate_keypair_buffers.
  rewrite (bind_Ok _ _ _ _ _ (contents_live _ _ w live)).
  rewrite (bind_Ok _ _ _ _ _ (contents_live _ _ w live)).
  reflexivity.
Qed.

Lemma KEM_generate_keypair_run :
  let pk0 := create_string_buffer_size (KEM.length_public_key c) in
  let sk0 := create_string_buffer_size (KEM.length_secret_key c) in
  let out := KEM.OQS_KEM_keypair liboqs kem pk0 sk0 (native w) in
  let rv := fst (fst (fst out)) in
  let pk := snd (fst (fst out)) in
  let sk := snd (fst out) in
  KEM.generate_keypair liboqs self w
  = (Ok (if (rv =? _OQS_SUCCESS)%Z then PyBytes (written pk0 pk)
         else PyInt 0,
         KEM.set_secret_key self (written sk0 sk)),
     {| native := snd out;
        trace := trace w ++ [Call_KEM_keypair kem pk0 sk0] |}).
Proof.
  intros pk0 sk0 out rv pk sk. unfold KEM.generate_keypair.
  rewrite (bind_Ok _ _ _ _ _ KEM_generate_keypair_buffers_run).
  unfold KEM.generate_keypair_call, bind, foreign, ret. simpl.
  fold kem c pk0 sk0. subst rv pk sk out.
  destruct (KEM.OQS_KEM_keypair liboqs kem pk0 sk0 (native w))
    as [[[rv pk] sk] n1].
  reflexivity.
Qed.

Lemma KEM_encap_secret_run (public_key : bytes) :
  length public_key <= KEM.length_public_key c ->
  let my_public_key :=
    public_key
    ++ repeat x00 (KEM.length_public_key c - length public_key) in
  let ct0 := create_string_buffer_size (KEM.length_ciphertext c) in
  let ss0 := create_string_buffer_size (KEM.length_shared_secret c) in
  let out := KEM.OQS_KEM_encaps liboqs kem ct0 ss0 my_public_key (native w) in
  let rv := fst (fst (fst out)) in
  let ct := snd (fst (fst out)) in
  let ss := snd (fst out) in
  KEM.encap_secret liboqs self public_key w
  = (Ok (written ct0 ct,
         if (rv =? _OQS_SUCCESS)%Z then PyBytes (written ss0 ss)
         else PyInt 0),
     {| native := snd out;
        trace := trace w ++ [Call_KEM_encaps kem ct0 ss0 my_public_key] |}).
Proof.
  intros Hlen my_public_key ct0 ss0 out rv ct ss. unfold KEM.encap_secret.
  rewrite (bind_Ok _ _ _ _ _ (contents_live _ _ w live)).
  unfold bind at 1, lift_result. fold kem c.
  rewrite (create_string_buffer_fits _ _ Hlen). fold my_public_key.
  rewrite (bind_Ok _ _ _ _ _ (contents_live _ _ w live)).
  rewrite (bind_Ok _ _ _ _ _ (contents_live _ _ w live)).
  unfold bind, foreign, ret. fold kem c ct0 ss0. subst rv ct ss out.
  destruct (KEM.OQS_KEM_encaps liboqs kem ct0 ss0 my_public_key (native w))
    as [[[rv ct] ss] n1].
  reflexivity.
Qed.

Lemma KEM_encap_secret_too_long (public_key : bytes) :
  KEM.length_public_key c < length public_key ->
  KEM.encap_secret liboqs self public_key w
  = (Raise (builtin_error ValueError "byte string too long"), w).
Proof.
  intros Hlen. unfold KEM.encap_secret.
  rewrite (bind_Ok _ _ _ _ _ (contents_live _ _ w live)).
  unfold bind at 1, lift_result. fold kem c.
  now rewrite (create_string_buffer_too_long _ _ Hlen).
Qed.

Lemma KEM_decap_secret_run (ciphertext secret_key : bytes) :
  KEM.secret_key self = Some secret_key ->
  length ciphertext <= KEM.length_ciphertext c ->
  let my_ciphertext :=
    ciphertext ++ repeat x00 (KEM.length_ciphertext c - length ciphertext) in
  let ss0 := create_string_buffer_size (KEM.length_shared_secret c) in
  let out :=
    KEM.OQS_KEM_decaps liboqs kem ss0 my_ciphertext secret_key (native w) in
  KEM.decap_secret liboqs self ciphertext w
  = (Ok (if (fst (fst out) =? _OQS_SUCCESS)%Z
         then PyBytes (written ss0 (snd (fst out))) else PyInt 0),
     {| native := snd out;
        trace := trace w
                 ++ [Call_KEM_decaps kem ss0 my_ciphertext secret_key] |}).
Proof.
  intros Hsk Hlen my_ciphertext ss0 out. unfold KEM.decap_secret.
  rewrite (bind_Ok _ _ _ _ _ (contents_live _ _ w live)).
  unfold bind at 1, lift_result. fold kem c.
  rewrite (create_string_buffer_fits _ _ Hlen). fold my_ciphertext.
  rewrite (bind_Ok _ _ _ _ _ (contents_live _ _ w live)).
  unfold KEM.get_secret_key. rewrite Hsk.
  unfold bind, foreign, ret. fold kem c ss0. subst out.
  destruct (KEM.OQS_KEM_decaps liboqs kem ss0 my_ciphertext secret_key
              (native w)) as [[rv ss] n1].
  reflexivity.
Qed.

End kem_operations.

Lemma KEM_free_run {N} (liboqs : KEM.library N) (self : KEM.OQS_KEM)
    (w : world N) :
  KEM.free liboqs self w
  = (Ok tt,
     {| native := snd (KEM.OQS_KEM_free liboqs (KEM._kem self) (native w));
        trace := trace w ++ [Call_KEM_free (KEM._kem self)] |}).
Proof.
  unfold KEM.free, foreign.
  destruct (KEM.OQS_KEM_free liboqs (KEM._kem self) (native w)) as [[] n1].
  reflexivity.
Qed.

Lemma KEM_export_secret_key_run {N} (self : KEM.OQS_KEM) (w : world N) :
  KEM.export_secret_key (N:=N) self w
  = match KEM.secret_key self with
    | Some sk => (Ok sk, w)
    | None =>
        (Raise (builtin_error AttributeError
                  "'OQS_KEM' object has no attribute 'secret_key'"), w)
    end.
Proof.
  unfold KEM.export_secret_key, KEM.get_secret_key.
  now destruct (KEM.secret_key self).
Qed.

(** ** The operations of a signature handle *)

Section sig_operations.
Context {N : Type} (liboqs : SIG.library N).
Variables (self : SIG.OQS_SIG) (w : world N).
Hypothesis live : SIG._sig self <> NULL.

Let sig := SIG._sig self.
Let c := SIG.read_OQS_SIG liboqs sig (native w).

Lemma SIG_generate_keypair_buffers_run :
  SIG.generate_keypair_buffers liboqs self w
  = (Ok (create_string_buffer_size (SIG.length_public_key c),
         SIG.set_secret_key self
           (create_string_buffer_size (SIG.length_secret_key c))),
     w).
Proof.
  unfold SIG.generate_keypair_buffers.
  rewrite (bind_Ok _ _ _ _ _ (contents_live _ _ w live)).
  rewrite (bind_Ok _ _ _ _ _ (contents_live _ _ w live)).
  reflexivity.
Qed.

Lemma SIG_generate_keypair_run :
  let pk0 := create_string_buffer_size (SIG.length_public_key c) in
  let sk0 := create_string_buffer_size (SIG.length_secret_key c) in
  let out := SIG.OQS_SIG_keypair liboqs sig pk0 sk0 (native w) in
  let rv := fst (fst (fst out)) in
  let pk := snd (fst (fst out)) in
  let sk := snd (fst out) in
  SIG.generate_keypair liboqs self w
  = (Ok (if (rv =? _OQS_SUCCESS)%Z then PyBytes (written pk0 pk)
         else PyInt 0,
         SIG.set_secret_key self (written sk0 sk)),
     {| native := snd out;
        trace := trace w ++ [Call_SIG_keypair sig pk0 sk0] |}).
Proof.
  intros pk0 sk0 out rv pk sk. unfold SIG.generate_keypair.
  rewrite (bind_Ok _ _ _ _ _ SIG_generate_keypair_buffers_run).
  unfold SIG.generate_keypair_call, bind, foreign, ret. simpl.
  fold sig c pk0 sk0. subst rv pk sk out.
  destruct (SIG.OQS_SIG_keypair liboqs sig pk0 sk0 (native w))
    as [[[rv pk] sk] n1].
  reflexivity.
Qed.

Lemma SIG_sign_run (message secret_key : bytes) :
  SIG.secret_key self = Some secret_key ->
  let message_len := c_int (Z.of_nat (length message)) in
  let sig0 := create_string_buffer_size (SIG.length_signature c) in
  let out :=
    SIG.OQS_SIG_sign liboqs sig sig0 (c_int 0) message message_len
      secret_key (native w) in
  let rv := fst (fst (fst out)) in
  let sg := snd (fst (fst out)) in
  let n := snd (fst out) in
  SIG.sign liboqs self message w
  = (Ok (if (rv =? _OQS_SUCCESS)%Z
         then PyBytes (slice_to (written sig0 sg) (c_int n)) else PyInt 0),
     {| native := snd out;
        trace := trace w
                 ++ [Call_SIG_sign sig sig0 (c_int 0) message message_len
                       secret_key] |}).
Proof.
  intros Hsk message_len sig0 out rv sg n. unfold SIG.sign.
  unfold bind at 1, lift_result. rewrite create_string_buffer_exact.
  rewrite (bind_Ok _ _ _ _ _ (contents_live _ _ w live)).
  unfold SIG.get_secret_key. rewrite Hsk.
  unfold bind, foreign, ret. fold sig c sig0 message_len.
  subst rv sg n out.
  destruct (SIG.OQS_SIG_sign liboqs sig sig0 (c_int 0) message message_len
              secret_key (native w)) as [[[rv sg] n] n1].
  reflexivity.
Qed.

Lemma SIG_verify_run (message signature public_key : bytes) :
  length public_key <= SIG.length_public_key c ->
  let message_len := c_int (Z.of_nat (length message)) in
  let sig_len := c_int (Z.of_nat (length signature)) in
  let my_public_key :=
    public_key
    ++ repeat x00 (SIG.length_public_key c - length public_key) in
  let out :=
    SIG.OQS_SIG_verify liboqs sig message message_len signature sig_len
      my_public_key (native w) in
  SIG.verify liboqs self message signature public_key w
  = (Ok (fst out =? _OQS_SUCCESS)%Z,
     {| native := snd out;
        trace := trace w
                 ++ [Call_SIG_verify sig message message_len signature
                       sig_len my_public_key] |}).
Proof.
  intros Hlen message_len sig_len my_public_key out. unfold SIG.verify.
  unfold bind at 1, lift_result. rewrite create_string_buffer_exact.
  unfold bind at 1. rewrite create_string_buffer_exact.
  rewrite (bind_Ok _ _ _ _ _ (contents_live _ _ w live)).
  unfold bind at 1. fold sig c.
  rewrite (create_string_buffer_fits _ _ Hlen). fold my_public_key.
  unfold bind, foreign, ret. fold message_len sig_len. subst out.
  destruct (SIG.OQS_SIG_verify liboqs sig message message_len signature
              sig_len my_public_key (native w)) as [rv n1].
  simpl. now destruct (rv =? _OQS_SUCCESS)%Z.
Qed.

Lemma SIG_verify_too_long (message signature public_key : bytes) :
  SIG.length_public_key c < length public_key ->
  SIG.verify liboqs self message signature public_key w
  = (Raise (builtin_error ValueError "byte string too long"), w).
Proof.
  intros Hlen. unfold SIG.verify.
  unfold bind at 1, lift_result. rewrite create_string_buffer_exact.
  unfold bind at 1. rewrite create_string_buffer_exact.
  rewrite (bind_Ok _ _ _ _ _ (contents_live _ _ w live)).
  unfold bind at 1. fold sig c.
  now rewrite (create_string_buffer_too_long _ _ Hlen).
Qed.

End sig_operations.

Lemma SIG_free_run {N} (liboqs : SIG.library N) (self : SIG.OQS_SIG)
    (w : world N) :
  SIG.free liboqs self w
  = (Ok tt,
     {| native := snd (SIG.OQS_SIG_free liboqs (SIG._sig self) (native w));
        trace := trace w ++ [Call_SIG_free (SIG._sig self)] |}).
Proof.
  unfold SIG.free, foreign.
  destruct (SIG.OQS_SIG_free liboqs (SIG._sig self) (native w)) as [[] n1].
  reflexivity.
Qed.

Lemma SIG_export_secret_key_run {N} (self : SIG.OQS_SIG) (w : world N) :
  SIG.export_secret_key (N:=N) self w
  = match SIG.secret_key self with
    | Some sk => (Ok sk, w)
    | None =>
        (Raise (builtin_error AttributeError
                  "'OQS_SIG' object has no attribute 'secret_key'"), w)
    end.
Proof.
  unfold SIG.export_secret_key, SIG.get_secret_key.
  now destruct (SIG.secret_key self).
Qed.

(** ** Encapsulation *)

(** C2: on a live handle, [encap_secret] with a public key that fits its
    buffer calls the native routine on a ciphertext buffer of
    [length_ciphertext] bytes and a shared-secret buffer of
    [length_shared_secret] bytes.  On status 0 it returns the pair of both
    buffers' bytes; on any other status it still returns a pair, the
    ciphertext buffer's bytes and the integer 0, because the status test
    covers the second component only.  (A public key that does not fit
    raises before the native routine is called.) *)
Theorem C2_encap_secret_tests_status_for_second_element_only :
  forall N (liboqs : KEM.library N) (self : KEM.OQS_KEM)
         (public_key : bytes) (w : world N),
  KEM._kem self <> NULL ->
  let kem := KEM._kem self in
  let c := KEM.read_OQS_KEM liboqs kem (native w) in
  let my_public_key :=
    public_key
    ++ repeat x00 (KEM.length_public_key c - length public_key) in
  let ct0 := create_string_buffer_size (KEM.length_ciphertext c) in
  let ss0 := create_string_buffer_size (KEM.length_shared_secret c) in
  let out := KEM.OQS_KEM_encaps liboqs kem ct0 ss0 my_public_key (native w) in
  let rv := fst (fst (fst out)) in
  let ciphertext := written ct0 (snd (fst (fst out))) in
  let shared_secret := written ss0 (snd (fst out)) in
  let w' := {| native := snd out;
               trace := trace w
                        ++ [Call_KEM_encaps kem ct0 ss0 my_public_key] |} in
  (length public_key <= KEM.length_public_key c ->
   length ciphertext = KEM.length_ciphertext c /\
   length shared_secret = KEM.length_shared_secret c /\
   (rv = 0%Z ->
    KEM.encap_secret liboqs self public_key w
    = (Ok (ciphertext, PyBytes shared_secret), w')) /\
   (rv <> 0%Z ->
    KEM.encap_secret liboqs self public_key w
    = (Ok (ciphertext, PyInt 0), w'))) /\
  (KEM.length_public_key c < length public_key ->
   KEM.encap_secret liboqs self public_key w
   = (Raise (builtin_error ValueError "byte string too long"), w)).
Proof.
  intros N liboqs self public_key w live kem c my_public_key ct0 ss0 out rv
         ciphertext shared_secret w'.
  split.
  - intros Hlen.
    pose proof (KEM_encap_secret_run liboqs self w live public_key Hlen)
      as Hrun.
    cbv zeta in Hrun. fold kem c my_public_key ct0 ss0 out in Hrun.
    fold rv ciphertext shared_secret w' in Hrun.
    split; [|split; [|split]].
    + unfold ciphertext. rewrite length_written.
      apply length_create_string_buffer_size.
    + unfold shared_secret. rewrite length_written.
      apply length_create_string_buffer_size.
    + intros Hrv. rewrite Hrun.
      destruct (Z.eqb_spec rv _OQS_SUCCESS) as [_|Hne];
        [reflexivity | now destruct Hne].
    + intros Hrv. rewrite Hrun.
      destruct (Z.eqb_spec rv _OQS_SUCCESS) as [Heq|_];
        [now destruct Hrv | reflexivity].
  - intros Hlen. now apply KEM_encap_secret_too_long.
Qed.

Lemma C2_witness :
  KEM.encap_secret Toy.kem Toy.kyber [x01; x02; x03; x04] (Toy.boot 0%Z)
  = (Ok ([xc1; xc2; xc3; xc4; xc5], PyBytes [x51; x52; x53]),
     {| native := 0%Z;
        trace := [Call_KEM_encaps 32%Z [x00; x00; x00; x00; x00]
                    [x00; x00; x00] [x01; x02; x03; x04]] |}) /\
  KEM.encap_secret Toy.kem Toy.kyber [x01; x02; x03; x04] (Toy.boot 1%Z)
  = (Ok ([xc1; xc2; xc3; xc4; xc5], PyInt 0),
     {| native := 1%Z;
        trace := [Call_KEM_encaps 32%Z [x00; x00; x00; x00; x00]
                    [x00; x00; x00] [x01; x02; x03; x04]] |}).
Proof.
  split.
  - destruct (C2_encap_secret_tests_status_for_second_element_only
                Z Toy.kem Toy.kyber [x01; x02; x03; x04] (Toy.boot 0%Z))
      as [Hfit _]; [vm_compute; discriminate|].
    destruct Hfit as (_ & _ & Hok & _); [vm_compute; lia|].
    apply Hok. reflexivity.
  - destruct (C2_encap_secret_tests_status_for_second_element_only
                Z Toy.kem Toy.kyber [x01; x02; x03; x04] (Toy.boot 1%Z))
      as [Hfit _]; [vm_compute; discriminate|].
    destruct Hfit as (_ & _ & _ & Hfail); [vm_compute; lia|].
    apply Hfail. vm_compute. discriminate.
Defined.

(** ** Verification *)

(** C4, as the code has it: on a live handle, [verify] with a public key
    of at most [length_public_key] bytes calls the native routine on the
    message and the signature at their own lengths, whatever these are,
    and returns the boolean that is true exactly when the status is 0; it
    does not raise.  With a longer public key the copy into the
    [length_public_key]-byte buffer raises [ValueError] and the native
    routine is not called. *)
Theorem C4_verify_is_status_test_when_public_key_fits :
  forall N (liboqs : SIG.library N) (self : SIG.OQS_SIG)
         (message signature public_key : bytes) (w : world N),
  SIG._sig self <> NULL ->
  let sig := SIG._sig self in
  let c := SIG.read_OQS_SIG liboqs sig (native w) in
  let message_len := c_int (Z.of_nat (length message)) in
  let sig_len := c_int (Z.of_nat (length signature)) in
  let my_public_key :=
    public_key
    ++ repeat x00 (SIG.length_public_key c - length public_key) in
  let out :=
    SIG.OQS_SIG_verify liboqs sig message message_len signature sig_len
      my_public_key (native w) in
  (length public_key <= SIG.length_public_key c ->
   exists (b : bool),
     SIG.verify liboqs self message signature public_key w
     = (Ok b,
        {| native := snd out;
           trace := trace w
                    ++ [Call_SIG_verify sig message message_len signature
                          sig_len my_public_key] |}) /\
     (b = true <-> fst out = 0%Z)) /\
  (SIG.length_public_key c < length public_key ->
   SIG.verify liboqs self message signature public_key w
   = (Raise (builtin_error ValueError "byte string too long"), w)).
Proof.
  intros N liboqs self message signature public_key w live sig c
         message_len sig_len my_public_key out.
  split.
  - intros Hlen. exists (fst out =? _OQS_SUCCESS)%Z. split.
    + exact (SIG_verify_run liboqs self w live message signature
               public_key Hlen).
    + apply Z.eqb_eq.
  - intros Hlen. now apply SIG_verify_too_long.
Qed.

Lemma C4_witness :
  SIG.verify Toy.sig Toy.dilithium [x68; x69] [xe1; xe2; xe3] [x01; x02]
    (Toy.boot 1%Z)
  = (Ok false,
     {| native := 1%Z;
        trace := [Call_SIG_verify 16%Z [x68; x69] 2%Z [xe1; xe2; xe3] 3%Z
                    [x01; x02; x00; x00]] |}) /\
  SIG.verify Toy.sig Toy.dilithium [x68; x69] [xe1; xe2; xe3]
    [x01; x02; x03; x04; x05] (Toy.boot 0%Z)
  = (Raise (builtin_error ValueError "byte string too long"), Toy.boot 0%Z).
Proof.
  split.
  - destruct (C4_verify_is_status_test_when_public_key_fits Z Toy.sig
                Toy.dilithium [x68; x69] [xe1; xe2; xe3] [x01; x02]
                (Toy.boot 1%Z)) as [Hfit _]; [vm_compute; discriminate|].
    destruct Hfit as (b & Hrun & Hb); [vm_compute; lia|].
    rewrite Hrun. destruct b; [|reflexivity].
    destruct Hb as [Hb _]. specialize (Hb eq_refl). vm_compute in Hb.
    discriminate.
  - destruct (C4_verify_is_status_test_when_public_key_fits Z Toy.sig
                Toy.dilithium [x68; x69] [xe1; xe2; xe3]
                [x01; x02; x03; x04; x05] (Toy.boot 0%Z)) as [_ Hlong];
      [vm_compute; discriminate|].
    apply Hlong. vm_compute. lia.
Defined.

(** C4 as stated fails: on the live handle for ["Dilithium2"], whose
    [length_public_key] is 4, [verify] with a public key of 5 bytes does
    not return [False]; it raises [ValueError]. *)
Lemma C4_counterexample :
  SIG._sig Toy.dilithium <> NULL /\
  SIG.length_public_key
    (SIG.read_OQS_SIG Toy.sig (SIG._sig Toy.dilithium) 0%Z) = 4 /\
  SIG.verify Toy.sig Toy.dilithium [x68; x69] [xe1; xe2; xe3]
    [x01; x02; x03; x04; x05] (Toy.boot 0%Z)
  = (Raise (builtin_error ValueError "byte string too long"), Toy.boot 0%Z) /\
  ~ (exists w',
       SIG.verify Toy.sig Toy.dilithium [x68; x69] [xe1; xe2; xe3]
         [x01; x02; x03; x04; x05] (Toy.boot 0%Z) = (Ok false, w')).
Proof.
  split; [vm_compute; discriminate|].
  split; [reflexivity|].
  split; [vm_compute; reflexivity|].
  intros (w' & H). vm_compute in H. discriminate.
Qed.

(** ** Key generation *)

(** C5: on a live handle of either family, [generate_keypair] passes to
    the native routine a public-key buffer of [length_public_key] bytes
    and a secret-key buffer of [length_secret_key] bytes.  It never
    raises.  On status 0 it returns the bytes of the public-key buffer,
    [length_public_key] of them; on any other status it returns the
    integer 0.  Either way the object then holds the secret-key buffer,
    of [length_secret_key] bytes, whatever it held before, and
    [export_secret_key] returns it. *)
Theorem C5_generate_keypair_sizes_and_result :
  forall N (kem_lib : KEM.library N) (sig_lib : SIG.library N),
  (forall (self : KEM.OQS_KEM) (w : world N),
     KEM._kem self <> NULL ->
     let kem := KEM._kem self in
     let c := KEM.read_OQS_KEM kem_lib kem (native w) in
     let pk0 := create_string_buffer_size (KEM.length_public_key c) in
     let sk0 := create_string_buffer_size (KEM.length_secret_key c) in
     let out := KEM.OQS_KEM_keypair kem_lib kem pk0 sk0 (native w) in
     let rv := fst (fst (fst out)) in
     let public_key := written pk0 (snd (fst (fst out))) in
     let secret_key := written sk0 (snd (fst out)) in
     let w' := {| native := snd out;
                  trace := trace w ++ [Call_KEM_keypair kem pk0 sk0] |} in
     length pk0 = KEM.length_public_key c /\
     length sk0 = KEM.length_secret_key c /\
     length public_key = KEM.length_public_key c /\
     length secret_key = KEM.length_secret_key c /\
     exists self',
       KEM.generate_keypair kem_lib self w
       = (Ok (if (rv =? 0)%Z then PyBytes public_key else PyInt 0, self'),
          w') /\
       KEM.secret_key self' = Some secret_key /\
       KEM._kem self' = kem /\
       KEM.export_secret_key self' w' = (Ok secret_key, w')) /\
  (forall (self : SIG.OQS_SIG) (w : world N),
     SIG._sig self <> NULL ->
     let sig := SIG._sig self in
     let c := SIG.read_OQS_SIG sig_lib sig (native w) in
     let pk0 := create_string_buffer_size (SIG.length_public_key c) in
     let sk0 := create_string_buffer_size (SIG.length_secret_key c) in
     let out := SIG.OQS_SIG_keypair sig_lib sig pk0 sk0 (native w) in
     let rv := fst (fst (fst out)) in
     let public_key := written pk0 (snd (fst (fst out))) in
     let secret_key := written sk0 (snd (fst out)) in
     let w' := {| native := snd out;
                  trace := trace w ++ [Call_SIG_keypair sig pk0 sk0] |} in
     length pk0 = SIG.length_public_key c /\
     length sk0 = SIG.length_secret_key c /\
     length public_key = SIG.length_public_key c /\
     length secret_key = SIG.length_secret_key c /\
     exists self',
       SIG.generate_keypair sig_lib self w
       = (Ok (if (rv =? 0)%Z then PyBytes public_key else PyInt 0, self'),
          w') /\
       SIG.secret_key self' = Some secret_key /\
       SIG._sig self' = sig /\
       SIG.export_secret_key self' w' = (Ok secret_key, w')).
Proof.
  intros N kem_lib sig_lib. split.
  - intros self w live kem c pk0 sk0 out rv public_key secret_key w'.
    split; [apply length_create_string_buffer_size|].
    split; [apply length_create_string_buffer_size|].
    split; [unfold public_key; rewrite length_written;
            apply length_create_string_buffer_size|].
    split; [unfold secret_key; rewrite length_written;
            apply length_create_string_buffer_size|].
    exists (KEM.set_secret_key self secret_key).
    split; [exact (KEM_generate_keypair_run kem_lib self w live)|].
    split; [reflexivity|]. split; [reflexivity|].
    now rewrite KEM_export_secret_key_run.
  - intros self w live sig c pk0 sk0 out rv public_key secret_key w'.
    split; [apply length_create_string_buffer_size|].
    split; [apply length_create_string_buffer_size|].
    split; [unfold public_key; rewrite length_written;
            apply length_create_string_buffer_size|].
    split; [unfold secret_key; rewrite length_written;
            apply length_create_string_buffer_size|].
    exists (SIG.set_secret_key self secret_key).
    split; [exact (SIG_generate_keypair_run sig_lib self w live)|].
    split; [reflexivity|]. split; [reflexivity|].
    now rewrite SIG_export_secret_key_run.
Qed.

Lemma C5_witness :
  (exists self',
     KEM.generate_keypair Toy.kem Toy.kyber (Toy.boot 0%Z)
     = (Ok (PyBytes [x01; x02; x03; x04], self'),
        {| native := 0%Z;
           trace := [Call_KEM_keypair 32%Z [x00; x00; x00; x00]
                       [x00; x00; x00; x00; x00; x00]] |}) /\
     KEM.secret_key self' = Some [x0a; x0b; x0c; x0d; x0e; x0f]) /\
  (exists self',
     SIG.generate_keypair Toy.sig Toy.dilithium (Toy.boot 1%Z)
     = (Ok (PyInt 0, self'),
        {| native := 1%Z;
           trace := [Call_SIG_keypair 16%Z [x00; x00; x00; x00]
                       [x00; x00; x00; x00; x00; x00]] |}) /\
     SIG.secret_key self' = Some [x0a; x0b; x0c; x0d; x0e; x0f]).
Proof.
  destruct (C5_generate_keypair_sizes_and_result Z Toy.kem Toy.sig)
    as [HK HS].
  split.
  - destruct (HK Toy.kyber (Toy.boot 0%Z)) as (_ & _ & _ & _ & self' & H);
      [vm_compute; discriminate|].
    destruct H as (Hrun & Hsk & _). exists self'. split; assumption.
  - destruct (HS Toy.dilithium (Toy.boot 1%Z))
      as (_ & _ & _ & _ & self' & H); [vm_compute; discriminate|].
    destruct H as (Hrun & Hsk & _). exists self'. split; assumption.
Defined.

Lemma written_nil (buf : bytes) : written buf [] = buf.
Proof. unfold written. simpl. apply firstn_all. Qed.

(** C10: on a live handle of either family, the two allocations that open
    [generate_keypair] make no foreign call and leave the object holding
    a zero-filled secret-key buffer of [length_secret_key] bytes in place
    of whatever it held; the native routine is called after that, on this
    buffer.  When the status is not 0 the call returns the integer 0 and
    the object holds that new buffer as the native routine left it, so
    the key held before the call is gone. *)
Theorem C10_secret_key_is_replaced_before_the_native_call :
  forall N (kem_lib : KEM.library N) (sig_lib : SIG.library N),
  (forall (self : KEM.OQS_KEM) (w : world N),
     KEM._kem self <> NULL ->
     let kem := KEM._kem self in
     let c := KEM.read_OQS_KEM kem_lib kem (native w) in
     let pk0 := repeat x00 (KEM.length_public_key c) in
     let sk0 := repeat x00 (KEM.length_secret_key c) in
     let out := KEM.OQS_KEM_keypair kem_lib kem pk0 sk0 (native w) in
     let w' := {| native := snd out;
                  trace := trace w ++ [Call_KEM_keypair kem pk0 sk0] |} in
     (exists self0,
        KEM.generate_keypair_buffers kem_lib self w = (Ok (pk0, self0), w) /\
        KEM.secret_key self0 = Some sk0 /\
        KEM.generate_keypair kem_lib self w
        = KEM.generate_keypair_call kem_lib pk0 self0 w) /\
     snd (KEM.generate_keypair kem_lib self w) = w' /\
     (fst (fst (fst out)) <> 0%Z ->
      exists self',
        KEM.generate_keypair kem_lib self w = (Ok (PyInt 0, self'), w') /\
        KEM.secret_key self' = Some (written sk0 (snd (fst out))) /\
        (snd (fst out) = [] -> KEM.secret_key self' = Some sk0) /\
        (KEM.secret_key self <> Some (written sk0 (snd (fst out))) ->
         self' <> self))) /\
  (forall (self : SIG.OQS_SIG) (w : world N),
     SIG._sig self <> NULL ->
     let sig := SIG._sig self in
     let c := SIG.read_OQS_SIG sig_lib sig (native w) in
     let pk0 := repeat x00 (SIG.length_public_key c) in
     let sk0 := repeat x00 (SIG.length_secret_key c) in
     let out := SIG.OQS_SIG_keypair sig_lib sig pk0 sk0 (native w) in
     let w' := {| native := snd out;
                  trace := trace w ++ [Call_SIG_keypair sig pk0 sk0] |} in
     (exists self0,
        SIG.generate_keypair_buffers sig_lib self w = (Ok (pk0, self0), w) /\
        SIG.secret_key self0 = Some sk0 /\
        SIG.generate_keypair sig_lib self w
        = SIG.generate_keypair_call sig_lib pk0 self0 w) /\
     snd (SIG.generate_keypair sig_lib self w) = w' /\
     (fst (fst (fst out)) <> 0%Z ->
      exists self',
        SIG.generate_keypair sig_lib self w = (Ok (PyInt 0, self'), w') /\
        SIG.secret_key self' = Some (written sk0 (snd (fst out))) /\
        (snd (fst out) = [] -> SIG.secret_key self' = Some sk0) /\
        (SIG.secret_key self <> Some (written sk0 (snd (fst out))) ->
         self' <> self))).
Proof.
  intros N kem_lib sig_lib. split.
  - intros self w live kem c pk0 sk0 out w'.
    pose proof (KEM_generate_keypair_buffers_run kem_lib self w live) as Hb.
    pose proof (KEM_generate_keypair_run kem_lib self w live) as Hrun.
    cbv zeta in Hrun. split; [|split].
    + exists (KEM.set_secret_key self sk0). split; [exact Hb|].
      split; [reflexivity|].
      unfold KEM.generate_keypair. now rewrite (bind_Ok _ _ _ _ _ Hb).
    + now rewrite Hrun.
    + intros Hrv.
      exists (KEM.set_secret_key self (written sk0 (snd (fst out)))).
      split; [|split; [reflexivity|split]].
      * rewrite Hrun. fold kem c. unfold create_string_buffer_size.
        fold pk0 sk0 out w'.
        destruct (Z.eqb_spec (fst (fst (fst out))) _OQS_SUCCESS) as [E|_];
          [now destruct Hrv | reflexivity].
      * intros ->. simpl. now rewrite written_nil.
      * intros Hne Heq. apply Hne. rewrite <- Heq at 1. reflexivity.
  - intros self w live sig c pk0 sk0 out w'.
    pose proof (SIG_generate_keypair_buffers_run sig_lib self w live) as Hb.
    pose proof (SIG_generate_keypair_run sig_lib self w live) as Hrun.
    cbv zeta in Hrun. split; [|split].
    + exists (SIG.set_secret_key self sk0). split; [exact Hb|].
      split; [reflexivity|].
      unfold SIG.generate_keypair. now rewrite (bind_Ok _ _ _ _ _ Hb).
    + now rewrite Hrun.
    + intros Hrv.
      exists (SIG.set_secret_key self (written sk0 (snd (fst out)))).
      split; [|split; [reflexivity|split]].
      * rewrite Hrun. fold sig c. unfold create_string_buffer_size.
        fold pk0 sk0 out w'.
        destruct (Z.eqb_spec (fst (fst (fst out))) _OQS_SUCCESS) as [E|_];
          [now destruct Hrv | reflexivity].
      * intros ->. simpl. now rewrite written_nil.
      * intros Hne Heq. apply Hne. rewrite <- Heq at 1. reflexivity.
Qed.

Lemma C10_witness :
  exists self',
    KEM.generate_keypair Toy.kem
      (KEM.set_secret_key Toy.kyber [x11; x22; x33; x44; x55; x66])
      (Toy.boot 1%Z)
    = (Ok (PyInt 0, self'),
       {| native := 1%Z;
          trace := [Call_KEM_keypair 32%Z [x00; x00; x00; x00]
                      [x00; x00; x00; x00; x00; x00]] |}) /\
    KEM.secret_key self' = Some [x0a; x0b; x0c; x0d; x0e; x0f] /\
    self' <> KEM.set_secret_key Toy.kyber [x11; x22; x33; x44; x55; x66].
Proof.
  destruct (C10_secret_key_is_replaced_before_the_native_call Z Toy.kem
              Toy.sig) as [HK _].
  destruct (HK (KEM.set_secret_key Toy.kyber [x11; x22; x33; x44; x55; x66])
              (Toy.boot 1%Z)) as (_ & _ & Hfail);
    [vm_compute; discriminate|].
  destruct Hfail as (self' & Hrun & Hsk & _ & Hne);
    [vm_compute; discriminate|].
  exists self'. split; [exact Hrun|]. split; [exact Hsk|].
  apply Hne. vm_compute. discriminate.
Defined.

(** ** Release *)

Lemma KEM_free_repeated {N} (liboqs : KEM.library N) (self : KEM.OQS_KEM)
    (k : nat) (w : world N) :
  exists w',
    KEM.invoke_all liboqs (repeat KEM.Free k) self w = (Ok self, w') /\
    trace w' = trace w ++ repeat (Call_KEM_free (KEM._kem self)) k.
Proof.
  revert w. induction k as [|k IH]; intros w; simpl.
  - exists w. split; [reflexivity | now rewrite app_nil_r].
  - destruct (IH (snd (KEM.free liboqs self w))) as (w' & Hrun & Htr).
    exists w'. split.
    + unfold bind at 1. unfold bind at 1. rewrite KEM_free_run.
      rewrite KEM_free_run in Hrun. exact Hrun.
    + rewrite Htr, KEM_free_run. simpl. now rewrite <- app_assoc.
Qed.

Lemma SIG_free_repeated {N} (liboqs : SIG.library N) (self : SIG.OQS_SIG)
    (k : nat) (w : world N) :
  exists w',
    SIG.invoke_all liboqs (repeat SIG.Free k) self w = (Ok self, w') /\
    trace w' = trace w ++ repeat (Call_SIG_free (SIG._sig self)) k.
Proof.
  revert w. induction k as [|k IH]; intros w; simpl.
  - exists w. split; [reflexivity | now rewrite app_nil_r].
  - destruct (IH (snd (SIG.free liboqs self w))) as (w' & Hrun & Htr).
    exists w'. split.
    + unfold bind at 1. unfold bind at 1. rewrite SIG_free_run.
      rewrite SIG_free_run in Hrun. exact Hrun.
    + rewrite Htr, SIG_free_run. simpl. now rewrite <- app_assoc.
Qed.

(** C3, as the code has it: [free] calls the native free routine on the
    context every time it is invoked and keeps no record of it, so [k]
    releases of one instance make [k] native free calls on the same
    pointer.  The other operations do not test for a release either: on
    an instance whose pointer is not NULL, after [free], the operations
    that use the context still read it and pass the released pointer to
    their native routines. *)
Theorem C3_free_calls_the_native_routine_each_time :
  forall N (kem_lib : KEM.library N) (sig_lib : SIG.library N),
  (forall (self : KEM.OQS_KEM) (w : world N),
     let kem := KEM._kem self in
     let w1 := {| native := snd (KEM.OQS_KEM_free kem_lib kem (native w));
                  trace := trace w ++ [Call_KEM_free kem] |} in
     KEM.free kem_lib self w = (Ok tt, w1) /\
     (forall k, exists w',
        KEM.invoke_all kem_lib (repeat KEM.Free k) self w = (Ok self, w') /\
        trace w' = trace w ++ repeat (Call_KEM_free kem) k) /\
     (kem <> NULL ->
      (exists r w2 pk0 sk0,
         KEM.generate_keypair kem_lib self w1 = (Ok r, w2) /\
         trace w2 = trace w ++ [Call_KEM_free kem;
                                Call_KEM_keypair kem pk0 sk0]) /\
      (forall public_key,
         length public_key
         <= KEM.length_public_key
              (KEM.read_OQS_KEM kem_lib kem (native w1)) ->
         exists r w2 ct0 ss0 pk,
           KEM.encap_secret kem_lib self public_key w1 = (Ok r, w2) /\
           trace w2 = trace w ++ [Call_KEM_free kem;
                                  Call_KEM_encaps kem ct0 ss0 pk]) /\
      (forall ciphertext secret_key,
         KEM.secret_key self = Some secret_key ->
         length ciphertext
         <= KEM.length_ciphertext
              (KEM.read_OQS_KEM kem_lib kem (native w1)) ->
         exists r w2 ss0 ct,
           KEM.decap_secret kem_lib self ciphertext w1 = (Ok r, w2) /\
           trace w2 = trace w ++ [Call_KEM_free kem;
                                  Call_KEM_decaps kem ss0 ct secret_key]))) /\
  (forall (self : SIG.OQS_SIG) (w : world N),
     let sig := SIG._sig self in
     let w1 := {| native := snd (SIG.OQS_SIG_free sig_lib sig (native w));
                  trace := trace w ++ [Call_SIG_free sig] |} in
     SIG.free sig_lib self w = (Ok tt, w1) /\
     (forall k, exists w',
        SIG.invoke_all sig_lib (repeat SIG.Free k) self w = (Ok self, w') /\
        trace w' = trace w ++ repeat (Call_SIG_free sig) k) /\
     (sig <> NULL ->
      (exists r w2 pk0 sk0,
         SIG.generate_keypair sig_lib self w1 = (Ok r, w2) /\
         trace w2 = trace w ++ [Call_SIG_free sig;
                                Call_SIG_keypair sig pk0 sk0]) /\
      (forall message secret_key,
         SIG.secret_key self = Some secret_key ->
         exists r w2 sig0 n0 len,
           SIG.sign sig_lib self message w1 = (Ok r, w2) /\
           trace w2 = trace w ++ [Call_SIG_free sig;
                                  Call_SIG_sign sig sig0 n0 message len
                                    secret_key]) /\
      (forall message signature public_key,
         length public_key
         <= SIG.length_public_key
              (SIG.read_OQS_SIG sig_lib sig (native w1)) ->
         exists r w2 mlen slen pk,
           SIG.verify sig_lib self message signature public_key w1
           = (Ok r, w2) /\
           trace w2 = trace w ++ [Call_SIG_free sig;
                                  Call_SIG_verify sig message mlen signature
                                    slen pk]))).
Proof.
  intros N kem_lib sig_lib. split.
  - intros self w kem w1.
    split; [apply KEM_free_run|].
    split; [intros k; apply KEM_free_repeated|].
    intros live. split; [|split].
    + rewrite (KEM_generate_keypair_run kem_lib self w1 live).
      do 4 eexists. split; [reflexivity|]. simpl.
      now rewrite <- app_assoc.
    + intros public_key Hlen.
      rewrite (KEM_encap_secret_run kem_lib self w1 live _ Hlen).
      do 5 eexists. split; [reflexivity|]. simpl.
      now rewrite <- app_assoc.
    + intros ciphertext secret_key Hsk Hlen.
      rewrite (KEM_decap_secret_run kem_lib self w1 live _ _ Hsk Hlen).
      do 4 eexists. split; [reflexivity|]. simpl.
      now rewrite <- app_assoc.
  - intros self w sig w1.
    split; [apply SIG_free_run|].
    split; [intros k; apply SIG_free_repeated|].
    intros live. split; [|split].
    + rewrite (SIG_generate_keypair_run sig_lib self w1 live).
      do 4 eexists. split; [reflexivity|]. simpl.
      now rewrite <- app_assoc.
    + intros message secret_key Hsk.
      rewrite (SIG_sign_run sig_lib self w1 live _ _ Hsk).
      do 5 eexists. split; [reflexivity|]. simpl.
      now rewrite <- app_assoc.
    + intros message signature public_key Hlen.
      rewrite (SIG_verify_run sig_lib self w1 live _ _ _ Hlen).
      do 5 eexists. split; [reflexivity|]. simpl.
      now rewrite <- app_assoc.
Qed.

Lemma C3_witness :
  (exists w',
     KEM.invoke_all Toy.kem (repeat KEM.Free 3) Toy.kyber (Toy.boot 0%Z)
     = (Ok Toy.kyber, w') /\
     trace w' = [Call_KEM_free 32%Z; Call_KEM_free 32%Z; Call_KEM_free 32%Z]) /\
  (exists r w2 mlen slen pk,
     SIG.verify Toy.sig Toy.dilithium [x68; x69] [xe1] [x01; x02; x03; x04]
       {| native := 0%Z; trace := [Call_SIG_free 16%Z] |} = (Ok r, w2) /\
     trace w2 = [Call_SIG_free 16%Z;
                 Call_SIG_verify 16%Z [x68; x69] mlen [xe1] slen pk]).
Proof.
  destruct (C3_free_calls_the_native_routine_each_time Z Toy.kem Toy.sig)
    as [HK HS].
  split.
  - destruct (HK Toy.kyber (Toy.boot 0%Z)) as (_ & Hk & _).
    exact (Hk 3).
  - destruct (HS Toy.dilithium (Toy.boot 0%Z)) as (_ & _ & Hlive).
    destruct Hlive as (_ & _ & Hv); [vm_compute; discriminate|].
    apply (Hv [x68; x69] [xe1] [x01; x02; x03; x04]).
    vm_compute. lia.
Defined.

(** C3 as stated fails: on the handle constructed for ["Kyber512"], two
    releases make two native free calls on the same context, and
    [generate_keypair] after a release is not refused: it returns the
    public key after calling the native keypair routine on the released
    context. *)
Lemma C3_counterexample :
  fst (KEM.__init__ Toy.kem Toy.ascii_codec Toy.kem_registry "Kyber512" None
         (Toy.boot 0%Z)) = Ok Toy.kyber /\
  KEM.invoke_all Toy.kem [KEM.Free; KEM.Free] Toy.kyber (Toy.boot 0%Z)
  = (Ok Toy.kyber,
     {| native := 0%Z;
        trace := [Call_KEM_free 32%Z; Call_KEM_free 32%Z] |}) /\
  (let! _ := KEM.free Toy.kem Toy.kyber in
   KEM.generate_keypair Toy.kem Toy.kyber) (Toy.boot 0%Z)
  = (Ok (PyBytes [x01; x02; x03; x04],
         KEM.set_secret_key Toy.kyber [x0a; x0b; x0c; x0d; x0e; x0f]),
     {| native := 0%Z;
        trace := [Call_KEM_free 32%Z;
                  Call_KEM_keypair 32%Z [x00; x00; x00; x00]
                    [x00; x00; x00; x00; x00; x00]] |}).
Proof.
  split; [vm_compute; reflexivity|].
  split; vm_compute; reflexivity.
Qed.

(** ** Exporting the secret key *)

Section kem_callers.
Context {N : Type} (liboqs : KEM.library N) (cd : codec).

Lemma KEM_init_without_key reg n sk (w : world N) self w1 :
  sk = None \/ sk = Some [] ->
  KEM.__init__ liboqs cd reg n sk w = (Ok self, w1) ->
  KEM.secret_key self = None.
Proof.
  intros Hsk H. unfold KEM.__init__ in H.
  apply bind_Ok_inv in H as (u & w2 & _ & H).
  apply bind_Ok_inv in H as (kem & w3 & _ & H).
  apply bind_Ok_inv in H as (c & w4 & _ & H).
  apply bind_Ok_inv in H as (name & w5 & _ & H).
  apply bind_Ok_inv in H as (version & w6 & _ & H).
  destruct Hsk as [-> | ->]; inversion H; reflexivity.
Qed.

Lemma KEM_invoke_keeps_object (m : KEM.method) self (w : world N) self' w' :
  m <> KEM.Generate_keypair ->
  KEM.invoke liboqs m self w = (Ok self', w') ->
  self' = self.
Proof.
  intros Hm H. destruct m; simpl in H; try contradiction;
    apply bind_Ok_inv in H as (r & w1 & _ & H); now inversion H.
Qed.

Lemma KEM_invoke_all_keeps_object ms self (w : world N) self' w' :
  ~ In KEM.Generate_keypair ms ->
  KEM.invoke_all liboqs ms self w = (Ok self', w') ->
  self' = self.
Proof.
  revert self w. induction ms as [|m ms IH]; simpl; intros self w Hms H.
  - now inversion H.
  - apply bind_Ok_inv in H as (self1 & w1 & H1 & H).
    apply KEM_invoke_keeps_object in H1 as ->; [|intros ->; tauto].
    apply (IH _ _ ltac:(tauto) H).
Qed.

End kem_callers.

Section sig_callers.
Context {N : Type} (liboqs : SIG.library N) (cd : codec).

Lemma SIG_init_without_key reg n sk (w : world N) self w1 :
  sk = None \/ sk = Some [] ->
  SIG.__init__ liboqs cd reg n sk w = (Ok self, w1) ->
  SIG.secret_key self = None.
Proof.
  intros Hsk H. unfold SIG.__init__ in H.
  apply bind_Ok_inv in H as (u & w2 & _ & H).
  apply bind_Ok_inv in H as (sig & w3 & _ & H).
  apply bind_Ok_inv in H as (c & w4 & _ & H).
  apply bind_Ok_inv in H as (name & w5 & _ & H).
  apply bind_Ok_inv in H as (version & w6 & _ & H).
  destruct Hsk as [-> | ->]; inversion H; reflexivity.
Qed.

Lemma SIG_invoke_keeps_object (m : SIG.method) self (w : world N) self' w' :
  m <> SIG.Generate_keypair ->
  SIG.invoke liboqs m self w = (Ok self', w') ->
  self' = self.
Proof.
  intros Hm H. destruct m; simpl in H; try contradiction;
    apply bind_Ok_inv in H as (r & w1 & _ & H); now inversion H.
Qed.

Lemma SIG_invoke_all_keeps_object ms self (w : world N) self' w' :
  ~ In SIG.Generate_keypair ms ->
  SIG.invoke_all liboqs ms self w = (Ok self', w') ->
  self' = self.
Proof.
  revert self w. induction ms as [|m ms IH]; simpl; intros self w Hms H.
  - now inversion H.
  - apply bind_Ok_inv in H as (self1 & w1 & H1 & H).
    apply SIG_invoke_keeps_object in H1 as ->; [|intros ->; tauto].
    apply (IH _ _ ltac:(tauto) H).
Qed.

End sig_callers.

(** C7: in either family, [export_secret_key] on an object that holds no
    secret key raises [AttributeError], an ordinary Python exception, and
    makes no foreign call; on an object that holds one it returns the
    bytes of that key.  An object constructed without a key (or with an
    empty one) holds none, and keeps holding none through any sequence of
    method calls that does not include [generate_keypair]. *)
Theorem C7_export_secret_key_requires_a_held_key :
  forall N (kem_lib : KEM.library N) (sig_lib : SIG.library N) (cd : codec),
  (forall (self : KEM.OQS_KEM) (w : world N),
     (KEM.secret_key self = None ->
      exists e,
        KEM.export_secret_key self w = (Raise e, w) /\
        exc_type e = AttributeError /\
        handles Exception e = true) /\
     (forall k, KEM.secret_key self = Some k ->
        KEM.export_secret_key self w = (Ok k, w))) /\
  (forall reg n sk (w : world N) self w1 ms self' w2,
     sk = None \/ sk = Some [] ->
     KEM.__init__ kem_lib cd reg n sk w = (Ok self, w1) ->
     ~ In KEM.Generate_keypair ms ->
     KEM.invoke_all kem_lib ms self w1 = (Ok self', w2) ->
     exists e,
       KEM.export_secret_key self' w2 = (Raise e, w2) /\
       exc_type e = AttributeError) /\
  (forall (self : SIG.OQS_SIG) (w : world N),
     (SIG.secret_key self = None ->
      exists e,
        SIG.export_secret_key self w = (Raise e, w) /\
        exc_type e = AttributeError /\
        handles Exception e = true) /\
     (forall k, SIG.secret_key self = Some k ->
        SIG.export_secret_key self w = (Ok k, w))) /\
  (forall reg n sk (w : world N) self w1 ms self' w2,
     sk = None \/ sk = Some [] ->
     SIG.__init__ sig_lib cd reg n sk w = (Ok self, w1) ->
     ~ In SIG.Generate_keypair ms ->
     SIG.invoke_all sig_lib ms self w1 = (Ok self', w2) ->
     exists e,
       SIG.export_secret_key self' w2 = (Raise e, w2) /\
       exc_type e = AttributeError).
Proof.
  intros N kem_lib sig_lib cd. split; [|split; [|split]].
  - intros self w. split.
    + intros Hsk. rewrite KEM_export_secret_key_run, Hsk.
      eexists. split; [reflexivity|]. split; reflexivity.
    + intros k Hsk. now rewrite KEM_export_secret_key_run, Hsk.
  - intros reg n sk w self w1 ms self' w2 Hsk Hinit Hms Hrun.
    apply (KEM_invoke_all_keeps_object kem_lib) in Hrun as ->; [|exact Hms].
    rewrite KEM_export_secret_key_run.
    rewrite (KEM_init_without_key kem_lib cd _ _ _ _ _ _ Hsk Hinit).
    eexists. split; reflexivity.
  - intros self w. split.
    + intros Hsk. rewrite SIG_export_secret_key_run, Hsk.
      eexists. split; [reflexivity|]. split; reflexivity.
    + intros k Hsk. now rewrite SIG_export_secret_key_run, Hsk.
  - intros reg n sk w self w1 ms self' w2 Hsk Hinit Hms Hrun.
    apply (SIG_invoke_all_keeps_object sig_lib) in Hrun as ->; [|exact Hms].
    rewrite SIG_export_secret_key_run.
    rewrite (SIG_init_without_key sig_lib cd _ _ _ _ _ _ Hsk Hinit).
    eexists. split; reflexivity.
Qed.

Lemma C7_witness :
  (exists e,
     KEM.export_secret_key Toy.kyber
       {| native := 0%Z;
          trace := [Call_KEM_new (list_byte_of_string "Kyber512" ++ [x00]);
                    Call_KEM_encaps 32%Z [x00; x00; x00; x00; x00]
                      [x00; x00; x00] [x01; x02; x03; x04];
                    Call_KEM_free 32%Z] |}
     = (Raise e,
        {| native := 0%Z;
           trace := [Call_KEM_new (list_byte_of_string "Kyber512" ++ [x00]);
                     Call_KEM_encaps 32%Z [x00; x00; x00; x00; x00]
                       [x00; x00; x00] [x01; x02; x03; x04];
                     Call_KEM_free 32%Z] |}) /\
     exc_type e = AttributeError) /\
  SIG.export_secret_key
    (SIG.set_secret_key Toy.dilithium [x0a; x0b; x0c; x0d; x0e; x0f])
    (Toy.boot 0%Z)
  = (Ok [x0a; x0b; x0c; x0d; x0e; x0f], Toy.boot 0%Z).
Proof.
  destruct (C7_export_secret_key_requires_a_held_key Z Toy.kem Toy.sig
              Toy.ascii_codec) as (_ & HKseq & HS & _).
  split.
  - apply (HKseq Toy.kem_registry "Kyber512" None (Toy.boot 0%Z) Toy.kyber
             {| native := 0%Z;
                trace := [Call_KEM_new
                            (list_byte_of_string "Kyber512" ++ [x00])] |}
             [KEM.Encap_secret [x01; x02; x03; x04]; KEM.Free] Toy.kyber).
    + now left.
    + vm_compute. reflexivity.
    + simpl. intros [H|[H|H]]; try discriminate; exact H.
    + vm_compute. reflexivity.
  - destruct (HS (SIG.set_secret_key Toy.dilithium
                    [x0a; x0b; x0c; x0d; x0e; x0f]) (Toy.boot 0%Z))
      as [_ Hsome].
    apply Hsome. reflexivity.
Defined.

(** ** The library locator *)

Section locator_facts.
Context {L : Type} (os : Locator.system L).

Lemma usable_spec (path : option string) :
  Locator.usable os path = true <->
  exists p,
    path = Some p /\ p <> EmptyString /\ Locator.path_exists os p = true.
Proof.
  destruct path as [[|a p]|]; simpl; split.
  - discriminate.
  - intros (p & Hp & Hne & _). inversion Hp; subst. now destruct Hne.
  - intros H. exists (String a p). split; [reflexivity|].
    split; [discriminate | exact H].
  - intros (q & Hq & _ & H). inversion Hq; subst. exact H.
  - discriminate.
  - intros (p & Hp & _). discriminate.
Qed.

(** The loop skips candidates that are not usable. *)
Lemma try_paths_skip pre rest :
  (forall q, In q pre -> Locator.usable os q = false) ->
  Locator.try_paths os (pre ++ rest) = Locator.try_paths os rest.
Proof.
  induction pre as [|q pre IH]; simpl; intros H; [reflexivity|].
  rewrite (H q (or_introl eq_refl)). apply IH. intros r Hr. apply H. now right.
Qed.

(** It loads the first usable candidate and looks no further. *)
Lemma try_paths_first pre p post :
  (forall q, In q pre -> Locator.usable os q = false) ->
  Locator.usable os (Some p) = true ->
  Locator.try_paths os (pre ++ Some p :: post) = Locator.LoadLibrary os p.
Proof.
  intros Hpre Hp. rewrite (try_paths_skip _ _ Hpre). simpl in *.
  now rewrite Hp.
Qed.

Lemma try_paths_none ps :
  (forall q, In q ps -> Locator.usable os q = false) ->
  Locator.try_paths os ps
  = Raise (builtin_error RuntimeError "No liboqs.so found!").
Proof.
  intros H. rewrite <- (app_nil_r ps). now rewrite (try_paths_skip _ _ H).
Qed.

End locator_facts.

(** C8: the candidate list is the value of [LIBOQS_INSTALL_PATH] when the
    variable is set, then the result of [find_library('oqs')], then the
    library file name joined to the current directory.  The first
    candidate that is a non-empty path existing on disk is the one
    loaded, and the import succeeds with it when loading succeeds.  When
    loading it raises an [OSError] the process exits with one message,
    and when no candidate qualifies it exits with another. *)
Theorem C8_locator_loads_first_usable_candidate :
  forall L (os : Locator.system L),
  Locator.paths os
  = match Locator.environ os "LIBOQS_INSTALL_PATH" with
    | Some v => [Some v]
    | None => []
    end
    ++ [Locator.find_library os "oqs";
        Some (Locator.path_join os (Locator.curdir os)
                (Locator.LIBOQS_SHARED_OBJ os))] /\
  (forall q, Locator.usable os q = true <->
     exists p,
       q = Some p /\ p <> EmptyString /\ Locator.path_exists os p = true) /\
  (forall pre p post,
     Locator.paths os = pre ++ Some p :: post ->
     (forall q, In q pre -> Locator.usable os q = false) ->
     Locator.usable os (Some p) = true ->
     Locator._load_shared_obj os = Locator.LoadLibrary os p /\
     (forall lib, Locator.LoadLibrary os p = Ok lib ->
        Locator.module_load os = Locator.Imported lib) /\
     (forall e, Locator.LoadLibrary os p = Raise e ->
        handles OSError e = true ->
        Locator.module_load os
        = Locator.Exited "Could not load liboqs shared library")) /\
  ((forall q, In q (Locator.paths os) -> Locator.usable os q = false) ->
   Locator.module_load os
   = Locator.Exited "No liboqs shared libraries found") /\
  "Could not load liboqs shared library"
  <> "No liboqs shared libraries found".
Proof.
  intros L os. split; [|split; [|split; [|split]]].
  - unfold Locator.paths, Locator.LIBOQS_INSTALL_PATH.
    now destruct (Locator.environ os "LIBOQS_INSTALL_PATH").
  - apply usable_spec.
  - intros pre p post Hpaths Hpre Hp.
    assert (Locator._load_shared_obj os = Locator.LoadLibrary os p) as Hload.
    { unfold Locator._load_shared_obj. rewrite Hpaths.
      now apply try_paths_first. }
    split; [exact Hload|]. unfold Locator.module_load. rewrite Hload. split.
    + intros lib ->. reflexivity.
    + intros e -> He. now rewrite He.
  - intros H. unfold Locator.module_load, Locator._load_shared_obj.
    rewrite (try_paths_none os _ H). reflexivity.
  - discriminate.
Qed.

Lemma C8_witness :
  Locator.module_load Toy.installed = Locator.Imported 7%Z /\
  Locator.module_load Toy.corrupt
  = Locator.Exited "Could not load liboqs shared library" /\
  Locator.module_load Toy.bare
  = Locator.Exited "No liboqs shared libraries found".
Proof.
  split; [|split].
  - destruct (C8_locator_loads_first_usable_candidate Z Toy.installed)
      as (_ & _ & Hfirst & _).
    destruct (Hfirst [] "/opt/oqs/liboqs.so"
                [None; Some "./liboqs.so"]) as (_ & Hok & _).
    + reflexivity.
    + intros q [].
    + reflexivity.
    + apply Hok. reflexivity.
  - destruct (C8_locator_loads_first_usable_candidate Z Toy.corrupt)
      as (_ & _ & Hfirst & _).
    destruct (Hfirst [] "/opt/oqs/liboqs.so"
                [None; Some "./liboqs.so"]) as (_ & _ & Hfail).
    + reflexivity.
    + intros q [].
    + reflexivity.
    + apply (Hfail (builtin_error OSError "invalid ELF header"));
        reflexivity.
  - destruct (C8_locator_loads_first_usable_candidate Z Toy.bare)
      as (_ & _ & _ & Hnone & _).
    apply Hnone. simpl. intros q [<-|[<-|[]]]; reflexivity.
Defined.

(** * Further properties of the wrapper *)

(** ** Which handlers catch the two errors *)

(** X1: a [MechanismNotSupportedError] is handled by the clauses for
    itself, [Exception] and [BaseException] and by no other; a
    [MechanismNotEnabledError] by those and by its own clause.  So
    [except MechanismNotEnabledError] lets a not-supported error pass. *)
Theorem X1_handlers_of_the_mechanism_errors :
  forall (c : exc_class) (n : string),
  (handles c (new_MechanismNotSupportedError n) = true <->
   c = MechanismNotSupportedError \/ c = Exception \/ c = BaseException) /\
  (handles c (new_MechanismNotEnabledError n) = true <->
   c = MechanismNotEnabledError \/ c = MechanismNotSupportedError \/
   c = Exception \/ c = BaseException).
Proof.
  intros c n. unfold handles. simpl.
  destruct c; split; split; try discriminate; try reflexivity;
    intros H; try (vm_compute in H; discriminate);
    repeat (destruct H as [H|H]; try discriminate);
    try discriminate; tauto.
Qed.

Lemma X1_witness :
  handles MechanismNotEnabledError (new_MechanismNotSupportedError "ROT13")
  = false.
Proof.
  destruct (X1_handlers_of_the_mechanism_errors MechanismNotEnabledError
              "ROT13") as [[H _] _].
  destruct (handles MechanismNotEnabledError
              (new_MechanismNotSupportedError "ROT13")); [|reflexivity].
  destruct (H eq_refl) as [E|[E|E]]; discriminate E.
Defined.

(** ** The enablement probe *)

Lemma free_calls_app (p : pointer) (l1 l2 : list call) :
  free_calls p (l1 ++ l2) = free_calls p l1 + free_calls p l2.
Proof. unfold free_calls. now rewrite List.filter_app, length_app. Qed.


(** ** The calls made while the registry is built *)

Section registry_calls.
Context {N : Type}.

Lemma list_comp_foreign {A B} (c : A -> call) (f : A -> N -> B * N)
    (xs : list A) (w : world N) :
  exists ys w',
    list_comp (fun x => foreign (c x) (f x)) xs w = (Ok ys, w') /\
    trace w' = trace w ++ map c xs.
Proof.
  revert w. induction xs as [|x xs IH]; intros w; simpl.
  - exists [], w. split; [reflexivity | now rewrite app_nil_r].
  - unfold bind at 1. unfold foreign at 1.
    destruct (f x (native w)) as [y n1].
    destruct (IH {| native := n1; trace := trace w ++ [c x] |})
      as (ys & w' & Hrun & Htr).
    exists (y :: ys), w'. split.
    + unfold bind at 1. now rewrite Hrun.
    + rewrite Htr. simpl. now rewrite <- app_assoc.
Qed.

Lemma list_comp_decode_NULL (cd : codec) pre post (w : world N) :
  Forall (fun id => exists b s, id = Some b /\ decode cd b = Ok s) pre ->
  list_comp (decode_c_char_p cd) (pre ++ None :: post) w
  = (Raise (builtin_error AttributeError
              "'NoneType' object has no attribute 'decode'"), w).
Proof.
  induction 1 as [|id pre (b & s & -> & Hs) _ IH]; simpl.
  - reflexivity.
  - unfold bind at 1. simpl. unfold lift_result. rewrite Hs.
    unfold bind at 1. now rewrite IH.
Qed.

End registry_calls.

Lemma range_nonpos (n : Z) : (n <= 0)%Z -> range n = [].
Proof.
  intros H. unfold range. now replace (Z.to_nat n) with 0 by lia.
Qed.

Lemma range_split (i n : Z) :
  (0 <= i < n)%Z ->
  exists rest, range n = range i ++ i :: rest.
Proof.
  intros H. unfold range.
  replace (Z.to_nat n)
    with (Z.to_nat i + S (Z.to_nat n - S (Z.to_nat i))) by lia.
  rewrite seq_app, map_app. simpl. rewrite Z2Nat.id by lia.
  eexists. reflexivity.
Qed.

Lemma In_range (j n : Z) : In j (range n) -> (0 <= j < n)%Z.
Proof.
  unfold range. rewrite in_map_iff. intros (k & <- & Hk).
  apply in_seq in Hk. lia.
Qed.

Section kem_registry_calls.
Context {N : Type} (liboqs : KEM.library N) (cd : codec).

Lemma KEM_alg_ids_run (w : world N) :
  let count := fst (KEM.OQS_KEM_alg_count liboqs (native w)) in
  exists ids w1,
    KEM._KEM_alg_ids liboqs w = (Ok ids, w1) /\
    trace w1 = trace w ++ Call_KEM_alg_count
                          :: map Call_KEM_alg_identifier (range count).
Proof.
  intros count. unfold KEM._KEM_alg_ids, bind, foreign. subst count.
  destruct (KEM.OQS_KEM_alg_count liboqs (native w)) as [count n1]. simpl.
  destruct (list_comp_foreign Call_KEM_alg_identifier
              (KEM.OQS_KEM_alg_identifier liboqs) (range count)
              {| native := n1; trace := trace w ++ [Call_KEM_alg_count] |})
    as (ids & w1 & Hrun & Htr).
  exists ids, w1. split; [exact Hrun|].
  rewrite Htr. simpl. now rewrite <- app_assoc.
Qed.


End kem_registry_calls.

Section sig_registry_calls.
Context {N : Type} (liboqs : SIG.library N) (cd : codec).

Lemma sig_alg_ids_run (w : world N) :
  let count := fst (SIG.OQS_SIG_alg_count liboqs (native w)) in
  exists ids w1,
    SIG._sig_alg_ids liboqs w = (Ok ids, w1) /\
    trace w1 = trace w ++ Call_SIG_alg_count
                          :: map Call_SIG_alg_identifier (range count).
Proof.
  intros count. unfold SIG._sig_alg_ids, bind, foreign. subst count.
  destruct (SIG.OQS_SIG_alg_count liboqs (native w)) as [count n1]. simpl.
  destruct (list_comp_foreign Call_SIG_alg_identifier
              (SIG.OQS_SIG_alg_identifier liboqs) (range count)
              {| native := n1; trace := trace w ++ [Call_SIG_alg_count] |})
    as (ids & w1 & Hrun & Htr).
  exists ids, w1. split; [exact Hrun|].
  rewrite Htr. simpl. now rewrite <- app_assoc.
Qed.


End sig_registry_calls.



(** ** A library that reports no mechanism, or a NULL identifier *)

(** X4: when the library reports a count of zero or less for a family,
    building the registry makes the count call only and leaves both lists
    empty; every construction in that family then fails with
    [MechanismNotSupportedError], whatever the name, without a foreign
    call. *)
Theorem X4_empty_registry_refuses_every_name :
  forall N (kem : KEM.library N) (sig : SIG.library N) (cd : codec)
         (w : world N),
  ((fst (KEM.OQS_KEM_alg_count kem (native w)) <= 0)%Z ->
   exists reg w',
     KEM.module_init kem cd w = (Ok reg, w') /\
     KEM._supported_KEMs reg = [] /\ KEM._enabled_KEMs reg = [] /\
     trace w' = trace w ++ [Call_KEM_alg_count] /\
     forall n sk (w2 : world N),
       KEM.__init__ kem cd reg n sk w2
       = (Raise (new_MechanismNotSupportedError n), w2)) /\
  ((fst (SIG.OQS_SIG_alg_count sig (native w)) <= 0)%Z ->
   exists reg w',
     SIG.module_init sig cd w = (Ok reg, w') /\
     SIG._supported_sigs reg = [] /\ SIG._enabled_sigs reg = [] /\
     trace w' = trace w ++ [Call_SIG_alg_count] /\
     forall n sk (w2 : world N),
       SIG.__init__ sig cd reg n sk w2
       = (Raise (new_MechanismNotSupportedError n), w2)).
Proof.
  intros N kem sig cd w. split.
  - intros Hcount.
    unfold KEM.module_init, KEM._KEM_alg_ids, bind, foreign.
    destruct (KEM.OQS_KEM_alg_count kem (native w)) as [count n1].
    simpl in *. rewrite (range_nonpos _ Hcount). simpl.
    do 2 eexists. split; [reflexivity|]. simpl.
    split; [reflexivity|]. split; [reflexivity|].
    split; [reflexivity|].
    intros n sk w2. now apply KEM_init_not_supported.
  - intros Hcount.
    unfold SIG.module_init, SIG._sig_alg_ids, bind, foreign.
    destruct (SIG.OQS_SIG_alg_count sig (native w)) as [count n1].
    simpl in *. rewrite (range_nonpos _ Hcount). simpl.
    do 2 eexists. split; [reflexivity|]. simpl.
    split; [reflexivity|]. split; [reflexivity|].
    split; [reflexivity|].
    intros n sk w2. now apply SIG_init_not_supported.
Qed.

Lemma X4_witness :
  exists reg w',
    KEM.module_init (Toy.kem_reporting (-1)) Toy.ascii_codec (Toy.boot 0%Z)
    = (Ok reg, w') /\
    KEM._supported_KEMs reg = [] /\
    KEM.__init__ (Toy.kem_reporting (-1)) Toy.ascii_codec reg "Kyber512"
      None w'
    = (Raise (new_MechanismNotSupportedError "Kyber512"), w').
Proof.
  destruct (X4_empty_registry_refuses_every_name Z (Toy.kem_reporting (-1))
              Toy.sig Toy.ascii_codec (Toy.boot 0%Z)) as [HK _].
  destruct HK as (reg & w' & Hrun & Hsup & _ & _ & Hinit).
  - vm_compute. discriminate.
  - exists reg, w'. split; [exact Hrun|]. split; [exact Hsup|]. apply Hinit.
Defined.

(** X5: when the identifier of some index below the count is NULL, and
    the identifiers before it are present and decode, building the
    registry raises [AttributeError]: all identifiers have been fetched
    by then, and no probe has run. *)
Theorem X5_NULL_identifier_fails_the_import :
  forall N (kem : KEM.library N) (sig : SIG.library N) (cd : codec)
         (identifier : Z -> option bytes) (i : Z) (w : world N),
  (forall j, (0 <= j < i)%Z ->
     exists b s, identifier j = Some b /\ decode cd b = Ok s) ->
  identifier i = None ->
  ((forall j n, fst (KEM.OQS_KEM_alg_identifier kem j n) = identifier j) ->
   (0 <= i < fst (KEM.OQS_KEM_alg_count kem (native w)))%Z ->
   exists w',
     KEM.module_init kem cd w
     = (Raise (builtin_error AttributeError
                 "'NoneType' object has no attribute 'decode'"), w') /\
     trace w'
     = trace w
       ++ Call_KEM_alg_count
          :: map Call_KEM_alg_identifier
               (range (fst (KEM.OQS_KEM_alg_count kem (native w))))) /\
  ((forall j n, fst (SIG.OQS_SIG_alg_identifier sig j n) = identifier j) ->
   (0 <= i < fst (SIG.OQS_SIG_alg_count sig (native w)))%Z ->
   exists w',
     SIG.module_init sig cd w
     = (Raise (builtin_error AttributeError
                 "'NoneType' object has no attribute 'decode'"), w') /\
     trace w'
     = trace w
       ++ Call_SIG_alg_count
          :: map Call_SIG_alg_identifier
               (range (fst (SIG.OQS_SIG_alg_count sig (native w))))).
Proof.
  intros N kem sig cd identifier i w Hbefore Hi.
  assert (forall n, (0 <= i < n)%Z ->
            exists pre post,
              map identifier (range n) = pre ++ None :: post /\
              Forall (fun id => exists b s,
                        id = Some b /\ decode cd b = Ok s) pre) as Hsplit.
  { intros n Hn. destruct (range_split i n Hn) as (rest & ->).
    rewrite map_app. simpl. rewrite Hi.
    exists (map identifier (range i)), (map identifier rest).
    split; [reflexivity|]. apply List.Forall_forall. intros id Hid.
    apply in_map_iff in Hid as (j & <- & Hj). apply In_range in Hj.
    now apply Hbefore. }
  split.
  - intros Hid Hcount.
    destruct (KEM_alg_ids_run kem w) as (ids & w1 & Hids & Htr).
    exists w1. split; [|exact Htr].
    rewrite (KEM_alg_ids_table kem identifier _ _ _ Hid Hids) in Hids.
    unfold KEM.module_init. rewrite (bind_Ok _ _ _ _ _ Hids).
    destruct (Hsplit _ Hcount) as (pre & post & -> & Hpre).
    unfold bind. now rewrite (list_comp_decode_NULL cd pre post w1 Hpre).
  - intros Hid Hcount.
    destruct (sig_alg_ids_run sig w) as (ids & w1 & Hids & Htr).
    exists w1. split; [|exact Htr].
    rewrite (sig_alg_ids_table sig identifier _ _ _ Hid Hids) in Hids.
    unfold SIG.module_init. rewrite (bind_Ok _ _ _ _ _ Hids).
    destruct (Hsplit _ Hcount) as (pre & post & -> & Hpre).
    unfold bind. now rewrite (list_comp_decode_NULL cd pre post w1 Hpre).
Qed.

Lemma X5_witness :
  exists w',
    KEM.module_init (Toy.kem_reporting 4) Toy.ascii_codec (Toy.boot 0%Z)
    = (Raise (builtin_error AttributeError
                "'NoneType' object has no attribute 'decode'"), w') /\
    trace w'
    = [] ++ Call_KEM_alg_count
         :: map Call_KEM_alg_identifier
              (range (fst (KEM.OQS_KEM_alg_count (Toy.kem_reporting 4)
                             (native (Toy.boot 0%Z))))).
Proof.
  destruct (X5_NULL_identifier_fails_the_import Z (Toy.kem_reporting 4)
              Toy.sig Toy.ascii_codec (Toy.identifier Toy.kem_table) 3%Z
              (Toy.boot 0%Z)) as [HK _].
  - intros j Hj.
    assert (j = 0 \/ j = 1 \/ j = 2)%Z as Hcases by lia.
    destruct Hcases as [E|[E|E]]; subst j; vm_compute; eauto.
  - reflexivity.
  - apply HK.
    + intros j n. reflexivity.
    + vm_compute. split; [discriminate | reflexivity].
Defined.

(** ** What a constructed object is *)

Section kem_constructed.
Context {N : Type} (liboqs : KEM.library N) (cd : codec) (reg : KEM.registry).

Lemma KEM_init_Ok_inv (n : string) sk (w : world N) self w1 :
  KEM.__init__ liboqs cd reg n sk w = (Ok self, w1) ->
  let arg := create_string_buffer_init (encode cd n) in
  let new := KEM.OQS_KEM_new liboqs arg (native w) in
  let c := KEM.read_OQS_KEM liboqs (fst new) (snd new) in
  list_contains n (KEM._enabled_KEMs reg) = true /\
  fst new <> NULL /\
  w1 = {| native := snd new; trace := trace w ++ [Call_KEM_new arg] |} /\
  KEM.alg_name self = n /\
  KEM._kem self = fst new /\
  (exists bn name bv version,
     KEM.method_name c = Some bn /\ decode cd bn = Ok name /\
     KEM.alg_version c = Some bv /\ decode cd bv = Ok version /\
     KEM.details self = KEM.details_dict c name version) /\
  match sk with
  | Some (b :: bs) =>
      length (b :: bs) <= KEM.length_secret_key c /\
      KEM.secret_key self
      = Some ((b :: bs)
              ++ repeat x00 (KEM.length_secret_key c - length (b :: bs)))
  | _ => KEM.secret_key self = None
  end.
Proof.
  intros H arg new c. unfold KEM.__init__ in H.
  destruct (list_contains n (KEM._enabled_KEMs reg)) eqn:He; simpl in H;
    [|destruct (list_contains n (KEM._supported_KEMs reg)); discriminate].
  apply bind_Ok_inv in H as ([] & w2 & Hu & H). inversion Hu; subst w2.
  apply bind_Ok_inv in H as (kem & w3 & Hnew & H).
  unfold foreign in Hnew. fold arg in Hnew.
  destruct (KEM.OQS_KEM_new liboqs arg (native w)) as [p n1] eqn:E.
  inversion Hnew; subst kem w3. clear Hnew.
  apply bind_Ok_inv in H as (c' & w4 & Hc & H).
  unfold contents in Hc. simpl in Hc.
  destruct (Z.eqb_spec p NULL) as [|Hp]; [discriminate|].
  inversion Hc; subst c' w4. clear Hc.
  apply bind_Ok_inv in H as (name & w5 & Hname & H).
  apply bind_Ok_inv in H as (version & w6 & Hver & H).
  simpl in new, c. fold c in Hname, Hver, H.
  destruct (KEM.method_name c) as [bn|] eqn:Ebn; simpl in Hname;
    [|discriminate].
  unfold lift_result in Hname.
  destruct (decode cd bn) as [name'|] eqn:Edn; inversion Hname; subst.
  destruct (KEM.alg_version c) as [bv|] eqn:Ebv; simpl in Hver;
    [|discriminate].
  unfold lift_result in Hver.
  destruct (decode cd bv) as [ver'|] eqn:Edv; inversion Hver; subst.
  split; [reflexivity|]. split; [exact Hp|].
  destruct sk as [[|b bs]|].
  - inversion H; subst; simpl. repeat split. eauto 10.
  - apply bind_Ok_inv in H as (s & w7 & Hs & H).
    unfold lift_result, create_string_buffer in Hs.
    destruct (Nat.ltb_spec (KEM.length_secret_key c) (length (b :: bs)));
      [discriminate|].
    inversion Hs; subst. inversion H; subst; simpl.
    repeat split; eauto 10.
  - inversion H; subst; simpl. repeat split. eauto 10.
Qed.

(** Whatever the outcome, a construction that passes the capability check
    makes the constructor call and no other. *)
Lemma KEM_init_enabled_world (n : string) sk (w : world N) :
  list_contains n (KEM._enabled_KEMs reg) = true ->
  let arg := create_string_buffer_init (encode cd n) in
  snd (KEM.__init__ liboqs cd reg n sk w)
  = {| native := snd (KEM.OQS_KEM_new liboqs arg (native w));
       trace := trace w ++ [Call_KEM_new arg] |}.
Proof.
  intros He arg. unfold KEM.__init__. rewrite He. simpl.
  unfold bind, foreign, contents, ret, lift_result. simpl. fold arg.
  destruct (KEM.OQS_KEM_new liboqs arg (native w)) as [p n1]. simpl.
  destruct (p =? NULL)%Z; [reflexivity|].
  destruct (KEM.method_name (KEM.read_OQS_KEM liboqs p n1)) as [bn|];
    simpl; [|reflexivity].
  destruct (decode cd bn); [|reflexivity].
  destruct (KEM.alg_version (KEM.read_OQS_KEM liboqs p n1)) as [bv|];
    simpl; [|reflexivity].
  destruct (decode cd bv); [|reflexivity].
  destruct sk as [[|b bs]|]; try reflexivity.
  now destruct (create_string_buffer _ _).
Qed.

Lemma KEM_repr_run (self : KEM.OQS_KEM) (w : world N) bn name :
  KEM._kem self <> NULL ->
  KEM.method_name (KEM.read_OQS_KEM liboqs (KEM._kem self) (native w))
  = Some bn ->
  decode cd bn = Ok name ->
  KEM.__repr__ liboqs cd self w
  = (Ok ("Key encapsulation mechanism: " +:+ name), w).
Proof.
  intros live Hbn Hname. unfold KEM.__repr__.
  rewrite (bind_Ok _ _ _ _ _ (contents_live _ _ w live)).
  now rewrite (bind_Ok _ _ _ _ _ (decode_c_char_p_Some _ _ _ _ w Hbn Hname)).
Qed.

End kem_constructed.


Section sig_constructed.
Context {N : Type} (liboqs : SIG.library N) (cd : codec) (reg : SIG.registry).

Lemma SIG_init_Ok_inv (n : string) sk (w : world N) self w1 :
  SIG.__init__ liboqs cd reg n sk w = (Ok self, w1) ->
  let arg := create_string_buffer_init (encode cd n) in
  let new := SIG.OQS_SIG_new liboqs arg (native w) in
  let c := SIG.read_OQS_SIG liboqs (fst new) (snd new) in
  list_contains n (SIG._enabled_sigs reg) = true /\
  fst new <> NULL /\
  w1 = {| native := snd new; trace := trace w ++ [Call_SIG_new arg] |} /\
  SIG._sig self = fst new /\
  (exists bn name bv version,
     SIG.method_name c = Some bn /\ decode cd bn = Ok name /\
     SIG.alg_version c = Some bv /\ decode cd bv = Ok version /\
     SIG.details self = SIG.details_dict c name version) /\
  match sk with
  | Some (b :: bs) =>
      length (b :: bs) <= SIG.length_secret_key c /\
      SIG.secret_key self
      = Some ((b :: bs)
              ++ repeat x00 (SIG.length_secret_key c - length (b :: bs)))
  | _ => SIG.secret_key self = None
  end.
Proof.
  intros H arg new c. unfold SIG.__init__ in H.
  destruct (list_contains n (SIG._enabled_sigs reg)) eqn:He; simpl in H;
    [|destruct (list_contains n (SIG._supported_sigs reg)); discriminate].
  apply bind_Ok_inv in H as ([] & w2 & Hu & H). inversion Hu; subst w2.
  apply bind_Ok_inv in H as (sig & w3 & Hnew & H).
  unfold foreign in Hnew. fold arg in Hnew.
  destruct (SIG.OQS_SIG_new liboqs arg (native w)) as [p n1] eqn:E.
  inversion Hnew; subst sig w3. clear Hnew.
  apply bind_Ok_inv in H as (c' & w4 & Hc & H).
  unfold contents in Hc. simpl in Hc.
  destruct (Z.eqb_spec p NULL) as [|Hp]; [discriminate|].
  inversion Hc; subst c' w4. clear Hc.
  apply bind_Ok_inv in H as (name & w5 & Hname & H).
  apply bind_Ok_inv in H as (version & w6 & Hver & H).
  simpl in new, c. fold c in Hname, Hver, H.
  destruct (SIG.method_name c) as [bn|] eqn:Ebn; simpl in Hname;
    [|discriminate].
  unfold lift_result in Hname.
  destruct (decode cd bn) as [name'|] eqn:Edn; inversion Hname; subst.
  destruct (SIG.alg_version c) as [bv|] eqn:Ebv; simpl in Hver;
    [|discriminate].
  unfold lift_result in Hver.
  destruct (decode cd bv) as [ver'|] eqn:Edv; inversion Hver; subst.
  split; [reflexivity|]. split; [exact Hp|].
  destruct sk as [[|b bs]|].
  - inversion H; subst; simpl. repeat split. eauto 10.
  - apply bind_Ok_inv in H as (s & w7 & Hs & H).
    unfold lift_result, create_string_buffer in Hs.
    destruct (Nat.ltb_spec (SIG.length_secret_key c) (length (b :: bs)));
      [discriminate|].
    inversion Hs; subst. inversion H; subst; simpl.
    repeat split; eauto 10.
  - inversion H; subst; simpl. repeat split. eauto 10.
Qed.

Lemma SIG_init_enabled_world (n : string) sk (w : world N) :
  list_contains n (SIG._enabled_sigs reg) = true ->
  let arg := create_string_buffer_init (encode cd n) in
  snd (SIG.__init__ liboqs cd reg n sk w)
  = {| native := snd (SIG.OQS_SIG_new liboqs arg (native w));
       trace := trace w ++ [Call_SIG_new arg] |}.
Proof.
  intros He arg. unfold SIG.__init__. rewrite He. simpl.
  unfold bind, foreign, contents, ret, lift_result. simpl. fold arg.
  destruct (SIG.OQS_SIG_new liboqs arg (native w)) as [p n1]. simpl.
  destruct (p =? NULL)%Z; [reflexivity|].
  destruct (SIG.method_name (SIG.read_OQS_SIG liboqs p n1)) as [bn|];
    simpl; [|reflexivity].
  destruct (decode cd bn); [|reflexivity].
  destruct (SIG.alg_version (SIG.read_OQS_SIG liboqs p n1)) as [bv|];
    simpl; [|reflexivity].
  destruct (decode cd bv); [|reflexivity].
  destruct sk as [[|b bs]|]; try reflexivity.
  now destruct (create_string_buffer _ _).
Qed.

Lemma SIG_repr_run (self : SIG.OQS_SIG) (w : world N) bn name :
  SIG._sig self <> NULL ->
  SIG.method_name (SIG.read_OQS_SIG liboqs (SIG._sig self) (native w))
  = Some bn ->
  decode cd bn = Ok name ->
  SIG.__repr__ liboqs cd self w
  = (Ok ("Signature mechanism: " +:+ name), w).
Proof.
  intros live Hbn Hname. unfold SIG.__repr__.
  rewrite (bind_Ok _ _ _ _ _ (contents_live _ _ w live)).
  now rewrite (bind_Ok _ _ _ _ _ (decode_c_char_p_Some _ _ _ _ w Hbn Hname)).
Qed.

End sig_constructed.

(** X6: whenever construction returns an object, in either family, the
    name is in the enabled list, the native constructor has been called
    exactly once and nothing else, the object's context pointer is the
    one that call returned and is not NULL, its details are read from
    that context, and it holds either no secret key or one of exactly
    [length_secret_key] bytes. *)
Theorem X6_constructed_object_is_live_and_sized :
  forall N (kem : KEM.library N) (sig : SIG.library N) (cd : codec),
  (forall reg (n : string) sk (w : world N) self w1,
     KEM.__init__ kem cd reg n sk w = (Ok self, w1) ->
     let arg := create_string_buffer_init (encode cd n) in
     let c := KEM.read_OQS_KEM kem (KEM._kem self) (native w1) in
     In n (KEM._enabled_KEMs reg) /\
     KEM._kem self = fst (KEM.OQS_KEM_new kem arg (native w)) /\
     KEM._kem self <> NULL /\
     native w1 = snd (KEM.OQS_KEM_new kem arg (native w)) /\
     trace w1 = trace w ++ [Call_KEM_new arg] /\
     KEM.alg_name self = n /\
     (exists name version,
        KEM.details self = KEM.details_dict c name version) /\
     (KEM.secret_key self = None \/
      exists k, KEM.secret_key self = Some k /\
                length k = KEM.length_secret_key c)) /\
  (forall reg (n : string) sk (w : world N) self w1,
     SIG.__init__ sig cd reg n sk w = (Ok self, w1) ->
     let arg := create_string_buffer_init (encode cd n) in
     let c := SIG.read_OQS_SIG sig (SIG._sig self) (native w1) in
     In n (SIG._enabled_sigs reg) /\
     SIG._sig self = fst (SIG.OQS_SIG_new sig arg (native w)) /\
     SIG._sig self <> NULL /\
     native w1 = snd (SIG.OQS_SIG_new sig arg (native w)) /\
     trace w1 = trace w ++ [Call_SIG_new arg] /\
     (exists name version,
        SIG.details self = SIG.details_dict c name version) /\
     (SIG.secret_key self = None \/
      exists k, SIG.secret_key self = Some k /\
                length k = SIG.length_secret_key c)).
Proof.
  intros N kem sig cd. split.
  - intros reg n sk w self w1 H arg c.
    destruct (KEM_init_Ok_inv kem cd reg n sk w self w1 H)
      as (He & Hp & -> & Hn & Hkem & Hd & Hsk).
    destruct Hd as (bn & name & bv & version & _ & _ & _ & _ & Hd).
    subst c. rewrite Hkem. simpl.
    split; [now apply list_contains_In|]. split; [reflexivity|].
    split; [exact Hp|]. split; [reflexivity|]. split; [reflexivity|].
    split; [exact Hn|]. split; [eauto|].
    destruct sk as [[|b bs]|]; try (now left).
    destruct Hsk as [Hlen Hsk]. right. eexists. split; [exact Hsk|].
    now apply length_padded.
  - intros reg n sk w self w1 H arg c.
    destruct (SIG_init_Ok_inv sig cd reg n sk w self w1 H)
      as (He & Hp & -> & Hsig & Hd & Hsk).
    destruct Hd as (bn & name & bv & version & _ & _ & _ & _ & Hd).
    subst c. rewrite Hsig. simpl.
    split; [now apply list_contains_In|]. split; [reflexivity|].
    split; [exact Hp|]. split; [reflexivity|]. split; [reflexivity|].
    split; [eauto|].
    destruct sk as [[|b bs]|]; try (now left).
    destruct Hsk as [Hlen Hsk]. right. eexists. split; [exact Hsk|].
    now apply length_padded.
Qed.

Lemma X6_witness :
  KEM._kem Toy.kyber <> NULL /\
  In "Kyber512" (KEM._enabled_KEMs Toy.kem_registry) /\
  KEM.secret_key Toy.kyber = None.
Proof.
  destruct (X6_constructed_object_is_live_and_sized Z Toy.kem Toy.sig
              Toy.ascii_codec) as [HK _].
  destruct (HK Toy.kem_registry "Kyber512" None (Toy.boot 0%Z) Toy.kyber
              (snd (KEM.__init__ Toy.kem Toy.ascii_codec Toy.kem_registry
                      "Kyber512" None (Toy.boot 0%Z))))
    as (Hin & _ & Hp & _).
  - vm_compute. reflexivity.
  - split; [exact Hp|]. split; [exact Hin | reflexivity].
Defined.

(** X7: a non-empty secret key supplied at construction is the key the
    object holds, padded with zero bytes up to [length_secret_key]:
    [export_secret_key] right after construction returns
    [length_secret_key] bytes that start with the supplied key and
    continue with zeros, and returns the supplied key itself when that
    has exactly [length_secret_key] bytes. *)
Theorem X7_supplied_secret_key_is_exported_padded :
  forall N (kem : KEM.library N) (sig : SIG.library N) (cd : codec),
  (forall reg (n : string) (k : bytes) (w : world N) self w1,
     KEM.__init__ kem cd reg n (Some k) w = (Ok self, w1) ->
     k <> [] ->
     let size :=
       KEM.length_secret_key
         (KEM.read_OQS_KEM kem (KEM._kem self) (native w1)) in
     length k <= size /\
     exists out,
       KEM.export_secret_key self w1 = (Ok out, w1) /\
       length out = size /\
       out = k ++ repeat x00 (size - length k) /\
       (length k = size -> out = k)) /\
  (forall reg (n : string) (k : bytes) (w : world N) self w1,
     SIG.__init__ sig cd reg n (Some k) w = (Ok self, w1) ->
     k <> [] ->
     let size :=
       SIG.length_secret_key
         (SIG.read_OQS_SIG sig (SIG._sig self) (native w1)) in
     length k <= size /\
     exists out,
       SIG.export_secret_key self w1 = (Ok out, w1) /\
       length out = size /\
       out = k ++ repeat x00 (size - length k) /\
       (length k = size -> out = k)).
Proof.
  intros N kem sig cd. split.
  - intros reg n k w self w1 H Hk size.
    destruct (KEM_init_Ok_inv kem cd reg n (Some k) w self w1 H)
      as (_ & _ & -> & _ & Hkem & _ & Hsk).
    destruct k as [|b bs]; [now destruct Hk|]. destruct Hsk as [Hlen Hsk].
    subst size. rewrite Hkem. simpl native. split; [exact Hlen|].
    eexists. rewrite KEM_export_secret_key_run, Hsk.
    split; [reflexivity|]. split; [now apply length_padded|].
    split; [reflexivity|].
    intros ->. now rewrite Nat.sub_diag, app_nil_r.
  - intros reg n k w self w1 H Hk size.
    destruct (SIG_init_Ok_inv sig cd reg n (Some k) w self w1 H)
      as (_ & _ & -> & Hsig & _ & Hsk).
    destruct k as [|b bs]; [now destruct Hk|]. destruct Hsk as [Hlen Hsk].
    subst size. rewrite Hsig. simpl native. split; [exact Hlen|].
    eexists. rewrite SIG_export_secret_key_run, Hsk.
    split; [reflexivity|]. split; [now apply length_padded|].
    split; [reflexivity|].
    intros ->. now rewrite Nat.sub_diag, app_nil_r.
Qed.

Lemma X7_witness :
  exists self w1,
    KEM.__init__ Toy.kem Toy.ascii_codec Toy.kem_registry "Kyber512"
      (Some [x0a; x0b; x0c]) (Toy.boot 0%Z) = (Ok self, w1) /\
    KEM.export_secret_key self w1
    = (Ok [x0a; x0b; x0c; x00; x00; x00], w1).
Proof.
  destruct (KEM.__init__ Toy.kem Toy.ascii_codec Toy.kem_registry "Kyber512"
              (Some [x0a; x0b; x0c]) (Toy.boot 0%Z)) as [[self|e] w1] eqn:E;
    [|vm_compute in E; discriminate].
  exists self, w1. split; [reflexivity|].
  destruct (X7_supplied_secret_key_is_exported_padded Z Toy.kem Toy.sig
              Toy.ascii_codec) as [HK _].
  destruct (HK _ _ _ _ _ _ E) as (_ & out & Hrun & _ & Hout & _);
    [discriminate|].
  rewrite Hrun, Hout. vm_compute in E. inversion E; subst. reflexivity.
Defined.

(** X8: with a native constructor whose answer depends on the name only,
    every name returned by [get_enabled_KEM_mechanisms] (or
    [get_enabled_sig_mechanisms]) gets a context that is not NULL from
    that constructor; constructing a handle for it, with any key, calls
    the constructor and nothing else, and without a key succeeds as soon
    as the context has a name and a version that decode. *)
Theorem X8_enabled_names_construct_a_live_handle :
  forall N (kem : KEM.library N) (sig : SIG.library N) (cd : codec),
  (forall (w0 : world N) reg w1 (new : bytes -> pointer),
     KEM.module_init kem cd w0 = (Ok reg, w1) ->
     (forall name st, fst (KEM.OQS_KEM_new kem name st) = new name) ->
     forall n, In n (KEM.get_enabled_KEM_mechanisms reg) ->
     let arg := create_string_buffer_init (encode cd n) in
     new arg <> NULL /\
     (forall sk (w : world N),
        trace (snd (KEM.__init__ kem cd reg n sk w))
        = trace w ++ [Call_KEM_new arg]) /\
     (forall (w : world N) bn name bv version,
        let c := KEM.read_OQS_KEM kem (new arg)
                   (snd (KEM.OQS_KEM_new kem arg (native w))) in
        KEM.method_name c = Some bn -> decode cd bn = Ok name ->
        KEM.alg_version c = Some bv -> decode cd bv = Ok version ->
        exists self w',
          KEM.__init__ kem cd reg n None w = (Ok self, w') /\
          KEM._kem self = new arg /\ KEM.secret_key self = None)) /\
  (forall (w0 : world N) reg w1 (new : bytes -> pointer),
     SIG.module_init sig cd w0 = (Ok reg, w1) ->
     (forall name st, fst (SIG.OQS_SIG_new sig name st) = new name) ->
     forall n, In n (SIG.get_enabled_sig_mechanisms reg) ->
     let arg := create_string_buffer_init (encode cd n) in
     new arg <> NULL /\
     (forall sk (w : world N),
        trace (snd (SIG.__init__ sig cd reg n sk w))
        = trace w ++ [Call_SIG_new arg]) /\
     (forall (w : world N) bn name bv version,
        let c := SIG.read_OQS_SIG sig (new arg)
                   (snd (SIG.OQS_SIG_new sig arg (native w))) in
        SIG.method_name c = Some bn -> decode cd bn = Ok name ->
        SIG.alg_version c = Some bv -> decode cd bv = Ok version ->
        exists self w',
          SIG.__init__ sig cd reg n None w = (Ok self, w') /\
          SIG._sig self = new arg /\ SIG.secret_key self = None)) .
Proof.
  intros N kem sig cd. split.
  - intros w0 reg w1 new Hreg Hnew n Hn arg.
    unfold KEM.get_enabled_KEM_mechanisms in Hn.
    pose proof (proj2 (list_contains_In _ _) Hn) as He.
    assert (new arg <> NULL) as Hp.
    { destruct (KEM_module_init_inv _ _ _ _ _ Hreg)
        as (ids & w2 & _ & _ & Hen).
      rewrite (KEM_enabled_filter kem cd new _ _ _ _ Hnew Hen) in Hn.
      apply filter_In in Hn as [_ Hn]. fold arg in Hn.
      destruct (Z.eqb_spec (new arg) NULL); [discriminate | assumption]. }
    split; [exact Hp|]. split.
    + intros sk w. now rewrite (KEM_init_enabled_world kem cd reg n sk w He).
    + intros w bn name bv version c Hbn Hname Hbv Hver.
      assert (fst (KEM.OQS_KEM_new kem arg (native w)) = new arg) as Efst
        by apply Hnew.
      destruct (KEM_init_enabled kem cd reg n None w name version He)
        as (_ & Hnone & _).
      * fold arg. now rewrite Efst.
      * fold arg. simpl native. rewrite Efst.
        now apply (decode_c_char_p_Some cd _ bn).
      * fold arg. simpl native. rewrite Efst.
        now apply (decode_c_char_p_Some cd _ bv).
      * destruct (Hnone eq_refl) as (self & Hrun & _ & Hkem & _ & Hsk).
        exists self. eexists. split; [exact Hrun|].
        split; [now rewrite Hkem | exact Hsk].
  - intros w0 reg w1 new Hreg Hnew n Hn arg.
    unfold SIG.get_enabled_sig_mechanisms in Hn.
    pose proof (proj2 (list_contains_In _ _) Hn) as He.
    assert (new arg <> NULL) as Hp.
    { destruct (sig_module_init_inv _ _ _ _ _ Hreg)
        as (ids & w2 & _ & _ & Hen).
      rewrite (sig_enabled_filter sig cd new _ _ _ _ Hnew Hen) in Hn.
      apply filter_In in Hn as [_ Hn]. fold arg in Hn.
      destruct (Z.eqb_spec (new arg) NULL); [discriminate | assumption]. }
    split; [exact Hp|]. split.
    + intros sk w. now rewrite (SIG_init_enabled_world sig cd reg n sk w He).
    + intros w bn name bv version c Hbn Hname Hbv Hver.
      assert (fst (SIG.OQS_SIG_new sig arg (native w)) = new arg) as Efst
        by apply Hnew.
      destruct (SIG_init_enabled sig cd reg n None w name version He)
        as (_ & Hnone & _).
      * fold arg. now rewrite Efst.
      * fold arg. simpl native. rewrite Efst.
        now apply (decode_c_char_p_Some cd _ bn).
      * fold arg. simpl native. rewrite Efst.
        now apply (decode_c_char_p_Some cd _ bv).
      * destruct (Hnone eq_refl) as (self & Hrun & Hsig & _ & Hsk).
        exists self. eexists. split; [exact Hrun|].
        split; [now rewrite Hsig | exact Hsk].
Qed.

Lemma X8_witness :
  Toy.lookup_new Toy.kem_table
    (string_of_list_byte
       (Toy.c_str (create_string_buffer_init
                     (encode Toy.ascii_codec "DEFAULT")))) 16%Z <> NULL /\
  exists self w',
    KEM.__init__ Toy.kem Toy.ascii_codec Toy.kem_registry "DEFAULT" None
      (Toy.boot 0%Z) = (Ok self, w') /\
    KEM.secret_key self = None.
Proof.
  destruct (X8_enabled_names_construct_a_live_handle Z Toy.kem Toy.sig
              Toy.ascii_codec) as [HK _].
  destruct (HK (Toy.boot 0%Z) Toy.kem_registry
              (snd (KEM.module_init Toy.kem Toy.ascii_codec (Toy.boot 0%Z)))
              (fun name =>
                 Toy.lookup_new Toy.kem_table
                   (string_of_list_byte (Toy.c_str name)) 16%Z)
              ltac:(vm_compute; reflexivity) (fun _ _ => eq_refl)
              "DEFAULT" ltac:(simpl; auto))
    as (Hp & _ & Hok).
  split; [exact Hp|].
  destruct (Hok (Toy.boot 0%Z) (list_byte_of_string "Kyber512") "Kyber512"
              (list_byte_of_string "r1") "r1"
              eq_refl eq_refl eq_refl eq_refl)
    as (self & w' & Hrun & _ & Hsk).
  exists self, w'. split; assumption.
Defined.

(** X9: on a constructed object, in the world construction left,
    [__repr__] returns the family's label followed by the name stored
    under ["name"] in the object's details, and makes no foreign call. *)
Theorem X9_repr_shows_the_name_in_details :
  forall N (kem : KEM.library N) (sig : SIG.library N) (cd : codec),
  (forall reg (n : string) sk (w : world N) self w1,
     KEM.__init__ kem cd reg n sk w = (Ok self, w1) ->
     exists name,
       In ("name", DStr name) (KEM.details self) /\
       KEM.__repr__ kem cd self w1
       = (Ok ("Key encapsulation mechanism: " +:+ name), w1)) /\
  (forall reg (n : string) sk (w : world N) self w1,
     SIG.__init__ sig cd reg n sk w = (Ok self, w1) ->
     exists name,
       In ("name", DStr name) (SIG.details self) /\
       SIG.__repr__ sig cd self w1
       = (Ok ("Signature mechanism: " +:+ name), w1)).
Proof.
  intros N kem sig cd. split.
  - intros reg n sk w self w1 H.
    destruct (KEM_init_Ok_inv kem cd reg n sk w self w1 H)
      as (_ & Hp & -> & _ & Hkem & Hd & _).
    destruct Hd as (bn & name & bv & version & Hbn & Hname & _ & _ & Hd).
    exists name. split; [rewrite Hd; now left|].
    apply (KEM_repr_run kem cd self _ bn name).
    + now rewrite Hkem.
    + rewrite Hkem. exact Hbn.
    + exact Hname.
  - intros reg n sk w self w1 H.
    destruct (SIG_init_Ok_inv sig cd reg n sk w self w1 H)
      as (_ & Hp & -> & Hsig & Hd & _).
    destruct Hd as (bn & name & bv & version & Hbn & Hname & _ & _ & Hd).
    exists name. split; [rewrite Hd; now left|].
    apply (SIG_repr_run sig cd self _ bn name).
    + now rewrite Hsig.
    + rewrite Hsig. exact Hbn.
    + exact Hname.
Qed.

Lemma X9_witness :
  exists name,
    In ("name", DStr name) (SIG.details Toy.dilithium) /\
    SIG.__repr__ Toy.sig Toy.ascii_codec Toy.dilithium
      (snd (SIG.__init__ Toy.sig Toy.ascii_codec Toy.sig_registry
              "Dilithium2" None (Toy.boot 0%Z)))
    = (Ok ("Signature mechanism: " +:+ name),
       snd (SIG.__init__ Toy.sig Toy.ascii_codec Toy.sig_registry
              "Dilithium2" None (Toy.boot 0%Z))).
Proof.
  destruct (X9_repr_shows_the_name_in_details Z Toy.kem Toy.sig
              Toy.ascii_codec) as [_ HS].
  apply (HS Toy.sig_registry "Dilithium2" None (Toy.boot 0%Z)).
  vm_compute. reflexivity.
Defined.

(** ** Decapsulation and signing *)

Lemma KEM_decap_secret_too_long {N} (liboqs : KEM.library N)
    (self : KEM.OQS_KEM) (w : world N) (ciphertext : bytes) :
  KEM._kem self <> NULL ->
  KEM.length_ciphertext (KEM.read_OQS_KEM liboqs (KEM._kem self) (native w))
  < length ciphertext ->
  KEM.decap_secret liboqs self ciphertext w
  = (Raise (builtin_error ValueError "byte string too long"), w).
Proof.
  intros live Hlen. unfold KEM.decap_secret.
  rewrite (bind_Ok _ _ _ _ _ (contents_live _ _ w live)).
  unfold bind at 1, lift_result.
  now rewrite (create_string_buffer_too_long _ _ Hlen).
Qed.

Lemma KEM_decap_secret_no_key {N} (liboqs : KEM.library N)
    (self : KEM.OQS_KEM) (w : world N) (ciphertext : bytes) :
  KEM._kem self <> NULL ->
  length ciphertext
  <= KEM.length_ciphertext
       (KEM.read_OQS_KEM liboqs (KEM._kem self) (native w)) ->
  KEM.secret_key self = None ->
  KEM.decap_secret liboqs self ciphertext w
  = (Raise (builtin_error AttributeError
              "'OQS_KEM' object has no attribute 'secret_key'"), w).
Proof.
  intros live Hlen Hsk. unfold KEM.decap_secret.
  rewrite (bind_Ok _ _ _ _ _ (contents_live _ _ w live)).
  unfold bind at 1, lift_result.
  rewrite (create_string_buffer_fits _ _ Hlen).
  rewrite (bind_Ok _ _ _ _ _ (contents_live _ _ w live)).
  unfold KEM.get_secret_key. now rewrite Hsk.
Qed.

(** X10: on a live KEM handle, [decap_secret] first copies the
    ciphertext: one longer than [length_ciphertext] raises [ValueError],
    held key or not.  Otherwise, without a held secret key it raises
    [AttributeError]; in both cases no foreign call is made.  With a held
    key it calls the native routine once, on the ciphertext padded with
    zeros to [length_ciphertext] bytes and on the held key, and returns
    [length_shared_secret] bytes when the status is 0 and the integer 0
    otherwise. *)
Theorem X10_decap_secret_outcomes :
  forall N (liboqs : KEM.library N) (self : KEM.OQS_KEM)
         (ciphertext : bytes) (w : world N),
  KEM._kem self <> NULL ->
  let kem := KEM._kem self in
  let c := KEM.read_OQS_KEM liboqs kem (native w) in
  (KEM.length_ciphertext c < length ciphertext ->
   KEM.decap_secret liboqs self ciphertext w
   = (Raise (builtin_error ValueError "byte string too long"), w)) /\
  (length ciphertext <= KEM.length_ciphertext c ->
   KEM.secret_key self = None ->
   exists e,
     KEM.decap_secret liboqs self ciphertext w = (Raise e, w) /\
     exc_type e = AttributeError) /\
  (length ciphertext <= KEM.length_ciphertext c ->
   forall secret_key,
   KEM.secret_key self = Some secret_key ->
   let my_ciphertext :=
     ciphertext ++ repeat x00 (KEM.length_ciphertext c - length ciphertext) in
   let ss0 := repeat x00 (KEM.length_shared_secret c) in
   let out :=
     KEM.OQS_KEM_decaps liboqs kem ss0 my_ciphertext secret_key (native w) in
   exists r,
     KEM.decap_secret liboqs self ciphertext w
     = (Ok r,
        {| native := snd out;
           trace := trace w
                    ++ [Call_KEM_decaps kem ss0 my_ciphertext secret_key] |})
     /\ length my_ciphertext = KEM.length_ciphertext c
     /\ (fst (fst out) = 0%Z ->
         exists shared_secret,
           r = PyBytes shared_secret /\
           length shared_secret = KEM.length_shared_secret c)
     /\ (fst (fst out) <> 0%Z -> r = PyInt 0)).
Proof.
  intros N liboqs self ciphertext w live kem c. split; [|split].
  - now apply KEM_decap_secret_too_long.
  - intros Hlen Hsk. eexists. split.
    + now apply KEM_decap_secret_no_key.
    + reflexivity.
  - intros Hlen secret_key Hsk my_ciphertext ss0 out.
    pose proof (KEM_decap_secret_run liboqs self w live ciphertext
                  secret_key Hsk Hlen) as Hrun.
    cbv zeta in Hrun. unfold create_string_buffer_size in Hrun.
    fold kem c my_ciphertext ss0 out in Hrun.
    eexists. split; [exact Hrun|].
    split; [now apply length_padded|]. split.
    + intros Hrv. rewrite Hrv. simpl. eexists. split; [reflexivity|].
      rewrite length_written. apply repeat_length.
    + intros Hrv.
      destruct (Z.eqb_spec (fst (fst out)) _OQS_SUCCESS) as [E|_];
        [now destruct Hrv | reflexivity].
Qed.

Lemma X10_witness :
  KEM.decap_secret Toy.kem Toy.kyber [xc1; xc2; xc3; xc4; xc5; xc6]
    (Toy.boot 0%Z)
  = (Raise (builtin_error ValueError "byte string too long"),
     Toy.boot 0%Z) /\
  (exists e,
     KEM.decap_secret Toy.kem Toy.kyber [xc1; xc2] (Toy.boot 0%Z)
     = (Raise e, Toy.boot 0%Z) /\
     exc_type e = AttributeError) /\
  (exists r w',
     KEM.decap_secret Toy.kem
       (KEM.set_secret_key Toy.kyber [x0a; x0b; x0c; x0d; x0e; x0f])
       [xc1; xc2] (Toy.boot 0%Z) = (Ok r, w') /\
     exists shared_secret, r = PyBytes shared_secret /\
                           length shared_secret = 3).
Proof.
  split; [|split].
  - destruct (X10_decap_secret_outcomes Z Toy.kem Toy.kyber
                [xc1; xc2; xc3; xc4; xc5; xc6] (Toy.boot 0%Z))
      as (Hlong & _); [vm_compute; discriminate|].
    apply Hlong. vm_compute. lia.
  - destruct (X10_decap_secret_outcomes Z Toy.kem Toy.kyber
                [xc1; xc2] (Toy.boot 0%Z))
      as (_ & Hnokey & _); [vm_compute; discriminate|].
    apply Hnokey; [vm_compute; lia | reflexivity].
  - destruct (X10_decap_secret_outcomes Z Toy.kem
                (KEM.set_secret_key Toy.kyber [x0a; x0b; x0c; x0d; x0e; x0f])
                [xc1; xc2] (Toy.boot 0%Z))
      as (_ & _ & Hkey); [vm_compute; discriminate|].
    destruct (Hkey ltac:(vm_compute; lia) _ eq_refl)
      as (r & Hrun & _ & Hok & _).
    exists r. eexists. split; [exact Hrun|]. apply Hok. reflexivity.
Defined.

Lemma c_int_small (v : Z) :
  (0 <= v < 2147483648)%Z -> c_int v = v.
Proof. intros H. unfold c_int. rewrite Z.mod_small; lia. Qed.

Lemma slice_to_prefix (buf : bytes) (n : Z) :
  exists m, m <= length buf /\ slice_to buf n = take m buf.
Proof.
  unfold slice_to. destruct (n <? 0)%Z.
  - exists (Nat.min (Z.to_nat (Z.of_nat (length buf) + n)) (length buf)).
    split; [lia|].
    destruct (Nat.le_ge_cases (Z.to_nat (Z.of_nat (length buf) + n))
                (length buf)) as [H|H].
    + now rewrite Nat.min_l.
    + rewrite Nat.min_r by exact H. now rewrite !firstn_all2 by lia.
  - exists (Nat.min (Z.to_nat n) (length buf)). split; [lia|].
    destruct (Nat.le_ge_cases (Z.to_nat n) (length buf)) as [H|H].
    + now rewrite Nat.min_l.
    + rewrite Nat.min_r by exact H. now rewrite !firstn_all2 by lia.
Qed.

Lemma slice_to_in_range (buf : bytes) (n : Z) :
  (0 <= n <= Z.of_nat (length buf))%Z ->
  slice_to buf n = take (Z.to_nat n) buf /\
  length (slice_to buf n) = Z.to_nat n.
Proof.
  intros H. unfold slice_to.
  destruct (Z.ltb_spec n 0); [lia|]. split; [reflexivity|].
  rewrite length_take. lia.
Qed.

Lemma SIG_sign_no_key {N} (liboqs : SIG.library N) (self : SIG.OQS_SIG)
    (w : world N) (message : bytes) :
  SIG._sig self <> NULL ->
  SIG.secret_key self = None ->
  SIG.sign liboqs self message w
  = (Raise (builtin_error AttributeError
              "'OQS_SIG' object has no attribute 'secret_key'"), w).
Proof.
  intros live Hsk. unfold SIG.sign.
  unfold bind at 1, lift_result. rewrite create_string_buffer_exact.
  rewrite (bind_Ok _ _ _ _ _ (contents_live _ _ w live)).
  unfold SIG.get_secret_key. now rewrite Hsk.
Qed.

(** X11: on a live signature handle, [sign] without a held secret key
    raises [AttributeError] before any foreign call.  With a held key it
    never raises: it calls the native routine once, on the message bytes
    exactly as given (no terminator is added, whatever bytes the message
    holds), the message length, a zeroed signature buffer of
    [length_signature] bytes and the held key.  On status 0 it returns a
    prefix of the signature buffer, the first [n] bytes when the native
    routine reports a length [n] between 0 and [length_signature]; on any
    other status it returns the integer 0. *)
Theorem X11_sign_outcomes :
  forall N (liboqs : SIG.library N) (self : SIG.OQS_SIG) (message : bytes)
         (w : world N),
  SIG._sig self <> NULL ->
  let sig := SIG._sig self in
  let c := SIG.read_OQS_SIG liboqs sig (native w) in
  (SIG.secret_key self = None ->
   exists e,
     SIG.sign liboqs self message w = (Raise e, w) /\
     exc_type e = AttributeError) /\
  (forall secret_key,
   SIG.secret_key self = Some secret_key ->
   let message_len := c_int (Z.of_nat (length message)) in
   let sig0 := repeat x00 (SIG.length_signature c) in
   let out :=
     SIG.OQS_SIG_sign liboqs sig sig0 0%Z message message_len secret_key
       (native w) in
   let buffer := written sig0 (snd (fst (fst out))) in
   let n := c_int (snd (fst out)) in
   exists r,
     SIG.sign liboqs self message w
     = (Ok r,
        {| native := snd out;
           trace := trace w
                    ++ [Call_SIG_sign sig sig0 0%Z message message_len
                          secret_key] |}) /\
     ((Z.of_nat (length message) < 2147483648)%Z ->
      message_len = Z.of_nat (length message)) /\
     length buffer = SIG.length_signature c /\
     (fst (fst (fst out)) = 0%Z ->
      exists signature m,
        r = PyBytes signature /\
        m <= SIG.length_signature c /\ signature = take m buffer /\
        ((0 <= n <= Z.of_nat (SIG.length_signature c))%Z ->
         signature = take (Z.to_nat n) buffer /\
         length signature = Z.to_nat n)) /\
     (fst (fst (fst out)) <> 0%Z -> r = PyInt 0)).
Proof.
  intros N liboqs self message w live sig c. split.
  - intros Hsk. eexists. split; [now apply SIG_sign_no_key | reflexivity].
  - intros secret_key Hsk message_len sig0 out buffer n.
    pose proof (SIG_sign_run liboqs self w live message secret_key Hsk)
      as Hrun.
    cbv zeta in Hrun. unfold create_string_buffer_size in Hrun.
    change (c_int 0) with 0%Z in Hrun.
    fold sig c message_len sig0 out buffer n in Hrun.
    assert (length buffer = SIG.length_signature c) as Hbuf.
    { unfold buffer. rewrite length_written. apply repeat_length. }
    eexists. split; [exact Hrun|]. split; [|split; [exact Hbuf|split]].
    + intros Hm. apply c_int_small. lia.
    + intros Hrv. rewrite Hrv. simpl.
      destruct (slice_to_prefix buffer n) as (m & Hm & Hs).
      exists (slice_to buffer n), m.
      split; [reflexivity|]. split; [now rewrite <- Hbuf|].
      split; [exact Hs|].
      intros Hn. apply slice_to_in_range. now rewrite Hbuf.
    + intros Hrv.
      destruct (Z.eqb_spec (fst (fst (fst out))) _OQS_SUCCESS) as [E|_];
        [now destruct Hrv | reflexivity].
Qed.

Lemma X11_witness :
  (exists e,
     SIG.sign Toy.sig Toy.dilithium [x68; x00; x69] (Toy.boot 0%Z)
     = (Raise e, Toy.boot 0%Z) /\ exc_type e = AttributeError) /\
  SIG.sign Toy.sig
    (SIG.set_secret_key Toy.dilithium [x0a; x0b; x0c; x0d; x0e; x0f])
    [x68; x00; x69] (Toy.boot 0%Z)
  = (Ok (PyBytes [xe1; xe2; xe3; xe4; xe5; xe6; xe7]),
     {| native := 0%Z;
        trace := [Call_SIG_sign 16%Z
                    [x00; x00; x00; x00; x00; x00; x00; x00] 0%Z
                    [x68; x00; x69] 3%Z
                    [x0a; x0b; x0c; x0d; x0e; x0f]] |}).
Proof.
  split.
  - destruct (X11_sign_outcomes Z Toy.sig Toy.dilithium [x68; x00; x69]
                (Toy.boot 0%Z)) as (Hnokey & _);
      [vm_compute; discriminate|].
    apply Hnokey. reflexivity.
  - destruct (X11_sign_outcomes Z Toy.sig
                (SIG.set_secret_key Toy.dilithium
                   [x0a; x0b; x0c; x0d; x0e; x0f])
                [x68; x00; x69] (Toy.boot 0%Z)) as (_ & Hkey);
      [vm_compute; discriminate|].
    destruct (Hkey _ eq_refl) as (r & Hrun & _ & _ & Hok & _).
    rewrite Hrun.
    destruct (Hok eq_refl) as (signature & m & -> & _ & _ & Hn).
    destruct Hn as [-> _]; [vm_compute; split; discriminate|].
    reflexivity.
Defined.

(** ** Using the generated key *)

(** X12: [generate_keypair] followed by [decap_secret] (or by [sign]) on
    the same live object hands the native routine the secret-key buffer
    that the native keypair routine has just filled, whatever key the
    object held before; the two foreign calls are the only ones made. *)
Theorem X12_the_generated_key_is_the_one_used :
  forall N (kem_lib : KEM.library N) (sig_lib : SIG.library N),
  (forall (self : KEM.OQS_KEM) (ciphertext : bytes) (w : world N),
     KEM._kem self <> NULL ->
     let kem := KEM._kem self in
     let c := KEM.read_OQS_KEM kem_lib kem (native w) in
     let pk0 := repeat x00 (KEM.length_public_key c) in
     let sk0 := repeat x00 (KEM.length_secret_key c) in
     let out := KEM.OQS_KEM_keypair kem_lib kem pk0 sk0 (native w) in
     let generated := written sk0 (snd (fst out)) in
     let c1 := KEM.read_OQS_KEM kem_lib kem (snd out) in
     length ciphertext <= KEM.length_ciphertext c1 ->
     exists r w2 ss0 ct,
       (let! g := KEM.generate_keypair kem_lib self in
        KEM.decap_secret kem_lib (snd g) ciphertext) w = (Ok r, w2) /\
       trace w2 = trace w ++ [Call_KEM_keypair kem pk0 sk0;
                              Call_KEM_decaps kem ss0 ct generated]) /\
  (forall (self : SIG.OQS_SIG) (message : bytes) (w : world N),
     SIG._sig self <> NULL ->
     let sig := SIG._sig self in
     let c := SIG.read_OQS_SIG sig_lib sig (native w) in
     let pk0 := repeat x00 (SIG.length_public_key c) in
     let sk0 := repeat x00 (SIG.length_secret_key c) in
     let out := SIG.OQS_SIG_keypair sig_lib sig pk0 sk0 (native w) in
     let generated := written sk0 (snd (fst out)) in
     exists r w2 sig0 n0 len,
       (let! g := SIG.generate_keypair sig_lib self in
        SIG.sign sig_lib (snd g) message) w = (Ok r, w2) /\
       trace w2 = trace w ++ [Call_SIG_keypair sig pk0 sk0;
                              Call_SIG_sign sig sig0 n0 message len
                                generated]).
Proof.
  intros N kem_lib sig_lib. split.
  - intros self ciphertext w live kem c pk0 sk0 out generated c1 Hlen.
    pose proof (KEM_generate_keypair_run kem_lib self w live) as Hg.
    cbv zeta in Hg. unfold create_string_buffer_size in Hg.
    fold kem c pk0 sk0 out generated in Hg.
    rewrite (bind_Ok _ _ _ _ _ Hg). simpl snd.
    rewrite (KEM_decap_secret_run kem_lib
               (KEM.set_secret_key self generated)
               {| native := snd out;
                  trace := trace w ++ [Call_KEM_keypair kem pk0 sk0] |}
               live ciphertext generated eq_refl Hlen).
    do 4 eexists. split; [reflexivity|]. simpl.
    now rewrite <- app_assoc.
  - intros self message w live sig c pk0 sk0 out generated.
    pose proof (SIG_generate_keypair_run sig_lib self w live) as Hg.
    cbv zeta in Hg. unfold create_string_buffer_size in Hg.
    fold sig c pk0 sk0 out generated in Hg.
    rewrite (bind_Ok _ _ _ _ _ Hg). simpl snd.
    rewrite (SIG_sign_run sig_lib (SIG.set_secret_key self generated)
               {| native := snd out;
                  trace := trace w ++ [Call_SIG_keypair sig pk0 sk0] |}
               live message generated eq_refl).
    do 5 eexists. split; [reflexivity|]. simpl.
    now rewrite <- app_assoc.
Qed.

Lemma X12_witness :
  exists r w2 ss0 ct,
    (let! g := KEM.generate_keypair Toy.kem
                 (KEM.set_secret_key Toy.kyber
                    [x11; x22; x33; x44; x55; x66]) in
     KEM.decap_secret Toy.kem (snd g) [xc1; xc2; xc3; xc4; xc5])
      (Toy.boot 0%Z) = (Ok r, w2) /\
    trace w2 = [Call_KEM_keypair 32%Z [x00; x00; x00; x00]
                  [x00; x00; x00; x00; x00; x00];
                Call_KEM_decaps 32%Z ss0 ct
                  [x0a; x0b; x0c; x0d; x0e; x0f]].
Proof.
  destruct (X12_the_generated_key_is_the_one_used Z Toy.kem Toy.sig)
    as [HK _].
  apply (HK (KEM.set_secret_key Toy.kyber [x11; x22; x33; x44; x55; x66])
            [xc1; xc2; xc3; xc4; xc5] (Toy.boot 0%Z)).
  - vm_compute. discriminate.
  - vm_compute. lia.
Defined.

(** ** Secret keys keep their size *)

Section kem_key_size.
Context {N : Type} (liboqs : KEM.library N).

Lemma KEM_invoke_generate_inv self (w : world N) self' w' :
  KEM.invoke liboqs KEM.Generate_keypair self w = (Ok self', w') ->
  KEM._kem self <> NULL /\
  exists k,
    self' = KEM.set_secret_key self k /\
    length k
    = KEM.length_secret_key
        (KEM.read_OQS_KEM liboqs (KEM._kem self) (native w)).
Proof.
  intros H. simpl in H. apply bind_Ok_inv in H as (r & w1 & Hg & H).
  inversion H; subst. clear H.
  destruct (Z.eq_dec (KEM._kem self) NULL) as [E|live].
  - unfold KEM.generate_keypair, KEM.generate_keypair_buffers in Hg.
    rewrite E in Hg. unfold bind at 1 in Hg. unfold bind at 1 in Hg.
    rewrite contents_NULL in Hg. discriminate.
  - split; [exact live|].
    rewrite (KEM_generate_keypair_run liboqs self w live) in Hg.
    inversion Hg; subst. simpl. eexists. split; [reflexivity|].
    rewrite length_written. apply length_create_string_buffer_size.
Qed.

End kem_key_size.

Section sig_key_size.
Context {N : Type} (liboqs : SIG.library N).

Lemma SIG_invoke_generate_inv self (w : world N) self' w' :
  SIG.invoke liboqs SIG.Generate_keypair self w = (Ok self', w') ->
  SIG._sig self <> NULL /\
  exists k,
    self' = SIG.set_secret_key self k /\
    length k
    = SIG.length_secret_key
        (SIG.read_OQS_SIG liboqs (SIG._sig self) (native w)).
Proof.
  intros H. simpl in H. apply bind_Ok_inv in H as (r & w1 & Hg & H).
  inversion H; subst. clear H.
  destruct (Z.eq_dec (SIG._sig self) NULL) as [E|live].
  - unfold SIG.generate_keypair, SIG.generate_keypair_buffers in Hg.
    rewrite E in Hg. unfold bind at 1 in Hg. unfold bind at 1 in Hg.
    rewrite contents_NULL in Hg. discriminate.
  - split; [exact live|].
    rewrite (SIG_generate_keypair_run liboqs self w live) in Hg.
    inversion Hg; subst. simpl. eexists. split; [reflexivity|].
    rewrite length_written. apply length_create_string_buffer_size.
Qed.

End sig_key_size.

(** X13: take an object whose context reports the same
    [length_secret_key] in every native state, and that holds no secret
    key or one of that size.  After any sequence of method calls that
    runs to its end, the object has the same context pointer and details
    as before and still holds no secret key or one of exactly that
    size. *)
Theorem X13_held_secret_key_keeps_the_context_size :
  forall N (kem_lib : KEM.library N) (sig_lib : SIG.library N) (size : nat),
  (forall (ms : list KEM.method) (self : KEM.OQS_KEM) (w : world N) self' w',
     (forall st,
        KEM.length_secret_key (KEM.read_OQS_KEM kem_lib (KEM._kem self) st)
        = size) ->
     (forall k, KEM.secret_key self = Some k -> length k = size) ->
     KEM.invoke_all kem_lib ms self w = (Ok self', w') ->
     KEM._kem self' = KEM._kem self /\
     KEM.alg_name self' = KEM.alg_name self /\
     KEM.details self' = KEM.details self /\
     (forall k, KEM.secret_key self' = Some k -> length k = size)) /\
  (forall (ms : list SIG.method) (self : SIG.OQS_SIG) (w : world N) self' w',
     (forall st,
        SIG.length_secret_key (SIG.read_OQS_SIG sig_lib (SIG._sig self) st)
        = size) ->
     (forall k, SIG.secret_key self = Some k -> length k = size) ->
     SIG.invoke_all sig_lib ms self w = (Ok self', w') ->
     SIG._sig self' = SIG._sig self /\
     SIG.details self' = SIG.details self /\
     (forall k, SIG.secret_key self' = Some k -> length k = size)).
Proof.
  intros N kem_lib sig_lib size. split.
  - induction ms as [|m ms IH]; simpl; intros self w self' w' Hsize Hkey H.
    + inversion H; subst. repeat split; auto.
    + apply bind_Ok_inv in H as (self1 & w1 & H1 & H).
      assert (m = KEM.Generate_keypair \/ m <> KEM.Generate_keypair)
        as [->|Hm] by (destruct m; (now left) || (right; discriminate)).
      * apply KEM_invoke_generate_inv in H1 as (_ & k & -> & Hk).
        rewrite Hsize in Hk.
        assert (forall k', KEM.secret_key (KEM.set_secret_key self k)
                           = Some k' -> length k' = size) as Hkey'
          by (intros k' E; simpl in E; congruence).
        destruct (IH (KEM.set_secret_key self k) w1 self' w' Hsize Hkey' H)
          as (Hp & Ha & Hd & Hs).
        repeat split; assumption.
      * apply (KEM_invoke_keeps_object kem_lib) in H1 as ->; [|exact Hm].
        now apply (IH _ _ _ _ Hsize Hkey H).
  - induction ms as [|m ms IH]; simpl; intros self w self' w' Hsize Hkey H.
    + inversion H; subst. repeat split; auto.
    + apply bind_Ok_inv in H as (self1 & w1 & H1 & H).
      assert (m = SIG.Generate_keypair \/ m <> SIG.Generate_keypair)
        as [->|Hm] by (destruct m; (now left) || (right; discriminate)).
      * apply SIG_invoke_generate_inv in H1 as (_ & k & -> & Hk).
        rewrite Hsize in Hk.
        assert (forall k', SIG.secret_key (SIG.set_secret_key self k)
                           = Some k' -> length k' = size) as Hkey'
          by (intros k' E; simpl in E; congruence).
        destruct (IH (SIG.set_secret_key self k) w1 self' w' Hsize Hkey' H)
          as (Hp & Hd & Hs).
        repeat split; assumption.
      * apply (SIG_invoke_keeps_object sig_lib) in H1 as ->; [|exact Hm].
        now apply (IH _ _ _ _ Hsize Hkey H).
Qed.

Lemma X13_witness :
  exists self' w',
    KEM.invoke_all Toy.kem
      [KEM.Generate_keypair; KEM.Encap_secret [x01; x02]; KEM.Free]
      (KEM.set_secret_key Toy.kyber [x11; x22; x33; x44; x55; x66])
      (Toy.boot 0%Z) = (Ok self', w') /\
    KEM._kem self' = 32%Z /\
    forall k, KEM.secret_key self' = Some k -> length k = 6.
Proof.
  destruct (KEM.invoke_all Toy.kem
              [KEM.Generate_keypair; KEM.Encap_secret [x01; x02]; KEM.Free]
              (KEM.set_secret_key Toy.kyber [x11; x22; x33; x44; x55; x66])
              (Toy.boot 0%Z)) as [[self'|e] w'] eqn:E;
    [|vm_compute in E; discriminate].
  exists self', w'. split; [reflexivity|].
  destruct (X13_held_secret_key_keeps_the_context_size Z Toy.kem Toy.sig 6)
    as [HK _].
  assert (forall k,
            KEM.secret_key
              (KEM.set_secret_key Toy.kyber [x11; x22; x33; x44; x55; x66])
            = Some k -> length k = 6) as Hkey
    by (intros k Hk; inversion Hk; reflexivity).
  destruct (HK [KEM.Generate_keypair; KEM.Encap_secret [x01; x02]; KEM.Free]
              (KEM.set_secret_key Toy.kyber [x11; x22; x33; x44; x55; x66])
              (Toy.boot 0%Z) self' w' (fun _ => eq_refl) Hkey E)
    as (Hp & _ & _ & Hs).
  split; [exact Hp | exact Hs].
Defined.

(** ** Scoped use *)

Section kem_scoped.
Context {N : Type} (liboqs : KEM.library N).

(** A method other than [free] makes no native free call, whether it
    returns or raises. *)
Lemma KEM_invoke_free_calls (p : pointer) (m : KEM.method) self (w : world N) :
  m <> KEM.Free ->
  free_calls p (trace (snd (KEM.invoke liboqs m self w)))
  = free_calls p (trace w).
Proof.
  intros Hm.
  destruct m; try (now destruct Hm); simpl;
    unfold KEM.generate_keypair, KEM.generate_keypair_buffers,
      KEM.generate_keypair_call, KEM.export_secret_key,
      KEM.encap_secret, KEM.decap_secret, KEM.get_secret_key,
      bind, contents, foreign, lift_result, create_string_buffer,
      ret, raise; simpl;
    repeat (case_match; simpl; try reflexivity);
    simplify_eq; simpl;
    rewrite ?free_calls_app; unfold free_calls; simpl; lia.
Qed.

Lemma KEM_invoke_all_free_calls (p : pointer) ms self (w : world N) :
  ~ In KEM.Free ms ->
  free_calls p (trace (snd (KEM.invoke_all liboqs ms self w)))
  = free_calls p (trace w).
Proof.
  revert self w. induction ms as [|m ms IH]; simpl; intros self w Hms.
  - reflexivity.
  - assert (m <> KEM.Free) as Hm by (intros ->; tauto).
    pose proof (KEM_invoke_free_calls p m self w Hm) as H1.
    unfold bind.
    destruct (KEM.invoke liboqs m self w) as [[self1|e] w1]; simpl in *.
    + rewrite IH by tauto. exact H1.
    + exact H1.
Qed.

End kem_scoped.

Section sig_scoped.
Context {N : Type} (liboqs : SIG.library N).

Lemma SIG_invoke_free_calls (p : pointer) (m : SIG.method) self (w : world N) :
  m <> SIG.Free ->
  free_calls p (trace (snd (SIG.invoke liboqs m self w)))
  = free_calls p (trace w).
Proof.
  intros Hm.
  destruct m; try (now destruct Hm); simpl;
    unfold SIG.generate_keypair, SIG.generate_keypair_buffers,
      SIG.generate_keypair_call, SIG.export_secret_key,
      SIG.sign, SIG.verify, SIG.get_secret_key,
      bind, contents, foreign, lift_result, create_string_buffer,
      ret, raise; simpl;
    repeat (case_match; simpl; try reflexivity);
    simplify_eq; simpl;
    rewrite ?free_calls_app; unfold free_calls; simpl; lia.
Qed.

Lemma SIG_invoke_all_free_calls (p : pointer) ms self (w : world N) :
  ~ In SIG.Free ms ->
  free_calls p (trace (snd (SIG.invoke_all liboqs ms self w)))
  = free_calls p (trace w).
Proof.
  revert self w. induction ms as [|m ms IH]; simpl; intros self w Hms.
  - reflexivity.
  - assert (m <> SIG.Free) as Hm by (intros ->; tauto).
    pose proof (SIG_invoke_free_calls p m self w Hm) as H1.
    unfold bind.
    destruct (SIG.invoke liboqs m self w) as [[self1|e] w1]; simpl in *.
    + rewrite IH by tauto. exact H1.
    + exact H1.
Qed.

End sig_scoped.

(** X14: a [with] block over a handle of either family whose body is a
    sequence of method calls without [free] makes exactly one native free
    call on the handle's context, as its last foreign call, whether the
    body runs to its end or raises; the block returns what the body
    returned, and an exception of the body is raised again after the
    release. *)
Theorem X14_with_block_frees_exactly_once :
  forall N (kem_lib : KEM.library N) (sig_lib : SIG.library N),
  (forall (ms : list KEM.method) (self : KEM.OQS_KEM) (w : world N),
     ~ In KEM.Free ms ->
     let p := KEM._kem self in
     let block := KEM.invoke_all kem_lib ms in
     let scoped :=
       with_statement KEM.__enter__ (KEM.__exit__ kem_lib) self block in
     free_calls p (trace (snd (scoped w))) = free_calls p (trace w) + 1 /\
     trace (snd (scoped w))
     = trace (snd (block self w)) ++ [Call_KEM_free p] /\
     (forall self' w1, block self w = (Ok self', w1) ->
        fst (scoped w) = Ok self') /\
     (forall e w1, block self w = (Raise e, w1) ->
        fst (scoped w) = Raise e)) /\
  (forall (ms : list SIG.method) (self : SIG.OQS_SIG) (w : world N),
     ~ In SIG.Free ms ->
     let p := SIG._sig self in
     let block := SIG.invoke_all sig_lib ms in
     let scoped :=
       with_statement SIG.__enter__ (SIG.__exit__ sig_lib) self block in
     free_calls p (trace (snd (scoped w))) = free_calls p (trace w) + 1 /\
     trace (snd (scoped w))
     = trace (snd (block self w)) ++ [Call_SIG_free p] /\
     (forall self' w1, block self w = (Ok self', w1) ->
        fst (scoped w) = Ok self') /\
     (forall e w1, block self w = (Raise e, w1) ->
        fst (scoped w) = Raise e)).
Proof.
  intros N kem_lib sig_lib. split.
  - intros ms self w Hms p block scoped.
    pose proof (KEM_invoke_all_free_calls kem_lib p ms self w Hms) as Hcount.
    fold block in Hcount.
    assert (scoped w
            = (fst (block self w),
               {| native := snd (KEM.OQS_KEM_free kem_lib p
                                   (native (snd (block self w))));
                  trace := trace (snd (block self w))
                           ++ [Call_KEM_free p] |})) as Hrun.
    { unfold scoped, with_statement, KEM.__enter__, KEM.__exit__.
      unfold bind at 1. unfold ret at 1.
      destruct (block self w) as [[self'|e] w1]; unfold bind;
        rewrite KEM_free_run; reflexivity. }
    rewrite Hrun. simpl. split; [|split; [reflexivity|split]].
    + rewrite free_calls_app, Hcount. unfold free_calls. simpl.
      now rewrite Z.eqb_refl.
    + now intros self' w1 ->.
    + now intros e w1 ->.
  - intros ms self w Hms p block scoped.
    pose proof (SIG_invoke_all_free_calls sig_lib p ms self w Hms) as Hcount.
    fold block in Hcount.
    assert (scoped w
            = (fst (block self w),
               {| native := snd (SIG.OQS_SIG_free sig_lib p
                                   (native (snd (block self w))));
                  trace := trace (snd (block self w))
                           ++ [Call_SIG_free p] |})) as Hrun.
    { unfold scoped, with_statement, SIG.__enter__, SIG.__exit__.
      unfold bind at 1. unfold ret at 1.
      destruct (block self w) as [[self'|e] w1]; unfold bind;
        rewrite SIG_free_run; reflexivity. }
    rewrite Hrun. simpl. split; [|split; [reflexivity|split]].
    + rewrite free_calls_app, Hcount. unfold free_calls. simpl.
      now rewrite Z.eqb_refl.
    + now intros self' w1 ->.
    + now intros e w1 ->.
Qed.

Lemma X14_witness :
  free_calls 32%Z
    (trace (snd (with_statement KEM.__enter__ (KEM.__exit__ Toy.kem)
                   Toy.kyber
                   (KEM.invoke_all Toy.kem
                      [KEM.Generate_keypair; KEM.Export_secret_key;
                       KEM.Decap_secret [xc1; xc2; xc3; xc4; xc5; xc6]])
                   (Toy.boot 0%Z)))) = 1 /\
  fst (with_statement KEM.__enter__ (KEM.__exit__ Toy.kem) Toy.kyber
         (KEM.invoke_all Toy.kem
            [KEM.Generate_keypair; KEM.Export_secret_key;
             KEM.Decap_secret [xc1; xc2; xc3; xc4; xc5; xc6]])
         (Toy.boot 0%Z))
  = Raise (builtin_error ValueError "byte string too long").
Proof.
  destruct (X14_with_block_frees_exactly_once Z Toy.kem Toy.sig) as [HK _].
  destruct (HK [KEM.Generate_keypair; KEM.Export_secret_key;
                KEM.Decap_secret [xc1; xc2; xc3; xc4; xc5; xc6]]
              Toy.kyber (Toy.boot 0%Z)) as (Hcount & _ & _ & Hraise).
  - simpl. intros [H|[H|[H|H]]]; try discriminate; exact H.
  - split; [exact Hcount|].
    eapply Hraise. vm_compute. reflexivity.
Defined.

(** ** What the outcome of the import says about the system *)

Lemma try_paths_cases {L} (os : Locator.system L) (ps : list (option string)) :
  (forall q, In q ps -> Locator.usable os q = false) \/
  exists pre p post,
    ps = pre ++ Some p :: post /\
    (forall q, In q pre -> Locator.usable os q = false) /\
    Locator.usable os (Some p) = true.
Proof.
  induction ps as [|a ps IH].
  - left. intros q [].
  - destruct (Locator.usable os a) eqn:Ea.
    + right. destruct a as [p|]; [|discriminate].
      exists [], p, ps. split; [reflexivity|]. split; [intros q []|exact Ea].
    + destruct IH as [Hnone|(pre & p & post & -> & Hpre & Hp)].
      * left. intros q [<-|Hq]; auto.
      * right. exists (a :: pre), p, post. split; [reflexivity|].
        split; [|exact Hp]. intros q [<-|Hq]; auto.
Qed.

(** X15: read backwards, the outcome of the import tells what happened.
    A library is imported only from the first candidate that is a
    non-empty existing path, and it is what loading that path returned.
    The exit with "Could not load liboqs shared library" means that
    loading this first candidate raised an [OSError]; later candidates
    are not tried.  The exit with "No liboqs shared libraries found"
    means that no candidate was a non-empty existing path, or that
    loading the first one raised a [RuntimeError].  Any other exception
    of the loader leaves the import uncaught. *)
Theorem X15_import_outcome_read_backwards :
  forall L (os : Locator.system L),
  let first_usable (p : string) :=
    exists pre post,
      Locator.paths os = pre ++ Some p :: post /\
      (forall q, In q pre -> Locator.usable os q = false) /\
      p <> EmptyString /\ Locator.path_exists os p = true in
  (forall lib, Locator.module_load os = Locator.Imported lib ->
     exists p, first_usable p /\ Locator.LoadLibrary os p = Ok lib) /\
  (Locator.module_load os
   = Locator.Exited "Could not load liboqs shared library" ->
   exists p e, first_usable p /\ Locator.LoadLibrary os p = Raise e /\
               handles OSError e = true) /\
  (Locator.module_load os
   = Locator.Exited "No liboqs shared libraries found" ->
   (forall q, In q (Locator.paths os) -> Locator.usable os q = false) \/
   exists p e, first_usable p /\ Locator.LoadLibrary os p = Raise e /\
               handles OSError e = false /\
               handles RuntimeError e = true) /\
  (forall e, Locator.module_load os = Locator.Uncaught e ->
     exists p, first_usable p /\ Locator.LoadLibrary os p = Raise e /\
               handles OSError e = false /\
               handles RuntimeError e = false).
Proof.
  intros L os first_usable.
  destruct (try_paths_cases os (Locator.paths os))
    as [Hnone|(pre & p & post & Hpaths & Hpre & Hp)].
  - assert (Locator.module_load os
            = Locator.Exited "No liboqs shared libraries found") as Hrun.
    { unfold Locator.module_load, Locator._load_shared_obj.
      now rewrite (try_paths_none os _ Hnone). }
    rewrite Hrun. repeat split; try discriminate. intros _. now left.
  - assert (first_usable p) as Hfirst.
    { exists pre, post. split; [exact Hpaths|]. split; [exact Hpre|].
      apply usable_spec in Hp as (p' & Hp' & Hne & Hex).
      inversion Hp'; subst. split; assumption. }
    assert (Locator._load_shared_obj os = Locator.LoadLibrary os p) as Hload.
    { unfold Locator._load_shared_obj. rewrite Hpaths.
      now apply try_paths_first. }
    unfold Locator.module_load. rewrite Hload.
    destruct (Locator.LoadLibrary os p) as [lib|e] eqn:E.
    + repeat split; try discriminate.
      intros lib' H. inversion H; subst. eauto.
    + destruct (handles OSError e) eqn:Eos;
        [|destruct (handles RuntimeError e) eqn:Ert];
        repeat split; try discriminate.
      * intros _. eauto.
      * intros _. right. exists p, e. auto.
      * intros e' H. inversion H; subst. eauto.
Qed.

Lemma X15_witness :
  exists p,
    (exists pre post,
       Locator.paths Toy.installed = pre ++ Some p :: post /\
       (forall q, In q pre -> Locator.usable Toy.installed q = false) /\
       p <> EmptyString /\ Locator.path_exists Toy.installed p = true) /\
    Locator.LoadLibrary Toy.installed p = Ok 7%Z.
Proof.
  destruct (X15_import_outcome_read_backwards Z Toy.installed)
    as (Himp & _).
  apply Himp. reflexivity.
Defined.

(** ** The probe and the cached list agree *)

(** X16: with a native constructor whose answer depends on the name only,
    [is_KEM_enabled] (or [is_sig_enabled]) called on a supported name at
    any later time answers true exactly when the name is in the list that
    [get_enabled_KEM_mechanisms] (or [get_enabled_sig_mechanisms])
    returns. *)
Theorem X16_probe_agrees_with_the_enabled_list :
  forall N (kem : KEM.library N) (sig : SIG.library N) (cd : codec),
  (forall (w0 : world N) reg w1 (new : bytes -> pointer),
     KEM.module_init kem cd w0 = (Ok reg, w1) ->
     (forall name st, fst (KEM.OQS_KEM_new kem name st) = new name) ->
     forall n (w : world N),
     In n (KEM._supported_KEMs reg) ->
     exists b w',
       KEM.is_KEM_enabled kem cd n w = (Ok b, w') /\
       (b = true <-> In n (KEM.get_enabled_KEM_mechanisms reg))) /\
  (forall (w0 : world N) reg w1 (new : bytes -> pointer),
     SIG.module_init sig cd w0 = (Ok reg, w1) ->
     (forall name st, fst (SIG.OQS_SIG_new sig name st) = new name) ->
     forall n (w : world N),
     In n (SIG._supported_sigs reg) ->
     exists b w',
       SIG.is_sig_enabled sig cd n w = (Ok b, w') /\
       (b = true <-> In n (SIG.get_enabled_sig_mechanisms reg))).
Proof.
  intros N kem sig cd. split.
  - intros w0 reg w1 new Hreg Hnew n w Hn.
    destruct (KEM_module_init_inv _ _ _ _ _ Hreg)
      as (ids & w2 & _ & _ & Hen).
    unfold KEM.get_enabled_KEM_mechanisms.
    rewrite (KEM_enabled_filter kem cd new _ _ _ _ Hnew Hen).
    rewrite is_KEM_enabled_run. cbv zeta. rewrite Hnew.
    destruct (new (create_string_buffer_init (encode cd n)) =? NULL)%Z
      eqn:E; do 2 eexists; (split; [reflexivity|]);
      rewrite filter_In, E; simpl; intuition discriminate.
  - intros w0 reg w1 new Hreg Hnew n w Hn.
    destruct (sig_module_init_inv _ _ _ _ _ Hreg)
      as (ids & w2 & _ & _ & Hen).
    unfold SIG.get_enabled_sig_mechanisms.
    rewrite (sig_enabled_filter sig cd new _ _ _ _ Hnew Hen).
    rewrite is_sig_enabled_run. cbv zeta. rewrite Hnew.
    destruct (new (create_string_buffer_init (encode cd n)) =? NULL)%Z
      eqn:E; do 2 eexists; (split; [reflexivity|]);
      rewrite filter_In, E; simpl; intuition discriminate.
Qed.

Lemma X16_witness :
  exists b w',
    KEM.is_KEM_enabled Toy.kem Toy.ascii_codec "BIKE1-L1" (Toy.boot 1%Z)
    = (Ok b, w') /\
    (b = true <->
     In "BIKE1-L1" (KEM.get_enabled_KEM_mechanisms Toy.kem_registry)).
Proof.
  destruct (X16_probe_agrees_with_the_enabled_list Z Toy.kem Toy.sig
              Toy.ascii_codec) as [HK _].
  apply (HK (Toy.boot 0%Z) Toy.kem_registry
            (snd (KEM.module_init Toy.kem Toy.ascii_codec (Toy.boot 0%Z)))
            (fun name =>
               Toy.lookup_new Toy.kem_table
                 (string_of_list_byte (Toy.c_str name)) 16%Z)).
  - vm_compute. reflexivity.
  - intros name st. reflexivity.
  - simpl. auto.
Defined.

(** ** The configured path *)

(** X17: when [LIBOQS_INSTALL_PATH] is set to a non-empty path that
    exists, that path is the one loaded, whatever the other candidates
    are.  When it is set to an empty string or to a path that does not
    exist, it is passed over without an error, and the import ends
    exactly as it does on the same system with the variable unset. *)
Theorem X17_configured_path_first_and_skipped_when_unusable :
  forall L (os : Locator.system L) (v : string),
  Locator.environ os "LIBOQS_INSTALL_PATH" = Some v ->
  let unset : Locator.system L :=
    {| Locator.platform_system := Locator.platform_system os;
       Locator.environ := fun _ => None;
       Locator.find_library := Locator.find_library os;
       Locator.curdir := Locator.curdir os;
       Locator.path_join := Locator.path_join os;
       Locator.path_exists := Locator.path_exists os;
       Locator.windll_LoadLibrary := Locator.windll_LoadLibrary os;
       Locator.cdll_LoadLibrary := Locator.cdll_LoadLibrary os |} in
  (v <> EmptyString -> Locator.path_exists os v = true ->
   Locator._load_shared_obj os = Locator.LoadLibrary os v) /\
  (v = EmptyString \/ Locator.path_exists os v = false ->
   Locator._load_shared_obj os = Locator._load_shared_obj unset /\
   Locator.module_load os = Locator.module_load unset).
Proof.
  intros L os v Henv unset.
  assert (forall ps, Locator.try_paths unset ps = Locator.try_paths os ps)
    as Hsame.
  { induction ps as [|[p|] ps IH]; simpl; [reflexivity| |exact IH].
    rewrite IH. reflexivity. }
  assert (Locator.paths os = Some v :: Locator.paths unset) as Hpaths.
  { unfold Locator.paths, Locator.LIBOQS_INSTALL_PATH. now rewrite Henv. }
  split.
  - intros Hne Hex. unfold Locator._load_shared_obj. rewrite Hpaths.
    apply (try_paths_first os [] v (Locator.paths unset)); [intros q []|].
    apply usable_spec. eauto.
  - intros Hbad.
    assert (Locator._load_shared_obj os = Locator._load_shared_obj unset)
      as Hload.
    { unfold Locator._load_shared_obj. rewrite Hpaths, Hsame.
      apply (try_paths_skip os [Some v] (Locator.paths unset)).
      intros q [<-|[]].
      destruct (Locator.usable os (Some v)) eqn:E; [|reflexivity].
      apply usable_spec in E as (p & Hp & Hne & Hex). inversion Hp; subst.
      destruct Hbad as [->|Hbad]; [now destruct Hne | congruence]. }
    split; [exact Hload|]. unfold Locator.module_load. now rewrite Hload.
Qed.

Lemma X17_witness :
  Locator._load_shared_obj Toy.installed
  = Locator.LoadLibrary Toy.installed "/opt/oqs/liboqs.so" /\
  Locator.module_load Toy.stale = Locator.Imported 9%Z.
Proof.
  split.
  - destruct (X17_configured_path_first_and_skipped_when_unusable Z
                Toy.installed "/opt/oqs/liboqs.so" eq_refl) as [Hfirst _].
    apply Hfirst; [discriminate | reflexivity].
  - destruct (X17_configured_path_first_and_skipped_when_unusable Z
                Toy.stale "/old/liboqs.so" eq_refl) as [_ Hskip].
    destruct Hskip as [_ Hsame]; [right; reflexivity|].
    rewrite Hsame. reflexivity.
Defined.
